(** * whatsaut: the checkpoint / conversation engine, verified against its spec

    The repository ships two variants of the same server.

    - [MultiCheckpoint] embeds [src/index.js]: scored instance selection,
      a deadline ([expires_at]) that the periodic sweeper enforces, no
      timers.  [src/unnamed/part_000] is an earlier copy with the same
      engine functions and sweeper (only its routes differ); it is not
      embedded a second time.
    - [AutoLead] embeds [src/unnamed/part_001]: round-robin instance
      selection, one [setTimeout] per activated checkpoint, conversations
      created by the webhook itself.

    Conventions of the embedding.

    - A JavaScript [Map] is an association list in insertion order
      ([JsMap]); [Map.set] on a present key keeps its position.
    - A JavaScript string is kept as the bytes of its UTF-8 encoding.  The
      servers compare strings, concatenate them and search them for an
      ASCII pattern, which reads the same on the bytes; [trim], which
      knows white space beyond ASCII, decodes the code points.
    - The per-instance statistics and the selection score, which enter
      arithmetic with fractions, are IEEE-754 binary64 values, Rocq's
      primitive [float].  Millisecond timestamps and the remaining
      counters are integers far below 2^53 and are kept in [Z].
    - A timer started by [setTimeout] may fire at any later step of a run;
      its delay is recorded but the model does not measure time.
    - Every handler reads the clock once: the parameter [now] stands for
      each [new Date()] / [Date.now()] of one call.
    - [addLog], [console.log] and the random [id] / formatted [brazil_time]
      fields of log and history records are presentation only and are left
      out of the state.
    - The outbound HTTP call ([sendToN8N] / [notifyN8N]) is an emitted
      [Notification]; its result never flows back into the state. *)

From Stdlib Require Import ZArith List String Ascii Bool Lia Floats.
Import ListNotations.

#[local] Set Warnings "-inexact-float".
#[local] Open Scope string_scope.
#[local] Open Scope Z_scope.

(* ================================================================== *)
(** * JavaScript built-ins used by the two servers *)
(* ================================================================== *)

Module JS.

(** [Math.max(a, b)]: NaN if either argument is NaN; +0 is larger than -0. *)
Definition Math_max (a b : float) : float :=
  if PrimFloat.is_nan a || PrimFloat.is_nan b then PrimFloat.nan
  else if (a <? b)%float then b
  else if (b <? a)%float then a
  else if PrimFloat.is_zero a then (a + b)%float
  else a.

(** [Math.min(a, b)]: NaN if either argument is NaN; -0 is smaller than +0. *)
Definition Math_min (a b : float) : float :=
  if PrimFloat.is_nan a || PrimFloat.is_nan b then PrimFloat.nan
  else if (a <? b)%float then a
  else if (b <? a)%float then b
  else if PrimFloat.is_zero a then (- ((- a) + (- b)))%float
  else a.

(** [a > b] on numbers. *)
Definition gt (a b : float) : bool := (b <? a)%float.

(** Truthiness of a string value: only the empty string is falsy. *)
Definition truthy (s : string) : bool := negb (s =? EmptyString)%string.

(** Truthiness of a value that is [null]/[undefined] or a string. *)
Definition truthy_opt (o : option string) : bool :=
  match o with
  | Some s => truthy s
  | None => false
  end.

(** A value inside a template literal: [null] prints as the word null. *)
Definition template (o : option string) : string :=
  match o with
  | Some s => s
  | None => "null"
  end.

(** [s.replace(pat, rep)] with a string pattern: first occurrence only. *)
Definition replace (pat rep s : string) : string :=
  match String.index 0 pat s with
  | Some i =>
      String.substring 0 i s ++ rep ++
      String.substring (i + String.length pat)%nat
                       (String.length s - (i + String.length pat))%nat s
  | None => s
  end.

(** [a[i]] for an integer-valued index: [undefined] outside the array. *)
Definition nth {A : Type} (a : list A) (i : Z) : option A :=
  if i <? 0 then None else nth_error a (Z.to_nat i).

(** The code points [String.prototype.trim] removes: the WhiteSpace and
    LineTerminator productions of ECMAScript.  TAB, LF, VT, FF, CR, SPACE,
    NO-BREAK SPACE, OGHAM SPACE MARK, EN QUAD to HAIR SPACE, LINE and
    PARAGRAPH SEPARATOR, NARROW NO-BREAK SPACE, MEDIUM MATHEMATICAL SPACE,
    IDEOGRAPHIC SPACE and the byte order mark. *)
Definition is_white_space (c : N) : bool :=
  (((9 <=? c) && (c <=? 13)) || (c =? 32) || (c =? 160) || (c =? 5760)
   || ((8192 <=? c) && (c <=? 8202)) || (c =? 8232) || (c =? 8233)
   || (c =? 8239) || (c =? 8287) || (c =? 12288) || (c =? 65279))%N.

(** A continuation byte of UTF-8. *)
Definition continuation (b : N) : bool := ((128 <=? b) && (b <? 192))%N.

(** The code point of a two-byte and of a three-byte sequence. *)
Definition code_point2 (b0 b1 : N) : N := ((b0 - 192) * 64 + (b1 - 128))%N.

Definition code_point3 (b0 b1 b2 : N) : N :=
  ((b0 - 224) * 4096 + (b1 - 128) * 64 + (b2 - 128))%N.

(** Every code point of [s] is white space: [s.trim()] is empty.  The
    string is read one UTF-8 sequence at a time; no code point of four
    bytes is white space, and a byte that starts no sequence is not. *)
Fixpoint all_white_space (s : string) : bool :=
  match s with
  | EmptyString => true
  | String a0 r0 =>
      let b0 := N_of_ascii a0 in
      if (b0 <? 128)%N then is_white_space b0 && all_white_space r0
      else
        match r0 with
        | EmptyString => false
        | String a1 r1 =>
            let b1 := N_of_ascii a1 in
            if (b0 <? 224)%N then
              (192 <=? b0)%N && continuation b1
              && (128 <=? code_point2 b0 b1)%N
              && is_white_space (code_point2 b0 b1)
              && all_white_space r1
            else
              match r1 with
              | EmptyString => false
              | String a2 r2 =>
                  let b2 := N_of_ascii a2 in
                  (b0 <? 240)%N && continuation b1 && continuation b2
                  && (2048 <=? code_point3 b0 b1 b2)%N
                  && is_white_space (code_point3 b0 b1 b2)
                  && all_white_space r2
              end
        end
  end.

(** Truthiness of [s.trim()]: some code point is not white space. *)
Definition trim_truthy (s : string) : bool := negb (all_white_space s).

End JS.

(* ================================================================== *)
(** * JavaScript [Map] with string keys, in insertion order *)
(* ================================================================== *)

Module JsMap.
Section WithValue.
Context {V : Type}.

Definition t : Type := list (string * V).

Definition empty : t := [].

Fixpoint get (k : string) (m : t) : option V :=
  match m with
  | [] => None
  | (k', v) :: r => if (k' =? k)%string then Some v else get k r
  end.

Definition has (k : string) (m : t) : bool :=
  match get k m with
  | Some _ => true
  | None => false
  end.

(** [m.set(k, v)]: overwrite in place, or append a new last entry. *)
Fixpoint set (k : string) (v : V) (m : t) : t :=
  match m with
  | [] => [(k, v)]
  | (k', v') :: r => if (k' =? k)%string then (k', v) :: r else (k', v') :: set k v r
  end.

Definition delete (k : string) (m : t) : t :=
  filter (fun e => negb (fst e =? k)%string) m.

Definition size (m : t) : Z := Z.of_nat (List.length m).

Definition keys (m : t) : list string := map fst m.

(** Keys are unique: what every [Map] built by [set]/[delete] satisfies. *)
Definition wf (m : t) : Prop := NoDup (keys m).

End WithValue.
Arguments t : clear implicits.
End JsMap.


(* ================================================================== *)
(** * The life cycle of a checkpoint, in the words of the spec *)
(* ================================================================== *)

(** What the servers let an observer see of a conversation: its creation,
    the activation of a checkpoint, the response that resolves it and the
    timeout that expires it.  [unresolved] replays such a history, oldest
    event first, and yields the checkpoint of [phone] that was activated
    and has seen no resolving response or timeout since. *)
Module Lifecycle.

Inductive Event :=
| Created (phone : string)
| CheckpointActivated (phone checkpoint : string)
| Resolved (phone : string)
| TimedOut (phone : string).

Definition subject (e : Event) : string :=
  match e with
  | Created p | CheckpointActivated p _ | Resolved p | TimedOut p => p
  end.

Definition after (e : Event) (pending : option string) : option string :=
  match e with
  | CheckpointActivated _ checkpoint => Some checkpoint
  | Created _ | Resolved _ | TimedOut _ => None
  end.

Definition unresolved (history : list Event) (phone : string) : option string :=
  fold_left
    (fun pending e => if (subject e =? phone)%string then after e pending else pending)
    history None.

(** The invariant of the data model, for a store [m] of conversations whose
    waiting flag and current checkpoint are read by [waiting] and [current]:
    a conversation is waiting exactly when its current checkpoint is
    non-null and is the one left unresolved by the history so far. *)
Definition waiting_iff_unresolved {C : Type} (waiting : C -> bool)
    (current : C -> option string) (history : list Event) (m : JsMap.t C)
  : Prop :=
  forall phone c,
    JsMap.get phone m = Some c ->
    (waiting c = true <->
     exists checkpoint,
       current c = Some checkpoint /\ unresolved history phone = Some checkpoint).

End Lifecycle.


(* ================================================================== *)
(** * [src/index.js]: the multi-checkpoint server *)
(* ================================================================== *)

Module MultiCheckpoint.

Definition CHECKPOINT_TIMEOUT : Z := 24 * 60 * 60 * 1000.
Definition DATA_RETENTION_TIME : Z := 48 * 60 * 60 * 1000.

Record Instance := { name : string; id : string }.

Definition INSTANCES : list Instance :=
  [ {| name := "G01"; id := "584F8ACCAA48-488D-A26E-E75E1A5B2994" |};
    {| name := "G02"; id := "2E2C41AB88F9-4356-B866-9ADA88530FD0" |};
    {| name := "G03"; id := "9AFECAC9683B-4611-8C51-933447B70905" |};
    {| name := "G04"; id := "C974682BB258-4756-98F0-CF6D90FC2755" |};
    {| name := "G05"; id := "118E0162F12C-4841-ADD6-33E11DDB341A" |};
    {| name := "G06"; id := "4AC271E7BBEA-4A2B-BB2D-3583BDE4AE1E" |};
    {| name := "G07T"; id := "E28170C3375C-4116-8723-144CC9B90994" |};
    {| name := "G09"; id := "E667206D3C72-4F8B-AD10-F933F273A39B" |};
    {| name := "G10"; id := "D6932E02E658-40BD-9784-8932841CCFA4" |};
    {| name := "G11"; id := "A1A28E54D712-41B9-A682-A49072EA2C0B" |} ].

(** One value of the [instanceStats] map. *)
Module Stats.
Record t := mk {
  total_leads : float;
  active_conversations : float;
  completed_conversations : float;
  response_rate : float;
  last_activity : Z;
  health_score : float;
  blocked : bool }.
End Stats.

(** One element of [state.responses]. *)
Module Resp.
Record t := mk {
  checkpoint_id : option string;
  message : string;
  timestamp : Z;
  response_time : Z }.
End Resp.

(** One element of [state.checkpoint_history]. *)
Module Passed.
Record t := mk {
  checkpoint_id : option string;
  passed_at : Z;
  response_message : string }.
End Passed.

(** One value of the [conversationState] map ([createConversationState]). *)
Module Conv.
Record t := mk {
  client_phone : string;
  client_name : string;
  instance : string;
  current_checkpoint : option string;
  checkpoint_history : list Passed.t;
  responses : list Resp.t;
  created_at : Z;
  last_activity : Z;
  expires_at : Z;
  status : string;
  total_checkpoints_passed : Z;
  waiting_for_response : bool;
  last_system_message : option string;
  step_data : option string }.
End Conv.

(** One element of the global [checkpointHistory] array. *)
Module Hist.
Record t := mk {
  client_phone : string;
  client_name : string;
  checkpoint_id : option string;
  response_message : string;
  instance : string;
  timestamp : Z;
  response_time_ms : Z }.
End Hist.

(** One value of [clientInstanceMap]. *)
Module ClientInstance.
Record t := mk { instance : string; created_at : Z }.
End ClientInstance.

(** The module-level variables of the server. *)
Record State := mkState {
  conversationState : JsMap.t Conv.t;
  clientInstanceMap : JsMap.t ClientInstance.t;
  checkpointHistory : list Hist.t;
  instanceStats : JsMap.t Stats.t;
  instanceCounter : Z }.

(** The payload handed to [sendToN8N]. *)
Record Notification := mkNotification {
  event_type : string;
  n_client_phone : string;
  n_checkpoint_id : option string;
  n_response_message : string;
  n_total_checkpoints_passed : Z;
  n_instance : string;
  n_instance_apikey : option string }.

(** The [action] strings of [updateInstanceStats]. *)
Inductive Action :=
| new_lead
| response_received
| no_response
| conversation_complete
| blocked.

Definition getInstanceApiKey (instances : list Instance) (instanceName : string)
  : option string :=
  match find (fun i => (name i =? instanceName)%string) instances with
  | Some i => Some (id i)
  | None => None
  end.

Definition initializeInstanceStats (instances : list Instance) (now : Z)
    (stats : JsMap.t Stats.t) : JsMap.t Stats.t :=
  fold_left
    (fun m instance =>
       JsMap.set (name instance)
         (Stats.mk 0 0 0 100 now 100 false) m)
    instances stats.

(** The [switch] of [updateInstanceStats], on the statistics object. *)
Definition updateInstanceStats_switch (action : Action) (now : Z)
    (stats : Stats.t) : Stats.t :=
  let '(Stats.mk total active completed rate last health blk) := stats in
  match action with
  | new_lead =>
      Stats.mk (total + 1)%float (active + 1)%float completed rate now health blk
  | response_received =>
      Stats.mk total active completed
        (JS.Math_min 100 (rate + 0.5)%float) last
        (JS.Math_min 100 (health + 1)%float) blk
  | no_response =>
      Stats.mk total active completed
        (JS.Math_max 0 (rate - 2)%float) last
        (JS.Math_max 0 (health - 5)%float) blk
  | conversation_complete =>
      Stats.mk total (active - 1)%float (completed + 1)%float rate last health blk
  | blocked =>
      Stats.mk total active completed rate last 0%float true
  end.

Definition updateInstanceStats (instanceName : string) (action : Action)
    (now : Z) (m : JsMap.t Stats.t) : JsMap.t Stats.t :=
  match JsMap.get instanceName m with
  | None => m
  | Some stats =>
      JsMap.set instanceName (updateInstanceStats_switch action now stats) m
  end.

(** The score computed in the body of the selection loop. *)
Definition finalScore (now : Z) (stats : Stats.t) : float :=
  let loadFactor :=
    JS.Math_max 0 (100 - (Stats.active_conversations stats * 2))%float in
  let responseFactor := Stats.response_rate stats in
  let healthFactor := Stats.health_score stats in
  let timeFactor :=
    if now - Stats.last_activity stats <? 300000 then 10%float else 0%float in
  ((loadFactor * 0.4) + (responseFactor * 0.3) + (healthFactor * 0.2)
   + (timeFactor * 0.1))%float.

(** The [for ... of instanceStats.entries()] loop of [getBestInstance]. *)
Fixpoint getBestInstance_loop (now : Z) (entries : JsMap.t Stats.t)
    (bestInstance : option string) (bestScore : float)
  : option string * float :=
  match entries with
  | [] => (bestInstance, bestScore)
  | (instanceName, stats) :: rest =>
      if Stats.blocked stats then
        getBestInstance_loop now rest bestInstance bestScore
      else if JS.gt (finalScore now stats) bestScore then
        getBestInstance_loop now rest (Some instanceName) (finalScore now stats)
      else
        getBestInstance_loop now rest bestInstance bestScore
  end.

(** [getBestInstance]; [None] is the [TypeError] of reading [.name] of
    [undefined] (an empty instance list). *)
Definition getBestInstance (instances : list Instance) (now : Z) (s : State)
  : option (string * State) :=
  let bestInstance :=
    fst (getBestInstance_loop now (instanceStats s) None (-1)%float) in
  if JS.truthy_opt bestInstance then
    Some (JS.template bestInstance, s)
  else
    match JS.nth instances
            (Z.rem (instanceCounter s) (Z.of_nat (List.length instances))) with
    | Some i =>
        Some (name i,
              mkState (conversationState s) (clientInstanceMap s)
                      (checkpointHistory s) (instanceStats s)
                      (instanceCounter s + 1))
    | None => None
    end.

Definition createConversationState (clientPhone clientName instanceName : string)
    (now : Z) : Conv.t :=
  {| Conv.client_phone := clientPhone;
     Conv.client_name := clientName;
     Conv.instance := instanceName;
     Conv.current_checkpoint := None;
     Conv.checkpoint_history := [];
     Conv.responses := [];
     Conv.created_at := now;
     Conv.last_activity := now;
     Conv.expires_at := now + CHECKPOINT_TIMEOUT;
     Conv.status := "active";
     Conv.total_checkpoints_passed := 0;
     Conv.waiting_for_response := false;
     Conv.last_system_message := None;
     Conv.step_data := None |}.

(** The [error] strings of the two engine functions. *)
Inductive Error :=
| NotFound      (* 'Cliente nao encontrado' *)
| NotWaiting.   (* 'Nao estava aguardando resposta' *)

(** The optional [data] argument of [activateCheckpoint]. *)
Record ActivateData := {
  data_message : option string;
  data_step_data : option string }.

Inductive ActivateResult :=
| ActivateFailed (error : Error)
| Activated (checkpoint : string) (client : string).

Definition activateCheckpoint (clientPhone checkpointId : string)
    (data : ActivateData) (now : Z) (s : State)
  : ActivateResult * State :=
  match JsMap.get clientPhone (conversationState s) with
  | None => (ActivateFailed NotFound, s)
  | Some state =>
      let state' :=
        {| Conv.client_phone := Conv.client_phone state;
           Conv.client_name := Conv.client_name state;
           Conv.instance := Conv.instance state;
           Conv.current_checkpoint := Some checkpointId;
           Conv.checkpoint_history := Conv.checkpoint_history state;
           Conv.responses := Conv.responses state;
           Conv.created_at := Conv.created_at state;
           Conv.last_activity := now;
           Conv.expires_at := now + CHECKPOINT_TIMEOUT;
           Conv.status := Conv.status state;
           Conv.total_checkpoints_passed := Conv.total_checkpoints_passed state;
           Conv.waiting_for_response := true;
           Conv.last_system_message :=
             (if JS.truthy_opt (data_message data) then data_message data
              else Conv.last_system_message state);
           Conv.step_data :=
             (if JS.truthy_opt (data_step_data data) then data_step_data data
              else Conv.step_data state) |} in
      (Activated checkpointId clientPhone,
       mkState (JsMap.set clientPhone state' (conversationState s))
               (clientInstanceMap s) (checkpointHistory s) (instanceStats s)
               (instanceCounter s))
  end.

Inductive ResponseResult :=
| ResponseFailed (error : Error)
| ResponsePassed (checkpoint_passed : option string) (client : string)
                 (response : string) (total_passed : Z).

Definition processClientResponse (clientPhone responseMessage : string)
    (now : Z) (s : State) : ResponseResult * State :=
  match JsMap.get clientPhone (conversationState s) with
  | None => (ResponseFailed NotFound, s)
  | Some state =>
      if negb (Conv.waiting_for_response state)
         || negb (JS.truthy_opt (Conv.current_checkpoint state))
      then (ResponseFailed NotWaiting, s)
      else
        let response :=
          {| Resp.checkpoint_id := Conv.current_checkpoint state;
             Resp.message := responseMessage;
             Resp.timestamp := now;
             Resp.response_time := now - Conv.last_activity state |} in
        let passedCheckpoint := Conv.current_checkpoint state in
        let state' :=
          {| Conv.client_phone := Conv.client_phone state;
             Conv.client_name := Conv.client_name state;
             Conv.instance := Conv.instance state;
             Conv.current_checkpoint := None;
             Conv.checkpoint_history :=
               Conv.checkpoint_history state ++
               [ {| Passed.checkpoint_id := Conv.current_checkpoint state;
                    Passed.passed_at := now;
                    Passed.response_message := responseMessage |} ];
             Conv.responses := Conv.responses state ++ [response];
             Conv.created_at := Conv.created_at state;
             Conv.last_activity := now;
             Conv.expires_at := Conv.expires_at state;
             Conv.status := Conv.status state;
             Conv.total_checkpoints_passed :=
               Conv.total_checkpoints_passed state + 1;
             Conv.waiting_for_response := false;
             Conv.last_system_message := Conv.last_system_message state;
             Conv.step_data := Conv.step_data state |} in
        (ResponsePassed passedCheckpoint clientPhone responseMessage
                        (Conv.total_checkpoints_passed state'),
         mkState
           (JsMap.set clientPhone state' (conversationState s))
           (clientInstanceMap s)
           ({| Hist.client_phone := clientPhone;
               Hist.client_name := Conv.client_name state;
               Hist.checkpoint_id := passedCheckpoint;
               Hist.response_message := responseMessage;
               Hist.instance := Conv.instance state;
               Hist.timestamp := now;
               Hist.response_time_ms := Resp.response_time response |}
            :: checkpointHistory s)
           (updateInstanceStats (Conv.instance state) response_received now
                                (instanceStats s))
           (instanceCounter s))
  end.

(** ** The HTTP handlers, from the parsed request body on *)

(** [POST /api/start-conversation]. *)
Record StartBody := {
  sb_client_phone : option string;
  sb_client_name : option string }.

Inductive StartResponse :=
| Start400
| StartExisting (instance : string) (instance_apikey : option string)
                (current_checkpoint : option string)
| StartCreated (client_phone instance : string)
               (instance_apikey : option string)
| Start500.

Definition start_conversation (instances : list Instance) (body : StartBody)
    (now : Z) (s : State) : StartResponse * State :=
  if negb (JS.truthy_opt (sb_client_phone body)) then (Start400, s)
  else
    let client_phone := JS.template (sb_client_phone body) in
    match JsMap.get client_phone (conversationState s) with
    | Some existing =>
        (StartExisting (Conv.instance existing)
                       (getInstanceApiKey instances (Conv.instance existing))
                       (Conv.current_checkpoint existing), s)
    | None =>
        match getBestInstance instances now s with
        | None => (Start500, s)
        | Some (instanceName, s1) =>
            let client_name :=
              if JS.truthy_opt (sb_client_name body)
              then JS.template (sb_client_name body) else "Cliente" in
            let state :=
              createConversationState client_phone client_name instanceName now in
            (StartCreated client_phone instanceName
                          (getInstanceApiKey instances instanceName),
             mkState
               (JsMap.set client_phone state (conversationState s1))
               (JsMap.set client_phone (ClientInstance.mk instanceName now)
                          (clientInstanceMap s1))
               (checkpointHistory s1)
               (updateInstanceStats instanceName new_lead now (instanceStats s1))
               (instanceCounter s1))
        end
    end.

(** [POST /api/activate-checkpoint]. *)
Record ActivateBody := {
  ab_client_phone : option string;
  ab_checkpoint_id : option string;
  ab_message : option string;
  ab_step_data : option string }.

Inductive ActivateResponse :=
| Activate400
| ActivateJson (result : ActivateResult).

Definition activate_checkpoint (body : ActivateBody) (now : Z) (s : State)
  : ActivateResponse * State :=
  if negb (JS.truthy_opt (ab_client_phone body))
     || negb (JS.truthy_opt (ab_checkpoint_id body))
  then (Activate400, s)
  else
    let '(result, s') :=
      activateCheckpoint (JS.template (ab_client_phone body))
                         (JS.template (ab_checkpoint_id body))
                         {| data_message := ab_message body;
                            data_step_data := ab_step_data body |} now s in
    (ActivateJson result, s').

(** [POST /webhook/evolution]: [req.body.data], its [key] and
    [message?.conversation]. *)
Record MessageKey := { remoteJid : string; fromMe : bool }.

Record MessageData := {
  key : option MessageKey;
  message_conversation : option string }.

Record WebhookBody := { data : option MessageData }.

(** [messageData.message?.conversation || ''] *)
Definition messageContent (messageData : MessageData) : string :=
  if JS.truthy_opt (message_conversation messageData)
  then JS.template (message_conversation messageData) else EmptyString.

Definition webhook_evolution (instances : list Instance) (body : WebhookBody)
    (now : Z) (s : State) : list Notification * State :=
  match data body with
  | None => ([], s)
  | Some messageData =>
      match key messageData with
      | None => ([], s)
      | Some k =>
          let messageContent := messageContent messageData in
          let clientNumber := JS.replace "@s.whatsapp.net" EmptyString (remoteJid k) in
          if negb (fromMe k) && JS.trim_truthy messageContent then
            match processClientResponse clientNumber messageContent now s with
            | (ResponsePassed checkpoint_passed _ response total_passed, s') =>
                match JsMap.get clientNumber (conversationState s') with
                | Some state =>
                    ([ {| event_type := "checkpoint_passed";
                          n_client_phone := clientNumber;
                          n_checkpoint_id := checkpoint_passed;
                          n_response_message := response;
                          n_total_checkpoints_passed := total_passed;
                          n_instance := Conv.instance state;
                          n_instance_apikey :=
                            getInstanceApiKey instances (Conv.instance state) |} ],
                     s')
                | None => ([], s')
                end
            | (ResponseFailed _, s') => ([], s')
            end
          else ([], s)
      end
  end.

(** ** The periodic sweeper *)

(** The three assignments of the expiry branch. *)
Definition expire (state : Conv.t) : Conv.t :=
  {| Conv.client_phone := Conv.client_phone state;
     Conv.client_name := Conv.client_name state;
     Conv.instance := Conv.instance state;
     Conv.current_checkpoint := None;
     Conv.checkpoint_history := Conv.checkpoint_history state;
     Conv.responses := Conv.responses state;
     Conv.created_at := Conv.created_at state;
     Conv.last_activity := Conv.last_activity state;
     Conv.expires_at := Conv.expires_at state;
     Conv.status := "expired";
     Conv.total_checkpoints_passed := Conv.total_checkpoints_passed state;
     Conv.waiting_for_response := false;
     Conv.last_system_message := Conv.last_system_message state;
     Conv.step_data := Conv.step_data state |}.

(** The two tests of the loop body. *)
Definition checkpoint_expired (now : Z) (state : Conv.t) : bool :=
  (now >? Conv.expires_at state) && Conv.waiting_for_response state.

Definition past_retention (now : Z) (state : Conv.t) : bool :=
  now - Conv.created_at state >? DATA_RETENTION_TIME.

(** The body of [for (const [phone, state] of conversationState.entries())]. *)
Definition cleanup_entry (now : Z) (s : State) (entry : string * Conv.t)
  : State :=
  let '(phone, state) := entry in
  let s1 :=
    if checkpoint_expired now state then
      mkState
        (JsMap.set phone (expire state) (conversationState s))
        (clientInstanceMap s) (checkpointHistory s)
        (updateInstanceStats (Conv.instance state) conversation_complete now
           (updateInstanceStats (Conv.instance state) no_response now
              (instanceStats s)))
        (instanceCounter s)
    else s in
  if past_retention now state then
    mkState (JsMap.delete phone (conversationState s1))
            (JsMap.delete phone (clientInstanceMap s1))
            (checkpointHistory s1) (instanceStats s1) (instanceCounter s1)
  else s1.

Definition cleanupExpiredCheckpoints (now : Z) (s : State) : State :=
  let s' := fold_left (cleanup_entry now) (conversationState s) s in
  let cutoffTime := now - DATA_RETENTION_TIME in
  mkState (conversationState s') (clientInstanceMap s')
          (filter (fun h => Hist.timestamp h >? cutoffTime) (checkpointHistory s'))
          (instanceStats s') (instanceCounter s').

(** The state after module initialisation ([initializeInstanceStats()]). *)
Definition initial (instances : list Instance) (now : Z) : State :=
  mkState JsMap.empty JsMap.empty []
          (initializeInstanceStats instances now JsMap.empty) 0.

(** ** Runs of the server *)

(** What reaches the server: the three POST routes and the interval timer. *)
Inductive Request :=
| StartConversation (body : StartBody)
| ActivateCheckpoint (body : ActivateBody)
| WebhookEvolution (body : WebhookBody)
| Cleanup.

(** The phones a sweeper pass reports as expired (its 'timeout' log lines;
    [expiredCount] is their number). *)
Definition expired_phones (now : Z) (s : State) : list string :=
  map fst (filter (fun e => checkpoint_expired now (snd e)) (conversationState s)).

(** One request served at clock reading [now], with what it lets an
    observer see: the JSON result of the two API routes, the notification of
    the webhook, the expiry lines of the sweeper. *)
Definition step (instances : list Instance) (r : Request) (now : Z) (s : State)
  : list Lifecycle.Event * State :=
  match r with
  | StartConversation body =>
      match start_conversation instances body now s with
      | (StartCreated phone _ _, s') => ([Lifecycle.Created phone], s')
      | (_, s') => ([], s')
      end
  | ActivateCheckpoint body =>
      match activate_checkpoint body now s with
      | (ActivateJson (Activated checkpoint client), s') =>
          ([Lifecycle.CheckpointActivated client checkpoint], s')
      | (_, s') => ([], s')
      end
  | WebhookEvolution body =>
      let '(sent, s') := webhook_evolution instances body now s in
      (map (fun n => Lifecycle.Resolved (n_client_phone n)) sent, s')
  | Cleanup =>
      (map Lifecycle.TimedOut (expired_phones now s),
       cleanupExpiredCheckpoints now s)
  end.

Fixpoint run (instances : list Instance) (trace : list (Request * Z))
    (history : list Lifecycle.Event) (s : State)
  : list Lifecycle.Event * State :=
  match trace with
  | [] => (history, s)
  | (r, now) :: rest =>
      let '(seen, s') := step instances r now s in
      run instances rest (history ++ seen) s'
  end.

End MultiCheckpoint.


(* ================================================================== *)
(** * [src/unnamed/part_001]: the auto-lead server with timers *)
(* ================================================================== *)

Module AutoLead.

Definition DATA_RETENTION_TIME : Z := 72 * 60 * 60 * 1000.
Definition INSTANCE_ROTATION_RESET : Z := 1000.

(** An element of [INSTANCES]; [/api/instance/block] clears [active]. *)
Record Instance := { name : string; id : string; active : bool }.

Definition INSTANCES_configured : list Instance :=
  [ {| name := "G08"; id := "A63C380B277D-4A5E-9ECD-48710291E5A6";
       active := true |} ].

(** One value of the [instanceStats] map. *)
Module Stats.
Record t := mk {
  total_leads : float;
  active_conversations : float;
  checkpoints_passed : float;
  timeouts : float;
  last_activity : Z;
  health_score : float;
  response_rate : float;
  blocked : bool }.
End Stats.

(** [checkpointData], an element of [conversation.checkpoints].
    [response_time] is [None] where the subtraction yields NaN. *)
Module Checkpoint.
Record t := mk {
  name : option string;
  response : string;
  passed_at : Z;
  response_time : option Z }.
End Checkpoint.

(** One value of the [conversationState] map ([createConversation]). *)
Module Conv.
Record t := mk {
  phone : string;
  name : string;
  instance : string;
  instance_id : string;
  source : string;
  current_checkpoint : option string;
  checkpoints : list Checkpoint.t;
  waiting_response : bool;
  created_at : Z;
  last_activity : Z;
  status : string;
  checkpoint_activated_at : option Z }.
End Conv.

(** One element of the global [checkpointHistory] array. *)
Module Hist.
Record t := mk {
  phone : string;
  name : string;
  checkpoint : option string;
  response : string;
  instance : string;
  timestamp : Z }.
End Hist.

Module Daily.
Record t := mk {
  leads_today : Z;
  checkpoints_passed : Z;
  timeouts : Z;
  active_now : Z;
  last_reset : Z }.
End Daily.

(** A callback handed to [setTimeout]: the closure
    [() => handleCheckpointTimeout(phone, checkpointName)] and its delay. *)
Record Timer := mkTimer {
  timer_phone : string;
  timer_checkpointName : string;
  timer_delay : Z }.

(** The module-level variables of the server, and the runtime's table of
    pending timers ([timers], ids handed out from [nextTimerId]). *)
Record State := mkState {
  INSTANCES : list Instance;
  conversationState : JsMap.t Conv.t;
  checkpointTimeouts : JsMap.t Z;
  timers : list (Z * Timer);
  nextTimerId : Z;
  instanceStats : JsMap.t Stats.t;
  checkpointHistory : list Hist.t;
  dailyStats : Daily.t;
  instanceRotationCounter : Z;
  totalLeadsProcessed : Z }.

(** The payloads handed to [notifyN8N], by their [event] field. *)
Inductive Notification :=
| new_lead (phone name instance instance_id initial_message source : string)
| checkpoint_passed (phone : string) (checkpoint : option string)
                    (response instance : string)
| checkpoint_timeout (phone checkpoint instance : string).

(** The [event] strings of [updateInstanceStats]. *)
Inductive Event :=
| ev_checkpoint_passed
| ev_timeout
| ev_conversation_ended
| ev_blocked.

(** ** The runtime's timers *)

Definition setTimeout (callback : Timer) (s : State) : Z * State :=
  (nextTimerId s,
   mkState (INSTANCES s) (conversationState s) (checkpointTimeouts s)
           (timers s ++ [(nextTimerId s, callback)]) (nextTimerId s + 1)
           (instanceStats s) (checkpointHistory s) (dailyStats s)
           (instanceRotationCounter s) (totalLeadsProcessed s)).

Definition clearTimeout_in (timeoutId : Z) (l : list (Z * Timer))
  : list (Z * Timer) :=
  filter (fun e => negb (fst e =? timeoutId)) l.

(** The recurring fragment
    [if (checkpointTimeouts.has(timeoutKey)) { clearTimeout(...); delete }]. *)
Definition cancel_timeout (timeoutKey : string) (s : State) : State :=
  match JsMap.get timeoutKey (checkpointTimeouts s) with
  | Some timeoutId =>
      mkState (INSTANCES s) (conversationState s)
              (JsMap.delete timeoutKey (checkpointTimeouts s))
              (clearTimeout_in timeoutId (timers s)) (nextTimerId s)
              (instanceStats s) (checkpointHistory s) (dailyStats s)
              (instanceRotationCounter s) (totalLeadsProcessed s)
  | None => s
  end.

(** The template literal [`${phone}_${checkpoint}`]. *)
Definition timeoutKey (phone : string) (checkpoint : option string) : string :=
  phone ++ "_" ++ JS.template checkpoint.

(** ** Instance management *)

Definition initializeInstanceStats (instances : list Instance) (now : Z)
    (stats : JsMap.t Stats.t) : JsMap.t Stats.t :=
  fold_left
    (fun m instance =>
       JsMap.set (name instance) (Stats.mk 0 0 0 0 now 100 100 false) m)
    instances stats.

(** The filter of [getNextInstance]. *)
Definition is_available (stats : JsMap.t Stats.t) (i : Instance) : bool :=
  active i &&
  match JsMap.get (name i) stats with
  | None => true
  | Some st => negb (Stats.blocked st)
  end.

Definition with_instanceStats (m : JsMap.t Stats.t) (s : State) : State :=
  mkState (INSTANCES s) (conversationState s) (checkpointTimeouts s)
          (timers s) (nextTimerId s) m (checkpointHistory s) (dailyStats s)
          (instanceRotationCounter s) (totalLeadsProcessed s).

Definition with_conversationState (m : JsMap.t Conv.t) (s : State) : State :=
  mkState (INSTANCES s) m (checkpointTimeouts s)
          (timers s) (nextTimerId s) (instanceStats s) (checkpointHistory s)
          (dailyStats s) (instanceRotationCounter s) (totalLeadsProcessed s).

(** [getNextInstance]; the result is [None] where the source yields
    [undefined]. *)
Definition getNextInstance (now : Z) (s : State) : option Instance * State :=
  let availableInstances := filter (is_available (instanceStats s)) (INSTANCES s) in
  if (List.length availableInstances =? 0)%nat then
    (JS.nth (INSTANCES s) 0, s)
  else
    match JS.nth availableInstances
            (Z.rem (instanceRotationCounter s)
                   (Z.of_nat (List.length availableInstances))) with
    | None => (None, s)
    | Some instance =>
        let counter := instanceRotationCounter s + 1 in
        let counter' :=
          if counter >? INSTANCE_ROTATION_RESET then 0 else counter in
        let stats' :=
          match JsMap.get (name instance) (instanceStats s) with
          | Some st =>
              JsMap.set (name instance)
                (Stats.mk (Stats.total_leads st + 1)%float
                          (Stats.active_conversations st + 1)%float
                          (Stats.checkpoints_passed st) (Stats.timeouts st)
                          now (Stats.health_score st) (Stats.response_rate st)
                          (Stats.blocked st))
                (instanceStats s)
          | None => instanceStats s
          end in
        (Some instance,
         mkState (INSTANCES s) (conversationState s) (checkpointTimeouts s)
                 (timers s) (nextTimerId s) stats' (checkpointHistory s)
                 (dailyStats s) counter' (totalLeadsProcessed s))
    end.

(** The [switch] of [updateInstanceStats] and the refresh of
    [last_activity] that follows it. *)
Definition updateInstanceStats_switch (event : Event) (now : Z)
    (stats : Stats.t) : Stats.t :=
  let '(Stats.mk total active passed tmo last health rate blk) := stats in
  match event with
  | ev_checkpoint_passed =>
      Stats.mk total active (passed + 1)%float tmo now
        (JS.Math_min 100 (health + 1)%float)
        (JS.Math_min 100 (rate + 0.5)%float) blk
  | ev_timeout =>
      Stats.mk total active passed (tmo + 1)%float now
        (JS.Math_max 0 (health - 3)%float)
        (JS.Math_max 0 (rate - 2)%float) blk
  | ev_conversation_ended =>
      Stats.mk total (JS.Math_max 0 (active - 1)%float) passed tmo now
        health rate blk
  | ev_blocked =>
      Stats.mk total active passed tmo now 0%float rate true
  end.

Definition updateInstanceStats (instanceName : string) (event : Event)
    (now : Z) (m : JsMap.t Stats.t) : JsMap.t Stats.t :=
  match JsMap.get instanceName m with
  | None => m
  | Some stats =>
      JsMap.set instanceName (updateInstanceStats_switch event now stats) m
  end.

(** ** The checkpoint engine *)

(** [createConversation]; [None] is the [TypeError] of reading [.name] of
    an [undefined] instance, thrown before any assignment. *)
Definition createConversation (phone name source : string) (now : Z)
    (s : State) : option (Conv.t * State) :=
  match getNextInstance now s with
  | (None, _) => None
  | (Some instance, s1) =>
      let conversation :=
        {| Conv.phone := phone;
           Conv.name := name;
           Conv.instance := AutoLead.name instance;
           Conv.instance_id := id instance;
           Conv.source := source;
           Conv.current_checkpoint := None;
           Conv.checkpoints := [];
           Conv.waiting_response := false;
           Conv.created_at := now;
           Conv.last_activity := now;
           Conv.status := "active";
           Conv.checkpoint_activated_at := None |} in
      let conversations := JsMap.set phone conversation (conversationState s1) in
      Some (conversation,
            mkState (INSTANCES s1) conversations (checkpointTimeouts s1)
                    (timers s1) (nextTimerId s1) (instanceStats s1)
                    (checkpointHistory s1)
                    (Daily.mk (Daily.leads_today (dailyStats s1) + 1)
                              (Daily.checkpoints_passed (dailyStats s1))
                              (Daily.timeouts (dailyStats s1))
                              (JsMap.size conversations)
                              (Daily.last_reset (dailyStats s1)))
                    (instanceRotationCounter s1)
                    (totalLeadsProcessed s1 + 1))
  end.

Inductive Error :=
| NotFound      (* 'Conversa nao encontrada' *)
| NotWaiting.   (* 'Nao aguardava resposta' *)

Inductive ActivateResult :=
| ActivateFailed (error : Error)
| Activated (checkpoint instance instance_id : string).

(** [options.timeout_minutes || 1440]. *)
Definition timeoutMinutes (timeout_minutes : option Z) : Z :=
  match timeout_minutes with
  | Some 0 | None => 1440
  | Some m => m
  end.

Definition activateCheckpoint (phone checkpointName : string)
    (timeout_minutes : option Z) (now : Z) (s : State)
  : ActivateResult * State :=
  match JsMap.get phone (conversationState s) with
  | None => (ActivateFailed NotFound, s)
  | Some conversation =>
      let s1 :=
        cancel_timeout (timeoutKey phone (Conv.current_checkpoint conversation)) s in
      let conversation' :=
        {| Conv.phone := Conv.phone conversation;
           Conv.name := Conv.name conversation;
           Conv.instance := Conv.instance conversation;
           Conv.instance_id := Conv.instance_id conversation;
           Conv.source := Conv.source conversation;
           Conv.current_checkpoint := Some checkpointName;
           Conv.checkpoints := Conv.checkpoints conversation;
           Conv.waiting_response := true;
           Conv.created_at := Conv.created_at conversation;
           Conv.last_activity := now;
           Conv.status := Conv.status conversation;
           Conv.checkpoint_activated_at := Some now |} in
      let '(timeoutId, s2) :=
        setTimeout (mkTimer phone checkpointName
                            (timeoutMinutes timeout_minutes * 60 * 1000)) s1 in
      (Activated checkpointName (Conv.instance conversation)
                 (Conv.instance_id conversation),
       mkState (INSTANCES s2)
               (JsMap.set phone conversation' (conversationState s2))
               (JsMap.set (timeoutKey phone (Some checkpointName)) timeoutId
                          (checkpointTimeouts s2))
               (timers s2) (nextTimerId s2) (instanceStats s2)
               (checkpointHistory s2) (dailyStats s2)
               (instanceRotationCounter s2) (totalLeadsProcessed s2))
  end.

(** [conversation.current_checkpoint !== checkpointName]. *)
Definition checkpoint_differs (current : option string) (checkpointName : string)
  : bool :=
  match current with
  | Some c => negb (c =? checkpointName)%string
  | None => true
  end.

Definition handleCheckpointTimeout (phone checkpointName : string) (now : Z)
    (s : State) : list Notification * State :=
  match JsMap.get phone (conversationState s) with
  | None => ([], s)
  | Some conversation =>
      if checkpoint_differs (Conv.current_checkpoint conversation) checkpointName
      then ([], s)
      else
        let conversation' :=
          {| Conv.phone := Conv.phone conversation;
             Conv.name := Conv.name conversation;
             Conv.instance := Conv.instance conversation;
             Conv.instance_id := Conv.instance_id conversation;
             Conv.source := Conv.source conversation;
             Conv.current_checkpoint := Conv.current_checkpoint conversation;
             Conv.checkpoints := Conv.checkpoints conversation;
             Conv.waiting_response := false;
             Conv.created_at := Conv.created_at conversation;
             Conv.last_activity := Conv.last_activity conversation;
             Conv.status := "timeout";
             Conv.checkpoint_activated_at :=
               Conv.checkpoint_activated_at conversation |} in
        ([ checkpoint_timeout phone checkpointName (Conv.instance conversation) ],
         mkState (INSTANCES s)
                 (JsMap.set phone conversation' (conversationState s))
                 (checkpointTimeouts s) (timers s) (nextTimerId s)
                 (updateInstanceStats (Conv.instance conversation) ev_timeout now
                                      (instanceStats s))
                 (checkpointHistory s)
                 (Daily.mk (Daily.leads_today (dailyStats s))
                           (Daily.checkpoints_passed (dailyStats s))
                           (Daily.timeouts (dailyStats s) + 1)
                           (Daily.active_now (dailyStats s))
                           (Daily.last_reset (dailyStats s)))
                 (instanceRotationCounter s) (totalLeadsProcessed s))
  end.

Inductive ResponseResult :=
| ResponseFailed (error : Error)
| ResponsePassed (checkpoint : option string) (response instance : string).

Definition processCheckpointResponse (phone message : string) (now : Z)
    (s : State) : ResponseResult * State :=
  match JsMap.get phone (conversationState s) with
  | None => (ResponseFailed NotFound, s)
  | Some conversation =>
      if negb (Conv.waiting_response conversation)
      then (ResponseFailed NotWaiting, s)
      else
        let checkpointName := Conv.current_checkpoint conversation in
        let s1 := cancel_timeout (timeoutKey phone checkpointName) s in
        let checkpointData :=
          {| Checkpoint.name := checkpointName;
             Checkpoint.response := message;
             Checkpoint.passed_at := now;
             Checkpoint.response_time :=
               match Conv.checkpoint_activated_at conversation with
               | Some activated => Some (now - activated)
               | None => None
               end |} in
        let conversation' :=
          {| Conv.phone := Conv.phone conversation;
             Conv.name := Conv.name conversation;
             Conv.instance := Conv.instance conversation;
             Conv.instance_id := Conv.instance_id conversation;
             Conv.source := Conv.source conversation;
             Conv.current_checkpoint := Conv.current_checkpoint conversation;
             Conv.checkpoints := Conv.checkpoints conversation ++ [checkpointData];
             Conv.waiting_response := false;
             Conv.created_at := Conv.created_at conversation;
             Conv.last_activity := now;
             Conv.status := Conv.status conversation;
             Conv.checkpoint_activated_at :=
               Conv.checkpoint_activated_at conversation |} in
        let history :=
          {| Hist.phone := phone;
             Hist.name := Conv.name conversation;
             Hist.checkpoint := checkpointName;
             Hist.response := message;
             Hist.instance := Conv.instance conversation;
             Hist.timestamp := now |} :: checkpointHistory s1 in
        (ResponsePassed checkpointName message (Conv.instance conversation),
         mkState (INSTANCES s1)
                 (JsMap.set phone conversation' (conversationState s1))
                 (checkpointTimeouts s1) (timers s1) (nextTimerId s1)
                 (updateInstanceStats (Conv.instance conversation)
                                      ev_checkpoint_passed now (instanceStats s1))
                 (if (500 <? List.length history)%nat
                  then firstn 500 history else history)
                 (Daily.mk (Daily.leads_today (dailyStats s1))
                           (Daily.checkpoints_passed (dailyStats s1) + 1)
                           (Daily.timeouts (dailyStats s1))
                           (Daily.active_now (dailyStats s1))
                           (Daily.last_reset (dailyStats s1)))
                 (instanceRotationCounter s1) (totalLeadsProcessed s1))
  end.

(** The runtime fires the pending timer [timeoutId]: it leaves the timer
    table and its callback runs.  A timer that is not pending cannot fire. *)
Definition fire_timer (timeoutId : Z) (now : Z) (s : State)
  : list Notification * State :=
  match find (fun e => fst e =? timeoutId) (timers s) with
  | None => ([], s)
  | Some (_, callback) =>
      handleCheckpointTimeout (timer_phone callback)
        (timer_checkpointName callback) now
        (mkState (INSTANCES s) (conversationState s) (checkpointTimeouts s)
                 (clearTimeout_in timeoutId (timers s)) (nextTimerId s)
                 (instanceStats s) (checkpointHistory s) (dailyStats s)
                 (instanceRotationCounter s) (totalLeadsProcessed s))
  end.

(** ** The HTTP handlers, from the parsed request body on *)

(** [POST /api/lead/new]; [name], [message] and [source] have defaults. *)
Record LeadBody := {
  lb_phone : option string;
  lb_name : option string;
  lb_message : option string;
  lb_source : option string }.

Inductive LeadResponse :=
| Lead400
| LeadExisting (instance instance_id : string) (created_at : Z)
| LeadCreated (phone instance instance_id : string)
| Lead500.

Definition default (d : string) (o : option string) : string :=
  match o with
  | Some v => v
  | None => d
  end.

Definition api_lead_new (body : LeadBody) (now : Z) (s : State)
  : LeadResponse * list Notification * State :=
  if negb (JS.truthy_opt (lb_phone body)) then (Lead400, [], s)
  else
    let phone := JS.template (lb_phone body) in
    let name := default "Cliente" (lb_name body) in
    let message := default EmptyString (lb_message body) in
    let source := default "ads" (lb_source body) in
    match JsMap.get phone (conversationState s) with
    | Some existing =>
        (LeadExisting (Conv.instance existing) (Conv.instance_id existing)
                      (Conv.created_at existing), [], s)
    | None =>
        match createConversation phone name source now s with
        | None => (Lead500, [], s)
        | Some (conversation, s') =>
            (LeadCreated phone (Conv.instance conversation)
                         (Conv.instance_id conversation),
             [ new_lead phone name (Conv.instance conversation)
                        (Conv.instance_id conversation) message source ],
             s')
        end
    end.

(** [POST /api/checkpoint/activate]. *)
Record ActivateBody := {
  ab_phone : option string;
  ab_checkpoint_name : option string;
  ab_timeout_minutes : option Z }.

Inductive ActivateResponse :=
| Activate400
| Activate404 (result : ActivateResult)
| ActivateJson (result : ActivateResult).

Definition api_checkpoint_activate (body : ActivateBody) (now : Z) (s : State)
  : ActivateResponse * State :=
  if negb (JS.truthy_opt (ab_phone body))
     || negb (JS.truthy_opt (ab_checkpoint_name body))
  then (Activate400, s)
  else
    let timeout_minutes :=
      match ab_timeout_minutes body with
      | Some m => Some m
      | None => Some 1440
      end in
    match activateCheckpoint (JS.template (ab_phone body))
                             (JS.template (ab_checkpoint_name body))
                             timeout_minutes now s with
    | (ActivateFailed e, s') => (Activate404 (ActivateFailed e), s')
    | (result, s') => (ActivateJson result, s')
    end.

(** [POST /webhook/evolution]: [req.body.data], its [key],
    [message?.conversation] and [message?.extendedTextMessage?.text]. *)
Record MessageKey := { remoteJid : string; fromMe : bool }.

Record MessageData := {
  key : option MessageKey;
  message_conversation : option string;
  message_extendedText : option string }.

Record WebhookBody := { data : option MessageData }.

(** [message?.conversation || message?.extendedTextMessage?.text || ''] *)
Definition messageContent (messageData : MessageData) : string :=
  if JS.truthy_opt (message_conversation messageData)
  then JS.template (message_conversation messageData)
  else if JS.truthy_opt (message_extendedText messageData)
  then JS.template (message_extendedText messageData)
  else EmptyString.

Inductive WebhookResponse :=
| WebhookOk
| WebhookNewLeadCreated
| Webhook500.

Definition webhook_evolution (body : WebhookBody) (now : Z) (s : State)
  : WebhookResponse * list Notification * State :=
  match data body with
  | None => (WebhookOk, [], s)
  | Some messageData =>
      match key messageData with
      | None => (WebhookOk, [], s)
      | Some k =>
          let messageContent := messageContent messageData in
          let phone := JS.replace "@s.whatsapp.net" EmptyString (remoteJid k) in
          if fromMe k then (WebhookOk, [], s)
          else if negb (JS.trim_truthy messageContent) then (WebhookOk, [], s)
          else if negb (JsMap.has phone (conversationState s)) then
            match createConversation phone "Cliente" "whatsapp_direto" now s with
            | None => (Webhook500, [], s)
            | Some (conversation, s') =>
                (WebhookNewLeadCreated,
                 [ new_lead phone "Cliente" (Conv.instance conversation)
                            (Conv.instance_id conversation) messageContent
                            "whatsapp_direto" ],
                 s')
            end
          else
            match processCheckpointResponse phone messageContent now s with
            | (ResponsePassed checkpoint response instance, s') =>
                (WebhookOk, [ checkpoint_passed phone checkpoint response instance ],
                 s')
            | (ResponseFailed _, s') => (WebhookOk, [], s')
            end
      end
  end.

(** [POST /api/instance/block]: [instance.active = false] on the element
    found by name, then the 'blocked' statistics event. *)
Fixpoint deactivate (instance_name : string) (l : list Instance)
  : list Instance :=
  match l with
  | [] => []
  | i :: r =>
      if (name i =? instance_name)%string
      then {| name := name i; id := id i; active := false |} :: r
      else i :: deactivate instance_name r
  end.

Definition api_instance_block (instance_name : string) (now : Z) (s : State)
  : bool * State :=
  match find (fun i => (name i =? instance_name)%string) (INSTANCES s) with
  | None => (false, s)
  | Some _ =>
      (true,
       mkState (deactivate instance_name (INSTANCES s)) (conversationState s)
               (checkpointTimeouts s) (timers s) (nextTimerId s)
               (updateInstanceStats instance_name ev_blocked now (instanceStats s))
               (checkpointHistory s) (dailyStats s)
               (instanceRotationCounter s) (totalLeadsProcessed s))
  end.

(** ** The periodic sweeper *)

Definition past_retention (now : Z) (conv : Conv.t) : bool :=
  now - Conv.last_activity conv >? DATA_RETENTION_TIME.

(** The body of [for (const [phone, conv] of conversationState.entries())]. *)
Definition cleanup_entry (now : Z) (s : State) (entry : string * Conv.t)
  : State :=
  let '(phone, conv) := entry in
  if past_retention now conv then
    let s1 :=
      with_conversationState (JsMap.delete phone (conversationState s)) s in
    let s2 := cancel_timeout (timeoutKey phone (Conv.current_checkpoint conv)) s1 in
    with_instanceStats
      (updateInstanceStats (Conv.instance conv) ev_conversation_ended now
                           (instanceStats s2)) s2
  else s.

(** [toDateString]: the calendar day, with UTC taken as the local zone. *)
Definition toDateString (t : Z) : Z := t / 86400000.

Definition cleanupOldData (now : Z) (s : State) : State :=
  let s' := fold_left (cleanup_entry now) (conversationState s) s in
  let size := JsMap.size (conversationState s') in
  let daily :=
    if toDateString (Daily.last_reset (dailyStats s')) =? toDateString now
    then dailyStats s'
    else Daily.mk 0 0 0 size now in
  mkState (INSTANCES s') (conversationState s') (checkpointTimeouts s')
          (timers s') (nextTimerId s') (instanceStats s')
          (filter (fun h => Hist.timestamp h >? now - DATA_RETENTION_TIME)
                  (checkpointHistory s'))
          (Daily.mk (Daily.leads_today daily) (Daily.checkpoints_passed daily)
                    (Daily.timeouts daily) size (Daily.last_reset daily))
          (instanceRotationCounter s') (totalLeadsProcessed s').

(** The state after module initialisation. *)
Definition initial (instances : list Instance) (now : Z) : State :=
  mkState instances JsMap.empty JsMap.empty [] 0
          (initializeInstanceStats instances now JsMap.empty) []
          (Daily.mk 0 0 0 0 now) 0 0.

(** ** Runs of the server *)

(** What reaches the server: its POST routes, a pending timer that fires,
    and the interval timer of the sweeper. *)
Inductive Request :=
| LeadNew (body : LeadBody)
| CheckpointActivate (body : ActivateBody)
| WebhookEvolution (body : WebhookBody)
| InstanceBlock (instance_name : string)
| TimerFires (timeoutId : Z)
| Cleanup.

Definition seen_in (n : Notification) : Lifecycle.Event :=
  match n with
  | new_lead phone _ _ _ _ _ => Lifecycle.Created phone
  | checkpoint_passed phone _ _ _ => Lifecycle.Resolved phone
  | checkpoint_timeout phone _ _ => Lifecycle.TimedOut phone
  end.

(** One request served at clock reading [now], with what it lets an
    observer see: the notifications sent, and the JSON result of an
    activation. *)
Definition step (r : Request) (now : Z) (s : State)
  : list Lifecycle.Event * State :=
  match r with
  | LeadNew body =>
      let '(_, sent, s') := api_lead_new body now s in (map seen_in sent, s')
  | CheckpointActivate body =>
      match api_checkpoint_activate body now s with
      | (ActivateJson (Activated checkpoint _ _), s') =>
          ([Lifecycle.CheckpointActivated (JS.template (ab_phone body)) checkpoint],
           s')
      | (_, s') => ([], s')
      end
  | WebhookEvolution body =>
      let '(_, sent, s') := webhook_evolution body now s in (map seen_in sent, s')
  | InstanceBlock instance_name =>
      ([], snd (api_instance_block instance_name now s))
  | TimerFires timeoutId =>
      let '(sent, s') := fire_timer timeoutId now s in (map seen_in sent, s')
  | Cleanup => ([], cleanupOldData now s)
  end.

Fixpoint run (trace : list (Request * Z)) (history : list Lifecycle.Event)
    (s : State) : list Lifecycle.Event * State :=
  match trace with
  | [] => (history, s)
  | (r, now) :: rest =>
      let '(seen, s') := step r now s in
      run rest (history ++ seen) s'
  end.

(** The states the server can be in: those a run from start-up reaches. *)
Definition reachable (s : State) : Prop :=
  exists instances t0 trace,
    snd (run trace [] (initial instances t0)) = s.

End AutoLead.


(* ================================================================== *)
(** * [src/index.js]: the routes that report the state *)
(* ================================================================== *)

(** The two GET routes of [src/index.js].  They read the module-level
    variables and change none.  Of the response of [GET /status] the
    fields computed from the state are kept; [system_logs], the clock
    fields, the constant configuration and
    [avg_checkpoints_per_conversation] (a number printed by [toFixed]) are
    left out. *)
Module MultiCheckpointStatus.
Import MultiCheckpoint.

(** The body of a successful [GET /api/checkpoint-status/:client_phone]. *)
Record CheckpointStatus := {
  cs_client_phone : string;
  cs_current_checkpoint : option string;
  cs_waiting_for_response : bool;
  cs_total_checkpoints_passed : Z;
  cs_last_activity : Z;
  cs_expires_at : Z;
  cs_instance : string;
  cs_instance_apikey : option string;
  cs_status : string }.

Inductive CheckpointStatusResponse :=
| CheckpointStatus404
| CheckpointStatusJson (body : CheckpointStatus).

Definition checkpoint_status (instances : list Instance) (client_phone : string)
    (s : State) : CheckpointStatusResponse :=
  match JsMap.get client_phone (conversationState s) with
  | None => CheckpointStatus404
  | Some state =>
      CheckpointStatusJson
        {| cs_client_phone := client_phone;
           cs_current_checkpoint := Conv.current_checkpoint state;
           cs_waiting_for_response := Conv.waiting_for_response state;
           cs_total_checkpoints_passed := Conv.total_checkpoints_passed state;
           cs_last_activity := Conv.last_activity state;
           cs_expires_at := Conv.expires_at state;
           cs_instance := Conv.instance state;
           cs_instance_apikey := getInstanceApiKey instances (Conv.instance state);
           cs_status := Conv.status state |}
  end.

(** One element of [conversationList] in [GET /status]. *)
Record ConversationSummary := {
  c_phone : string;
  c_client_name : string;
  c_instance : string;
  c_current_checkpoint : option string;
  c_waiting_for_response : bool;
  c_total_checkpoints_passed : Z;
  c_status : string;
  c_created_at : Z;
  c_last_activity : Z;
  c_expires_at : Z }.

Definition conversationList (s : State) : list ConversationSummary :=
  map (fun entry =>
         let '(phone, state) := entry in
         {| c_phone := phone;
            c_client_name := Conv.client_name state;
            c_instance := Conv.instance state;
            c_current_checkpoint := Conv.current_checkpoint state;
            c_waiting_for_response := Conv.waiting_for_response state;
            c_total_checkpoints_passed := Conv.total_checkpoints_passed state;
            c_status := Conv.status state;
            c_created_at := Conv.created_at state;
            c_last_activity := Conv.last_activity state;
            c_expires_at := Conv.expires_at state |})
      (conversationState s).

(** One element of [instanceStatsArray]: the instance name, the spread
    statistics, and [active_conversations] overwritten by a count over
    [conversationList]. *)
Record InstanceReport := {
  i_instance : string;
  i_total_leads : float;
  i_completed_conversations : float;
  i_response_rate : float;
  i_last_activity : Z;
  i_health_score : float;
  i_blocked : bool;
  i_active_conversations : Z }.

Definition is_active_on (name : string) (c : ConversationSummary) : bool :=
  (c_instance c =? name)%string && (c_status c =? "active")%string.

Definition instanceStatsArray (s : State) : list InstanceReport :=
  map (fun entry =>
         let '(name, stats) := entry in
         {| i_instance := name;
            i_total_leads := Stats.total_leads stats;
            i_completed_conversations := Stats.completed_conversations stats;
            i_response_rate := Stats.response_rate stats;
            i_last_activity := Stats.last_activity stats;
            i_health_score := Stats.health_score stats;
            i_blocked := Stats.blocked stats;
            i_active_conversations :=
              Z.of_nat (List.length (filter (is_active_on name) (conversationList s))) |})
      (instanceStats s).

(** [toDateString]: the calendar day, with UTC taken as the local zone. *)
Definition toDateString (t : Z) : Z := t / 86400000.

Record CheckpointStats := {
  total_conversations_active : Z;
  waiting_for_response : Z;
  total_checkpoints_passed_today : Z }.

Definition checkpointStats (now : Z) (s : State) : CheckpointStats :=
  {| total_conversations_active :=
       Z.of_nat (List.length
                   (filter (fun c => (c_status c =? "active")%string)
                           (conversationList s)));
     waiting_for_response :=
       Z.of_nat (List.length (filter c_waiting_for_response (conversationList s)));
     total_checkpoints_passed_today :=
       Z.of_nat (List.length
                   (filter (fun h => toDateString (Hist.timestamp h) =? toDateString now)
                           (checkpointHistory s))) |}.

Record StatusReport := {
  conversations : list ConversationSummary;
  instance_stats : list InstanceReport;
  checkpoint_stats : CheckpointStats;
  recent_checkpoints : list Hist.t }.

(** [GET /status]. *)
Definition status (now : Z) (s : State) : StatusReport :=
  {| conversations := conversationList s;
     instance_stats := instanceStatsArray s;
     checkpoint_stats := checkpointStats now s;
     recent_checkpoints := firstn 50 (checkpointHistory s) |}.

End MultiCheckpointStatus.


(* ================================================================== *)
(** * [src/unnamed/part_001]: the routes that report the state, the log *)
(* ================================================================== *)

(** The two GET routes of [src/unnamed/part_001].  Of the response of
    [GET /api/status] the fields computed from the state are kept;
    [recent_logs], the clock fields and the process uptime are left out. *)
Module AutoLeadStatus.
Import AutoLead.

Inductive ConversationResponse :=
| Conversation404
| ConversationJson (conversation : Conv.t) (checkpoints_count : Z).

(** [GET /api/conversation/:phone]. *)
Definition api_conversation (phone : string) (s : State) : ConversationResponse :=
  match JsMap.get phone (conversationState s) with
  | None => Conversation404
  | Some conversation =>
      ConversationJson conversation
        (Z.of_nat (List.length (Conv.checkpoints conversation)))
  end.

(** One element of [conversations] in [GET /api/status]. *)
Record ConversationSummary := {
  c_phone : string;
  c_name : string;
  c_instance : string;
  c_status : string;
  c_current_checkpoint : option string;
  c_checkpoints_passed : Z;
  c_waiting_response : bool;
  c_created_at : Z;
  c_last_activity : Z }.

(** One element of [instances]: the name, the spread statistics, and the
    [active] flag of the configured instance of that name
    ([INSTANCES.find(...)?.active || false]). *)
Record InstanceReport := {
  i_name : string;
  i_stats : Stats.t;
  i_active : bool }.

Definition instance_active (instances : list Instance) (name : string) : bool :=
  match find (fun i => (AutoLead.name i =? name)%string) instances with
  | Some i => active i
  | None => false
  end.

(** The [stats] object: [dailyStats] spread, then three counters. *)
Record StatsReport := {
  daily : Daily.t;
  total_leads_processed : Z;
  active_conversations : Z;
  active_checkpoints : Z }.

Record StatusReport := {
  stats : StatsReport;
  conversations : list ConversationSummary;
  instances : list InstanceReport;
  recent_checkpoints : list Hist.t }.

(** [GET /api/status]. *)
Definition api_status (s : State) : StatusReport :=
  {| stats :=
       {| daily := dailyStats s;
          total_leads_processed := totalLeadsProcessed s;
          active_conversations := JsMap.size (conversationState s);
          active_checkpoints := JsMap.size (checkpointTimeouts s) |};
     conversations :=
       map (fun entry =>
              let '(phone, conv) := entry in
              {| c_phone := phone;
                 c_name := Conv.name conv;
                 c_instance := Conv.instance conv;
                 c_status := Conv.status conv;
                 c_current_checkpoint := Conv.current_checkpoint conv;
                 c_checkpoints_passed :=
                   Z.of_nat (List.length (Conv.checkpoints conv));
                 c_waiting_response := Conv.waiting_response conv;
                 c_created_at := Conv.created_at conv;
                 c_last_activity := Conv.last_activity conv |})
           (conversationState s);
     instances :=
       map (fun entry =>
              let '(name, st) := entry in
              {| i_name := name;
                 i_stats := st;
                 i_active := instance_active (INSTANCES s) name |})
           (instanceStats s);
     recent_checkpoints := firstn 50 (checkpointHistory s) |}.

End AutoLeadStatus.

(** [systemLogs] and [addLog] of [src/unnamed/part_001].  An entry keeps
    its clock reading, type and message; the random [id], the formatted
    [brazilTime] and the free-form [data] are left out. *)
Module SystemLog.

Record Entry := { timestamp : Z; type : string; message : string }.

(** [systemLogs.unshift(logEntry)], then the cut to the last 1000 logs. *)
Definition addLog (logEntry : Entry) (systemLogs : list Entry) : list Entry :=
  let systemLogs := logEntry :: systemLogs in
  if (1000 <? List.length systemLogs)%nat then firstn 1000 systemLogs
  else systemLogs.

(** The filter of [cleanupOldData] on the log. *)
Definition cleanup (now : Z) (systemLogs : list Entry) : list Entry :=
  filter (fun log => timestamp log >? now - AutoLead.DATA_RETENTION_TIME) systemLogs.

(** [recent_logs] of [GET /api/status]. *)
Definition recent_logs (systemLogs : list Entry) : list Entry :=
  firstn 100 systemLogs.

End SystemLog.


(* ================================================================== *)
(** * Notions used in the statements and proofs *)
(* ================================================================== *)

(** Signs of the IEEE values behind [float]. *)
Module FloatSign.

Definition SFnonneg (x : spec_float) : bool :=
  match x with
  | S754_zero _ => true
  | S754_infinity s => negb s
  | S754_nan => false
  | S754_finite s _ _ => negb s
  end.

Definition SFnot_nan (x : spec_float) : bool :=
  match x with
  | S754_nan => false
  | _ => true
  end.

(** A float literal that is finite and positive. *)
Definition positive_finite (c : float) : Prop :=
  exists m e, Prim2SF c = S754_finite false m e.

Definition finite (c : float) : Prop :=
  exists s m e, Prim2SF c = S754_finite s m e.

End FloatSign.

Module MultiCheckpointSpec.
Import MultiCheckpoint.

(** The ranges [updateInstanceStats] keeps an instance's statistics in. *)
Definition stats_in_range (st : Stats.t) : Prop :=
  PrimFloat.is_nan (Stats.active_conversations st) = false /\
  (0 <=? Stats.response_rate st)%float = true /\
  (0 <=? Stats.health_score st)%float = true.

(** Every instance is unblocked and has its statistics in range. *)
Definition pool_in_range (m : JsMap.t Stats.t) : Prop :=
  forall n st, In (n, st) m -> Stats.blocked st = false /\ stats_in_range st.

(** The entry [(n, st)], at the position that splits [entries] into [pre]
    and [post], is the first of the maximal unblocked entries, and beats
    the score [floor] the loop started from. *)
Definition first_maximum (now : Z) (entries pre : JsMap.t Stats.t)
    (n : string) (st : Stats.t)
    (post : JsMap.t Stats.t) (floor : float) : Prop :=
  entries = (pre ++ (n, st) :: post)%list /\
  Stats.blocked st = false /\
  JS.gt (finalScore now st) floor = true /\
  (forall n' st', In (n', st') pre -> Stats.blocked st' = false ->
                  (finalScore now st <=? finalScore now st')%float = false) /\
  (forall n' st', In (n', st') entries -> Stats.blocked st' = false ->
                  JS.gt (finalScore now st') (finalScore now st) = false).

(** The score in the words of the spec: four factors weighted 0.4, 0.3,
    0.2 and 0.1.  The load factor falls from 100 by 2 for each active
    conversation and is floored at 0; the recency bonus is a flat 10
    when the last activity is less than five minutes old. *)
Definition load_factor (active_conversations : float) : float :=
  let free := (100 - active_conversations * 2)%float in
  if (0 <? free)%float then free else 0%float.

Definition recency_bonus (now last_activity : Z) : float :=
  if now - last_activity <? 5 * 60 * 1000 then 10%float else 0%float.

Definition weighted_score (now : Z) (st : Stats.t) : float :=
  (load_factor (Stats.active_conversations st) * 0.4
   + Stats.response_rate st * 0.3
   + Stats.health_score st * 0.2
   + recency_bonus now (Stats.last_activity st) * 0.1)%float.

(** The names returned by [k] consecutive calls of [getBestInstance];
    a call that throws ends the list with [None]. *)
Fixpoint selections (instances : list Instance) (now : Z) (k : nat) (s : State)
  : list (option string) :=
  match k with
  | O => []
  | S k' =>
      match getBestInstance instances now s with
      | Some (n, s') => Some n :: selections instances now k' s'
      | None => [None]
      end
  end.

(** The list [l] rotated left by [r] places. *)
Definition rotate {A : Type} (r : nat) (l : list A) : list A :=
  (skipn r l ++ firstn r l)%list.

(** What one iteration of the sweeper does to the conversation store. *)
Definition sweep_store (now : Z) (m : JsMap.t Conv.t) (entry : string * Conv.t)
  : JsMap.t Conv.t :=
  let m1 :=
    if checkpoint_expired now (snd entry)
    then JsMap.set (fst entry) (expire (snd entry)) m else m in
  if past_retention now (snd entry) then JsMap.delete (fst entry) m1 else m1.

(** The conversation under a swept key: evicted past the retention time,
    else expired when its deadline has passed, else untouched. *)
Definition swept (now : Z) (state : Conv.t) : option Conv.t :=
  if past_retention now state then None
  else Some (if checkpoint_expired now state then expire state else state).

(** The invariant carried along a run: unique keys, and the waiting flag
    in step with the observed history. *)
Definition run_invariant (history : list Lifecycle.Event) (s : State) : Prop :=
  JsMap.wf (conversationState s) /\
  Lifecycle.waiting_iff_unresolved Conv.waiting_for_response
    Conv.current_checkpoint history (conversationState s).

End MultiCheckpointSpec.

Module AutoLeadSpec.
Import AutoLead.

(** What one iteration of the sweeper does to the conversation store. *)
Definition sweep_store (now : Z) (m : JsMap.t Conv.t) (entry : string * Conv.t)
  : JsMap.t Conv.t :=
  if past_retention now (snd entry) then JsMap.delete (fst entry) m else m.

(** The conversation under a swept key: evicted past the retention time,
    else untouched. *)
Definition swept (now : Z) (conv : Conv.t) : option Conv.t :=
  if past_retention now conv then None else Some conv.

(** The invariant carried along a run: unique keys, and the waiting flag
    in step with the observed history. *)
Definition run_invariant (history : list Lifecycle.Event) (s : State) : Prop :=
  JsMap.wf (conversationState s) /\
  Lifecycle.waiting_iff_unresolved Conv.waiting_response
    Conv.current_checkpoint history (conversationState s).

(** The pending timers whose callback is for [phone]. *)
Definition pending_for (phone : string) (s : State) : list (Z * Timer) :=
  filter (fun e => (timer_phone (snd e) =? phone)%string) (timers s).

(** The timers of [phone] are tracked: timer ids are below [nextTimerId],
    and every pending timer of [phone] is the one that [checkpointTimeouts]
    holds under the key of the conversation's current checkpoint. *)
Definition timers_tracked (phone : string) (s : State) : Prop :=
  (forall timeoutId t, In (timeoutId, t) (timers s) -> timeoutId < nextTimerId s) /\
  forall conv timeoutId t,
    JsMap.get phone (conversationState s) = Some conv ->
    In (timeoutId, t) (timers s) -> timer_phone t = phone ->
    JsMap.get (timeoutKey phone (Conv.current_checkpoint conv))
              (checkpointTimeouts s) = Some timeoutId.

(** A sequence of [activateCheckpoint] calls on one client: checkpoint
    name, timeout and clock reading of each call. *)
Definition activations (phone : string) (calls : list (string * option Z * Z))
    (s : State) : State :=
  fold_left
    (fun s c => snd (activateCheckpoint phone (fst (fst c)) (snd (fst c)) (snd c) s))
    calls s.

End AutoLeadSpec.

(** The conversation written by a successful [processCheckpointResponse]. *)
Definition resolved_conversation (c : AutoLead.Conv.t) (message : string)
    (now : Z) : AutoLead.Conv.t :=
  AutoLead.Conv.mk (AutoLead.Conv.phone c) (AutoLead.Conv.name c)
    (AutoLead.Conv.instance c) (AutoLead.Conv.instance_id c)
    (AutoLead.Conv.source c) (AutoLead.Conv.current_checkpoint c)
    (AutoLead.Conv.checkpoints c ++
     [AutoLead.Checkpoint.mk (AutoLead.Conv.current_checkpoint c) message now
        (match AutoLead.Conv.checkpoint_activated_at c with
         | Some activated => Some (now - activated)
         | None => None
         end)])
    false (AutoLead.Conv.created_at c) now (AutoLead.Conv.status c)
    (AutoLead.Conv.checkpoint_activated_at c).

(** The conversation written by a successful [activateCheckpoint]. *)
Definition activated_conversation (c : AutoLead.Conv.t) (checkpointName : string)
    (now : Z) : AutoLead.Conv.t :=
  AutoLead.Conv.mk (AutoLead.Conv.phone c) (AutoLead.Conv.name c)
    (AutoLead.Conv.instance c) (AutoLead.Conv.instance_id c)
    (AutoLead.Conv.source c) (Some checkpointName)
    (AutoLead.Conv.checkpoints c) true (AutoLead.Conv.created_at c) now
    (AutoLead.Conv.status c) (Some now).

(* ================================================================== *)
(** * Texts by their code points *)
(* ================================================================== *)

(** The UTF-8 encoding of a code point and of a sequence of code points:
    what a text received by the servers is, byte by byte. *)
Module Utf8.

Definition byte (b : N) : ascii := ascii_of_N b.

Definition encode (c : N) : string :=
  (if c <? 128 then String (byte c) EmptyString
   else if c <? 2048 then
     String (byte (192 + c / 64)) (String (byte (128 + c mod 64)) EmptyString)
   else if c <? 65536 then
     String (byte (224 + c / 4096))
       (String (byte (128 + (c / 64) mod 64))
          (String (byte (128 + c mod 64)) EmptyString))
   else
     String (byte (240 + c / 262144))
       (String (byte (128 + (c / 4096) mod 64))
          (String (byte (128 + (c / 64) mod 64))
             (String (byte (128 + c mod 64)) EmptyString))))%N.

Definition encode_all (l : list N) : string :=
  fold_right (fun c s => encode c ++ s) EmptyString l.

End Utf8.

(* ================================================================== *)
(** * Concrete runs used as examples *)
(* ================================================================== *)

Module Examples.

Definition phone : string := "5511999999999".

(** [src/index.js]: the client is registered at t = 1000 and given the
    checkpoint confirm_interest at t = 2000. *)
Definition mc_initial : MultiCheckpoint.State :=
  MultiCheckpoint.initial MultiCheckpoint.INSTANCES 0.

Definition mc_started : MultiCheckpoint.State :=
  snd (MultiCheckpoint.start_conversation MultiCheckpoint.INSTANCES
         {| MultiCheckpoint.sb_client_phone := Some phone;
            MultiCheckpoint.sb_client_name := None |} 1000 mc_initial).

Definition mc_conversation : MultiCheckpoint.Conv.t :=
  MultiCheckpoint.createConversationState phone "Cliente" "G01" 1000.

Definition mc_no_data : MultiCheckpoint.ActivateData :=
  {| MultiCheckpoint.data_message := None;
     MultiCheckpoint.data_step_data := None |}.

Definition mc_activated : MultiCheckpoint.State :=
  snd (MultiCheckpoint.activateCheckpoint phone "confirm_interest" mc_no_data
         2000 mc_started).

(** The two requests that lead to [mc_activated]. *)
Definition mc_activated_trace : list (MultiCheckpoint.Request * Z) :=
  [ (MultiCheckpoint.StartConversation
       {| MultiCheckpoint.sb_client_phone := Some phone;
          MultiCheckpoint.sb_client_name := None |}, 1000);
    (MultiCheckpoint.ActivateCheckpoint
       {| MultiCheckpoint.ab_client_phone := Some phone;
          MultiCheckpoint.ab_checkpoint_id := Some "confirm_interest";
          MultiCheckpoint.ab_message := None;
          MultiCheckpoint.ab_step_data := None |}, 2000) ].

Definition mc_message (jid text : string) : MultiCheckpoint.WebhookBody :=
  {| MultiCheckpoint.data :=
       Some {| MultiCheckpoint.key :=
                 Some {| MultiCheckpoint.remoteJid := jid;
                         MultiCheckpoint.fromMe := false |};
               MultiCheckpoint.message_conversation := Some text |} |}.

(** [src/unnamed/part_001]: the first message of the client creates the
    conversation at t = 1000; confirm_interest is activated at t = 2000
    with a one-minute timeout (timer 0); the answer arrives at t = 5000. *)
Definition al_initial : AutoLead.State :=
  AutoLead.initial AutoLead.INSTANCES_configured 0.

Definition al_message (jid text : string) : AutoLead.WebhookBody :=
  {| AutoLead.data :=
       Some {| AutoLead.key :=
                 Some {| AutoLead.remoteJid := jid; AutoLead.fromMe := false |};
               AutoLead.message_conversation := Some text;
               AutoLead.message_extendedText := None |} |}.

Definition al_started : AutoLead.State :=
  snd (AutoLead.webhook_evolution
         (al_message "5511999999999@s.whatsapp.net" "oi") 1000 al_initial).

Definition al_conversation : AutoLead.Conv.t :=
  AutoLead.Conv.mk phone "Cliente" "G08" "A63C380B277D-4A5E-9ECD-48710291E5A6"
    "whatsapp_direto" None [] false 1000 1000 "active" None.

Definition al_activated : AutoLead.State :=
  snd (AutoLead.activateCheckpoint phone "confirm_interest" (Some 1) 2000
         al_started).

Definition al_resolved : AutoLead.State :=
  snd (AutoLead.processCheckpointResponse phone "yes" 5000 al_activated).

(** The three requests that lead to [al_resolved]. *)
Definition al_activate_body : AutoLead.ActivateBody :=
  {| AutoLead.ab_phone := Some phone;
     AutoLead.ab_checkpoint_name := Some "confirm_interest";
     AutoLead.ab_timeout_minutes := Some 1 |}.

Definition al_resolved_trace : list (AutoLead.Request * Z) :=
  [ (AutoLead.WebhookEvolution (al_message "5511999999999@s.whatsapp.net" "oi"),
     1000);
    (AutoLead.CheckpointActivate al_activate_body, 2000);
    (AutoLead.WebhookEvolution (al_message "5511999999999@s.whatsapp.net" "yes"),
     5000) ].

(** Two clients whose timeout keys collide: phone a_b waiting on c, and
    phone a waiting on b_c, both under the key a_b_c.  The answer of a_b
    cancels the timer stored under that key, which is the timer of a; the
    timer of a_b (timer 0) stays pending and fires a minute after its
    activation. *)
Definition al_colliding_trace : list (AutoLead.Request * Z) :=
  [ (AutoLead.WebhookEvolution (al_message "a_b@s.whatsapp.net" "oi"), 10);
    (AutoLead.WebhookEvolution (al_message "a@s.whatsapp.net" "oi"), 11);
    (AutoLead.CheckpointActivate
       {| AutoLead.ab_phone := Some "a_b";
          AutoLead.ab_checkpoint_name := Some "c";
          AutoLead.ab_timeout_minutes := Some 1 |}, 20);
    (AutoLead.CheckpointActivate
       {| AutoLead.ab_phone := Some "a";
          AutoLead.ab_checkpoint_name := Some "b_c";
          AutoLead.ab_timeout_minutes := None |}, 21);
    (AutoLead.WebhookEvolution (al_message "a_b@s.whatsapp.net" "yes"), 30);
    (AutoLead.TimerFires 0, 60020) ].

(** Colliding keys once more: a_b is activated on c, a on b_c, and a_b
    again on d.  The second activation of a_b finds, under the key a_b_c,
    the timer of a and cancels that one. *)
Definition al_two_timers_trace : list (AutoLead.Request * Z) :=
  [ (AutoLead.WebhookEvolution (al_message "a_b@s.whatsapp.net" "oi"), 10);
    (AutoLead.WebhookEvolution (al_message "a@s.whatsapp.net" "oi"), 11);
    (AutoLead.CheckpointActivate
       {| AutoLead.ab_phone := Some "a_b";
          AutoLead.ab_checkpoint_name := Some "c";
          AutoLead.ab_timeout_minutes := Some 1 |}, 20);
    (AutoLead.CheckpointActivate
       {| AutoLead.ab_phone := Some "a";
          AutoLead.ab_checkpoint_name := Some "b_c";
          AutoLead.ab_timeout_minutes := None |}, 21);
    (AutoLead.CheckpointActivate
       {| AutoLead.ab_phone := Some "a_b";
          AutoLead.ab_checkpoint_name := Some "d";
          AutoLead.ab_timeout_minutes := Some 1 |}, 22) ].




(** [src/unnamed/part_001] configured with two instances, the first then
    blocked through [/api/instance/block]. *)
Definition al_two : list AutoLead.Instance :=
  [ {| AutoLead.name := "G08"; AutoLead.id := "k8"; AutoLead.active := true |};
    {| AutoLead.name := "G09"; AutoLead.id := "k9"; AutoLead.active := true |} ].

Definition al_one_blocked : AutoLead.State :=
  snd (AutoLead.api_instance_block "G08" 10 (AutoLead.initial al_two 0)).



(** [src/index.js]: G01 carries sixty conversations with a perfect
    record, G02 none with a poor one; no recent activity. *)
Definition mc_loaded : MultiCheckpoint.State :=
  MultiCheckpoint.mkState JsMap.empty JsMap.empty []
    [ ("G01", MultiCheckpoint.Stats.mk 60 60 0 100 0 100 false);
      ("G02", MultiCheckpoint.Stats.mk 0 0 0 0 0 30 false) ] 0.



(** Texts of white space only: one NO-BREAK SPACE (the bytes C2 A0), and
    SPACE, NO-BREAK SPACE, IDEOGRAPHIC SPACE, the byte order mark, LINE
    SEPARATOR, TAB and LF in a row. *)
Definition nbsp : string := Utf8.encode 160.

Definition blank_text : string :=
  Utf8.encode_all [32; 160; 12288; 65279; 8232; 9; 10]%N.

End Examples.


(* ================================================================== *)
(** * What one request does to one conversation, one instance *)
(* ================================================================== *)

(** The values an instance's [response_rate] and [health_score] take. *)
Module StatsGrid.

(** [v], [v + d], ..., [v + n * d]. *)
Fixpoint ascending (n : nat) (d v : float) : list float :=
  match n with
  | O => [v]
  | S n' => v :: ascending n' d (v + d)%float
  end.

(** 0, 0.5, 1, ..., 100. *)
Definition halves : list float := ascending 200 0.5 0.

(** 0, 1, 2, ..., 100. *)
Definition units : list float := ascending 100 1 0.

Definition on_grid (grid : list float) (v : float) : bool :=
  existsb (PrimFloat.Leibniz.eqb v) grid.

Definition in_percent_range (v : float) : bool :=
  (0 <=? v)%float && (v <=? 100)%float.

End StatsGrid.

(** The client part of a WhatsApp JID. *)
Module Jid.

Definition whatsapp_suffix : string := "@s.whatsapp.net".

Fixpoint contains (c : ascii) (s : string) : bool :=
  match s with
  | EmptyString => false
  | String a r => Ascii.eqb a c || contains c r
  end.

End Jid.

(** Eviction from a map [m] driven by an entry of another map: the shape
    of the [delete] calls in the two sweepers. *)
Module Sweep.

Definition evict {V W : Type} (p : W -> bool) (m : JsMap.t V) (e : string * W)
  : JsMap.t V :=
  if p (snd e) then JsMap.delete (fst e) m else m.

Definition evicts {W : Type} (p : W -> bool) (k : string) (e : string * W) : bool :=
  (fst e =? k)%string && p (snd e).

End Sweep.

Module MultiCheckpointLife.
Import MultiCheckpoint.

(** The conversation written by a successful [activateCheckpoint]. *)
Definition activated (state : Conv.t) (checkpointId : string)
    (data : ActivateData) (now : Z) : Conv.t :=
  {| Conv.client_phone := Conv.client_phone state;
     Conv.client_name := Conv.client_name state;
     Conv.instance := Conv.instance state;
     Conv.current_checkpoint := Some checkpointId;
     Conv.checkpoint_history := Conv.checkpoint_history state;
     Conv.responses := Conv.responses state;
     Conv.created_at := Conv.created_at state;
     Conv.last_activity := now;
     Conv.expires_at := now + CHECKPOINT_TIMEOUT;
     Conv.status := Conv.status state;
     Conv.total_checkpoints_passed := Conv.total_checkpoints_passed state;
     Conv.waiting_for_response := true;
     Conv.last_system_message :=
       (if JS.truthy_opt (data_message data) then data_message data
        else Conv.last_system_message state);
     Conv.step_data :=
       (if JS.truthy_opt (data_step_data data) then data_step_data data
        else Conv.step_data state) |}.

(** The conversation written by a successful [processClientResponse]. *)
Definition resolved (state : Conv.t) (responseMessage : string) (now : Z)
  : Conv.t :=
  {| Conv.client_phone := Conv.client_phone state;
     Conv.client_name := Conv.client_name state;
     Conv.instance := Conv.instance state;
     Conv.current_checkpoint := None;
     Conv.checkpoint_history :=
       Conv.checkpoint_history state ++
       [ {| Passed.checkpoint_id := Conv.current_checkpoint state;
            Passed.passed_at := now;
            Passed.response_message := responseMessage |} ];
     Conv.responses :=
       Conv.responses state ++
       [ {| Resp.checkpoint_id := Conv.current_checkpoint state;
            Resp.message := responseMessage;
            Resp.timestamp := now;
            Resp.response_time := now - Conv.last_activity state |} ];
     Conv.created_at := Conv.created_at state;
     Conv.last_activity := now;
     Conv.expires_at := Conv.expires_at state;
     Conv.status := Conv.status state;
     Conv.total_checkpoints_passed := Conv.total_checkpoints_passed state + 1;
     Conv.waiting_for_response := false;
     Conv.last_system_message := Conv.last_system_message state;
     Conv.step_data := Conv.step_data state |}.

(** What a request served at [now] can do to the conversation of [phone]:
    the entry of [conversationState] before and after it. *)
Inductive conv_step (instances : list Instance) (phone : string) (now : Z)
  : option Conv.t -> option Conv.t -> Prop :=
| conv_kept o : conv_step instances phone now o o
| conv_created client_name instanceName :
    In instanceName (map name instances) ->
    conv_step instances phone now None
      (Some (createConversationState phone client_name instanceName now))
| conv_activated state checkpointId data :
    checkpointId <> EmptyString ->
    conv_step instances phone now (Some state)
      (Some (activated state checkpointId data now))
| conv_resolved state responseMessage checkpointId :
    Conv.waiting_for_response state = true ->
    Conv.current_checkpoint state = Some checkpointId ->
    checkpointId <> EmptyString ->
    conv_step instances phone now (Some state)
      (Some (resolved state responseMessage now))
| conv_expired state :
    checkpoint_expired now state = true ->
    past_retention now state = false ->
    conv_step instances phone now (Some state) (Some (expire state))
| conv_deleted state :
    past_retention now state = true ->
    conv_step instances phone now (Some state) None.

(** The statistics map holds one entry per configured instance name. *)
Definition pool_configured (instances : list Instance) (s : State) : Prop :=
  JsMap.wf (instanceStats s) /\
  forall n, In n (JsMap.keys (instanceStats s)) <-> In n (map name instances).

(** What holds of the maps in every state a run reaches. *)
Definition well_formed (instances : list Instance) (s : State) : Prop :=
  JsMap.wf (conversationState s) /\ pool_configured instances s.

(** The states a run from start-up reaches. *)
Definition reachable (instances : list Instance) (s : State) : Prop :=
  exists t0 trace, snd (run instances trace [] (initial instances t0)) = s.

(** [P] holds of every conversation of the store, of every instance of
    the pool. *)
Definition store_all (P : string -> Conv.t -> Prop) (s : State) : Prop :=
  forall phone state,
    JsMap.get phone (conversationState s) = Some state -> P phone state.

Definition pool_all (P : Stats.t -> Prop) (m : JsMap.t Stats.t) : Prop :=
  forall n st, In (n, st) m -> P st.

(** The entry [clientInstanceMap] holds for a conversation. *)
Definition recorded (state : Conv.t) : ClientInstance.t :=
  ClientInstance.mk (Conv.instance state) (Conv.created_at state).

(** [clientInstanceMap] holds, for exactly the clients of
    [conversationState], the instance and creation time. *)
Definition maps_agree (s : State) : Prop :=
  forall phone,
    JsMap.get phone (clientInstanceMap s)
    = option_map recorded (JsMap.get phone (conversationState s)).

(** Nothing is left for the sweeper to do at [now]. *)
Definition swept_clean (now : Z) (m : JsMap.t Conv.t) : Prop :=
  forall phone state, In (phone, state) m ->
    checkpoint_expired now state = false /\ past_retention now state = false.

(** The sum of a list of counts. *)
Definition total (counts : list Z) : Z := fold_right Z.add 0 counts.

Definition indicator (b : bool) : Z := if b then 1 else 0.

(** The two local logs of a conversation and its counter tell the same
    story: as many entries as checkpoints passed, the same checkpoint at
    the same place, and no entry without a checkpoint. *)
Definition logs_agree (state : Conv.t) : Prop :=
  Conv.total_checkpoints_passed state
  = Z.of_nat (List.length (Conv.checkpoint_history state)) /\
  map Resp.checkpoint_id (Conv.responses state)
  = map Passed.checkpoint_id (Conv.checkpoint_history state) /\
  Forall (fun p => exists checkpointId,
                     Passed.checkpoint_id p = Some checkpointId /\
                     checkpointId <> EmptyString)
         (Conv.checkpoint_history state).

(** A conversation of [src/index.js] as the engine keeps it: one of two
    statuses; while it waits, a checkpoint and a deadline 24 hours after
    the activation; no checkpoint when it does not wait. *)
Definition conv_shape (state : Conv.t) : Prop :=
  (Conv.status state = "active" \/ Conv.status state = "expired") /\
  (Conv.waiting_for_response state = true ->
   exists checkpointId,
     Conv.current_checkpoint state = Some checkpointId /\
     checkpointId <> EmptyString /\
     Conv.expires_at state = Conv.last_activity state + CHECKPOINT_TIMEOUT) /\
  (Conv.waiting_for_response state = false ->
   Conv.current_checkpoint state = None).

(** An instance's rate is a multiple of one half, its health a whole
    number, both between 0 and 100. *)
Definition stats_on_grid (st : Stats.t) : Prop :=
  StatsGrid.on_grid StatsGrid.halves (Stats.response_rate st) = true /\
  StatsGrid.on_grid StatsGrid.units (Stats.health_score st) = true.

End MultiCheckpointLife.

Module AutoLeadLife.
Import AutoLead.

(** What holds of the conversation store in every state a run reaches. *)
Definition well_formed (s : State) : Prop := JsMap.wf (conversationState s).

(** The instances [getNextInstance] chooses among. *)
Definition available (s : State) : list Instance :=
  filter (is_available (instanceStats s)) (INSTANCES s).

(** The results of [k] consecutive calls of [getNextInstance]. *)
Fixpoint selections (now : Z) (k : nat) (s : State) : list (option Instance) :=
  match k with
  | O => []
  | S k' =>
      let '(instance, s') := getNextInstance now s in
      instance :: selections now k' s'
  end.

(** The statistics written by the lead branch of [getNextInstance]. *)
Definition with_lead (now : Z) (st : Stats.t) : Stats.t :=
  Stats.mk (Stats.total_leads st + 1)%float
           (Stats.active_conversations st + 1)%float
           (Stats.checkpoints_passed st) (Stats.timeouts st)
           now (Stats.health_score st) (Stats.response_rate st)
           (Stats.blocked st).

(** A record of [conversation.checkpoints] names its checkpoint and has
    a response time that is a number. *)
Definition record_complete (r : Checkpoint.t) : Prop :=
  (exists checkpointName,
     Checkpoint.name r = Some checkpointName /\ checkpointName <> EmptyString) /\
  exists response_time, Checkpoint.response_time r = Some response_time.

(** A conversation as the engine keeps it: stored under its own phone, a
    checkpoint and its activation time at hand while it waits, complete
    records, one of two statuses. *)
Definition conv_ok (phone : string) (c : Conv.t) : Prop :=
  Conv.phone c = phone /\
  (Conv.waiting_response c = true ->
   exists checkpointName activated,
     Conv.current_checkpoint c = Some checkpointName /\
     checkpointName <> EmptyString /\
     Conv.checkpoint_activated_at c = Some activated) /\
  Forall record_complete (Conv.checkpoints c) /\
  (Conv.status c = "active" \/ Conv.status c = "timeout").

(** The instance of a conversation is a configured one, with its id. *)
Definition assigned (instances : list Instance) (c : Conv.t) : Prop :=
  exists i, In i instances /\ name i = Conv.instance c /\ id i = Conv.instance_id c.

Definition store_ok (s : State) : Prop :=
  forall phone c, JsMap.get phone (conversationState s) = Some c ->
                  conv_ok phone c /\ assigned (INSTANCES s) c.

(** Rate and health on their grids, the active count not negative. *)
Definition stats_ok (st : Stats.t) : Prop :=
  StatsGrid.on_grid StatsGrid.halves (Stats.response_rate st) = true /\
  StatsGrid.on_grid StatsGrid.units (Stats.health_score st) = true /\
  (0 <=? Stats.active_conversations st)%float = true.

Definition pool_ok (s : State) : Prop :=
  forall n st, In (n, st) (instanceStats s) -> stats_ok st.

(** Every configured instance has its statistics. *)
Definition pool_tracked (s : State) : Prop :=
  forall i, In i (INSTANCES s) -> JsMap.get (name i) (instanceStats s) <> None.

(** No instance of name [n] is offered by [getNextInstance]'s filter. *)
Definition unavailable (n : string) (s : State) : Prop :=
  forall i, In i (INSTANCES s) -> name i = n ->
            is_available (instanceStats s) i = false.

(** Nothing is left for the sweeper to do at [now]. *)
Definition swept_clean (now : Z) (m : JsMap.t Conv.t) : Prop :=
  forall phone conv, In (phone, conv) m -> past_retention now conv = false.

(** The registrations among the observed events. *)
Definition is_created (e : Lifecycle.Event) : bool :=
  match e with
  | Lifecycle.Created _ => true
  | _ => false
  end.

Definition registrations (history : list Lifecycle.Event) : Z :=
  Z.of_nat (List.length (filter is_created history)).

(** From [a] to [b] the statistics were only updated in place: no entry
    was dropped and no blocked flag cleared. *)
Definition stats_grow (a b : JsMap.t Stats.t) : Prop :=
  forall k st, JsMap.get k a = Some st ->
    exists st', JsMap.get k b = Some st' /\
                (Stats.blocked st = true -> Stats.blocked st' = true).

Definition blocked_in (stats : JsMap.t Stats.t) (n : string) : Prop :=
  exists st, JsMap.get n stats = Some st /\ Stats.blocked st = true.

(** The instance named [n] is out of the rotation: its first configured
    occurrence is inactive and its statistics are blocked. *)
Definition retired (n : string) (s : State) : Prop :=
  AutoLeadStatus.instance_active (INSTANCES s) n = false /\
  blocked_in (instanceStats s) n.

End AutoLeadLife.

(** A store follows the observed history: a conversation whose checkpoint
    K the history leaves unresolved (activated, and no response or timeout
    seen since) waits on K, and any other conversation does not wait. *)
Module Tracking.




End Tracking.


(* ================================================================== *)
(** * Facts about [JsMap] *)
(* ================================================================== *)

Module JsMapFacts.
Section WithValue.
Context {V : Type}.
Implicit Types (m : JsMap.t V) (k : string) (v : V).

Lemma get_set_eq k v m : JsMap.get k (JsMap.set k v m) = Some v.
Proof.
  induction m as [|[k' v'] r IH]; simpl.
  - now rewrite String.eqb_refl.
  - destruct (String.eqb k' k) eqn:E; simpl; rewrite E; auto.
Qed.

Lemma get_set_neq k k' v m :
  k <> k' -> JsMap.get k' (JsMap.set k v m) = JsMap.get k' m.
Proof.
  intros Hne. induction m as [|[k0 v0] r IH]; simpl.
  - destruct (String.eqb_spec k k'); congruence.
  - destruct (String.eqb_spec k0 k) as [->|Hk]; simpl.
    + destruct (String.eqb_spec k k'); congruence.
    + destruct (String.eqb_spec k0 k'); auto.
Qed.

Lemma get_delete_eq k m : JsMap.get k (JsMap.delete k m) = None.
Proof.
  unfold JsMap.delete. induction m as [|[k' v'] r IH]; simpl; auto.
  destruct (String.eqb_spec k' k) as [->|Hk]; simpl; auto.
  destruct (String.eqb_spec k' k); congruence.
Qed.

Lemma get_delete_neq k k' m :
  k <> k' -> JsMap.get k' (JsMap.delete k m) = JsMap.get k' m.
Proof.
  intros Hne. unfold JsMap.delete.
  induction m as [|[k0 v0] r IH]; simpl; auto.
  destruct (String.eqb_spec k0 k) as [->|Hk]; simpl.
  - destruct (String.eqb_spec k k'); congruence.
  - destruct (String.eqb_spec k0 k'); auto.
Qed.

Lemma get_In k v m : JsMap.get k m = Some v -> In (k, v) m.
Proof.
  induction m as [|[k' v'] r IH]; simpl; [discriminate|].
  destruct (String.eqb_spec k' k) as [->|Hk].
  - intros [= ->]. now left.
  - intros H. right. auto.
Qed.

Lemma In_get k v m : JsMap.wf m -> In (k, v) m -> JsMap.get k m = Some v.
Proof.
  unfold JsMap.wf, JsMap.keys.
  induction m as [|[k' v'] r IH]; simpl; [tauto|].
  intros Hnd [Heq|Hin].
  - injection Heq as -> ->. now rewrite String.eqb_refl.
  - inversion Hnd as [|? ? Hnot Hnd']; subst.
    destruct (String.eqb_spec k' k) as [->|Hk]; auto.
    exfalso. apply Hnot. change k with (fst (k, v)). now apply in_map.
Qed.

Lemma get_None_keys k m : JsMap.get k m = None <-> ~ In k (JsMap.keys m).
Proof.
  unfold JsMap.keys. induction m as [|[k' v'] r IH]; simpl; [tauto|].
  destruct (String.eqb_spec k' k) as [->|Hk].
  - split; [discriminate|]. intros H. exfalso. apply H. now left.
  - rewrite IH. tauto.
Qed.

Lemma keys_set_present k v m :
  JsMap.get k m <> None -> JsMap.keys (JsMap.set k v m) = JsMap.keys m.
Proof.
  unfold JsMap.keys. induction m as [|[k' v'] r IH]; simpl; [congruence|].
  destruct (String.eqb_spec k' k) as [->|Hk]; simpl; auto.
  intros H. now rewrite IH.
Qed.

Lemma keys_set_absent k v m :
  JsMap.get k m = None -> JsMap.keys (JsMap.set k v m) = (JsMap.keys m ++ [k])%list.
Proof.
  unfold JsMap.keys. induction m as [|[k' v'] r IH]; simpl; auto.
  destruct (String.eqb_spec k' k) as [->|Hk]; simpl; [discriminate|].
  intros H. now rewrite IH.
Qed.

Lemma wf_set k v m : JsMap.wf m -> JsMap.wf (JsMap.set k v m).
Proof.
  unfold JsMap.wf. intros Hwf.
  destruct (JsMap.get k m) eqn:E.
  - rewrite keys_set_present; congruence.
  - rewrite keys_set_absent by assumption.
    apply NoDup_app; auto.
    + repeat constructor. simpl. tauto.
    + intros x Hx [<-|[]]. now apply get_None_keys in E.
Qed.

Lemma wf_delete k m : JsMap.wf m -> JsMap.wf (JsMap.delete k m).
Proof.
  unfold JsMap.wf, JsMap.keys, JsMap.delete.
  induction m as [|[k' v'] r IH]; simpl; auto.
  intros Hnd. inversion Hnd as [|? ? Hnot Hnd']; subst.
  destruct (String.eqb k' k); simpl; auto.
  constructor; auto.
  intros Hin. apply Hnot. apply in_map_iff in Hin as [x [<- Hx]].
  apply filter_In in Hx as [Hx _]. now apply in_map.
Qed.

Lemma wf_empty : JsMap.wf (@JsMap.empty V).
Proof. constructor. Qed.

End WithValue.
End JsMapFacts.


(* ================================================================== *)
(** * Facts about the JavaScript built-ins *)
(* ================================================================== *)

Module JSFacts.

Lemma truthy_nonempty K : K <> EmptyString -> JS.truthy K = true.
Proof.
  unfold JS.truthy. intros H. destruct (String.eqb_spec K EmptyString); simpl; congruence.
Qed.

Lemma firstn_cap {A : Type} (n : nat) (l : list A) :
  (if (n <? List.length l)%nat then firstn n l else l) = firstn n l.
Proof.
  destruct (Nat.ltb_spec n (List.length l)); auto.
  symmetry. now apply firstn_all2.
Qed.

Lemma nth_rem {A : Type} (l : list A) (c : Z) :
  0 <= c -> l <> [] ->
  JS.nth l (Z.rem c (Z.of_nat (List.length l)))
  = nth_error l (Z.to_nat c mod List.length l)%nat.
Proof.
  intros Hc Hl. assert (0 < List.length l)%nat by (destruct l; cbn; [congruence|lia]).
  unfold JS.nth. rewrite Z.rem_mod_nonneg by lia.
  destruct (Z.ltb_spec (c mod Z.of_nat (List.length l)) 0) as [Hneg|_].
  - pose proof (Z.mod_pos_bound c (Z.of_nat (List.length l))). lia.
  - f_equal. rewrite <- (Z2Nat.id c) at 1 by lia.
    rewrite <- Nat2Z.inj_mod. apply Nat2Z.id.
Qed.

Ltac div_lia := zify; Z.to_euclidean_division_equations; lia.

Lemma byte_value b : (b < 256)%N -> N_of_ascii (Utf8.byte b) = b.
Proof. apply N_ascii_embedding. Qed.

(** [all_white_space] reads UTF-8 as it is written: in front of any text,
    the encoding of a code point counts as white space exactly when the
    code point is white space. *)
Lemma all_white_space_encode c s :
  (c < 1114112)%N ->
  JS.all_white_space (Utf8.encode c ++ s)
  = JS.is_white_space c && JS.all_white_space s.
Proof.
  intros Hc. unfold Utf8.encode.
  destruct (N.ltb_spec c 128) as [H1|H1].
  { cbn [append JS.all_white_space]. rewrite byte_value by lia.
    destruct (N.ltb_spec c 128); [reflexivity|lia]. }
  destruct (N.ltb_spec c 2048) as [H2|H2].
  { cbn [append JS.all_white_space].
    rewrite !byte_value by div_lia.
    destruct (N.ltb_spec (192 + c / 64) 128); [div_lia|].
    destruct (N.ltb_spec (192 + c / 64) 224); [|div_lia].
    replace (JS.code_point2 (192 + c / 64) (128 + c mod 64)) with c
      by (unfold JS.code_point2; div_lia).
    unfold JS.continuation.
    destruct (N.leb_spec 192 (192 + c / 64)); [|div_lia].
    destruct (N.leb_spec 128 (128 + c mod 64)); [|div_lia].
    destruct (N.ltb_spec (128 + c mod 64) 192); [|div_lia].
    destruct (N.leb_spec 128 c); [|div_lia].
    reflexivity. }
  destruct (N.ltb_spec c 65536) as [H3|H3].
  { cbn [append JS.all_white_space].
    rewrite !byte_value by div_lia.
    destruct (N.ltb_spec (224 + c / 4096) 128); [div_lia|].
    destruct (N.ltb_spec (224 + c / 4096) 224); [div_lia|].
    destruct (N.ltb_spec (224 + c / 4096) 240); [|div_lia].
    replace (JS.code_point3 (224 + c / 4096) (128 + (c / 64) mod 64) (128 + c mod 64))
      with c by (unfold JS.code_point3; div_lia).
    unfold JS.continuation.
    destruct (N.leb_spec 128 (128 + (c / 64) mod 64)); [|div_lia].
    destruct (N.ltb_spec (128 + (c / 64) mod 64) 192); [|div_lia].
    destruct (N.leb_spec 128 (128 + c mod 64)); [|div_lia].
    destruct (N.ltb_spec (128 + c mod 64) 192); [|div_lia].
    destruct (N.leb_spec 2048 c); [|div_lia].
    reflexivity. }
  cbn [append JS.all_white_space].
  rewrite !byte_value by div_lia.
  destruct (N.ltb_spec (240 + c / 262144) 128); [div_lia|].
  destruct (N.ltb_spec (240 + c / 262144) 224); [div_lia|].
  destruct (N.ltb_spec (240 + c / 262144) 240); [div_lia|].
  cbn [andb]. symmetry. apply andb_false_iff. left. unfold JS.is_white_space.
  repeat match goal with
         | |- context [(?a <=? ?b)%N] => destruct (N.leb_spec a b); try lia
         | |- context [(?a =? ?b)%N] => destruct (N.eqb_spec a b); try lia
         end; reflexivity.
Qed.

(** [trim] on a text given by its code points: the text is blank exactly
    when every code point is white space. *)
Lemma trim_truthy_encode_all l :
  Forall (fun c => (c < 1114112)%N) l ->
  JS.trim_truthy (Utf8.encode_all l)
  = existsb (fun c => negb (JS.is_white_space c)) l.
Proof.
  unfold JS.trim_truthy. induction 1 as [|c l Hc Hl IH]; [reflexivity|].
  cbn [Utf8.encode_all fold_right existsb].
  change (fold_right (fun c s => Utf8.encode c ++ s) EmptyString l)
    with (Utf8.encode_all l).
  rewrite all_white_space_encode by assumption.
  rewrite negb_andb. f_equal. exact IH.
Qed.

(** [trim] knows the white space beyond ASCII: a text of such code
    points only is blank, and the no-break space before a text does not
    make it less blank. *)
Lemma trim_truthy_blank_text :
  JS.trim_truthy Examples.nbsp = false /\
  JS.trim_truthy Examples.blank_text = false /\
  JS.trim_truthy (Examples.blank_text ++ "ok") = true.
Proof. repeat split; vm_compute; reflexivity. Qed.

Lemma trim_truthy_nbsp s :
  JS.trim_truthy (Examples.nbsp ++ s) = JS.trim_truthy s.
Proof. reflexivity. Qed.

Lemma trim_truthy_space s :
  JS.trim_truthy (String " " s) = JS.trim_truthy s.
Proof. reflexivity. Qed.

End JSFacts.


(* ================================================================== *)
(** * Facts about IEEE comparison and signs *)
(* ================================================================== *)

Module FloatFacts.
Import FloatSign.

Ltac sf_cases :=
  repeat match goal with
         | s : bool |- _ => destruct s
         end;
  cbn [SFltb SFleb SFcompare] in *;
  try discriminate; try reflexivity.

Ltac cmp_cases :=
  repeat match goal with
         | H : context [Z.compare ?a ?b] |- _ =>
             destruct (Z.compare_spec a b); cbn in H; try discriminate
         | |- context [Z.compare ?a ?b] =>
             destruct (Z.compare_spec a b); cbn; try lia
         | H : context [Pos.compare_cont Eq ?a ?b] |- _ =>
             change (Pos.compare_cont Eq a b) with (Pos.compare a b) in H;
             destruct (Pos.compare_spec a b); cbn in H; try discriminate
         | |- context [Pos.compare_cont Eq ?a ?b] =>
             change (Pos.compare_cont Eq a b) with (Pos.compare a b);
             destruct (Pos.compare_spec a b); cbn; try lia
         end;
  subst; try lia; try reflexivity; try discriminate.

Lemma SFltb_trans x y z :
  SFltb x y = true -> SFltb y z = true -> SFltb x z = true.
Proof.
  destruct x as [sx|sx| |sx mx ex], y as [sy|sy| |sy my ey],
           z as [sz|sz| |sz mz ez]; sf_cases; intros H1 H2; cmp_cases.
Qed.

Lemma SFltb_leb_trans x y z :
  SFltb x y = true -> SFleb y z = true -> SFltb x z = true.
Proof.
  destruct x as [sx|sx| |sx mx ex], y as [sy|sy| |sy my ey],
           z as [sz|sz| |sz mz ez]; sf_cases; intros H1 H2; cmp_cases.
Qed.

Lemma SFltb_irrefl x : SFltb x x = false.
Proof.
  destruct x as [sx|sx| |sx mx ex]; sf_cases; cmp_cases.
Qed.

Lemma ltb_trans (a b c : float) :
  (a <? b)%float = true -> (b <? c)%float = true -> (a <? c)%float = true.
Proof. rewrite !ltb_spec. apply SFltb_trans. Qed.

Lemma ltb_leb_trans (a b c : float) :
  (a <? b)%float = true -> (b <=? c)%float = true -> (a <? c)%float = true.
Proof. rewrite !ltb_spec, leb_spec. apply SFltb_leb_trans. Qed.

Lemma ltb_irrefl (a : float) : (a <? a)%float = false.
Proof. rewrite ltb_spec. apply SFltb_irrefl. Qed.


(** ** Signs: what stays at or above zero *)

Lemma shr_1_nonneg mrs : 0 <= shr_m mrs -> 0 <= shr_m (shr_1 mrs).
Proof.
  destruct mrs as [m r s]. cbn [shr_m].
  destruct m as [|p|p]; [cbn; lia| |lia].
  destruct p; cbn; lia.
Qed.

Lemma iter_shr_1_nonneg p : forall mrs,
  0 <= shr_m mrs -> 0 <= shr_m (iter_pos shr_1 p mrs).
Proof.
  induction p as [p IH|p IH|]; intros mrs H; cbn [iter_pos].
  - apply IH, IH, shr_1_nonneg, H.
  - apply IH, IH, H.
  - apply shr_1_nonneg, H.
Qed.

Lemma shr_record_of_loc_m m l : shr_m (shr_record_of_loc m l) = m.
Proof. destruct l as [|[]]; reflexivity. Qed.

Lemma shr_fexp_nonneg prec emax m e l :
  0 <= m -> 0 <= shr_m (fst (shr_fexp prec emax m e l)).
Proof.
  intros H. unfold shr_fexp, shr.
  destruct (Z.sub _ e) as [|p|p]; cbn [fst].
  - now rewrite shr_record_of_loc_m.
  - apply iter_shr_1_nonneg. now rewrite shr_record_of_loc_m.
  - now rewrite shr_record_of_loc_m.
Qed.

Lemma round_nearest_even_nonneg m l : 0 <= m -> 0 <= round_nearest_even m l.
Proof.
  intros H. unfold round_nearest_even.
  destruct l as [|[]]; try lia. destruct (Z.even m); lia.
Qed.

(** Rounding a non-negative mantissa never yields NaN and keeps the sign. *)
Lemma binary_round_aux_sign prec emax sx mx ex lx :
  0 <= mx ->
  SFnot_nan (binary_round_aux prec emax sx mx ex lx) = true /\
  (sx = false -> SFnonneg (binary_round_aux prec emax sx mx ex lx) = true).
Proof.
  intros H. unfold binary_round_aux.
  pose proof (shr_fexp_nonneg prec emax mx ex lx H) as H1.
  destruct (shr_fexp prec emax mx ex lx) as [mrs' e']. cbn [fst] in H1.
  pose proof (shr_fexp_nonneg prec emax _ e' loc_Exact
                (round_nearest_even_nonneg _ (loc_of_shr_record mrs') H1)) as H2.
  destruct (shr_fexp prec emax _ e' loc_Exact) as [mrs'' e'']. cbn [fst] in H2.
  destruct (shr_m mrs'') as [|m|m]; [| |lia].
  - split; [reflexivity|]. now intros ->.
  - destruct (Z.leb e'' _); (split; [reflexivity|]); now intros ->.
Qed.

Lemma binary_round_sign prec emax sx mx ex :
  SFnot_nan (binary_round prec emax sx mx ex) = true /\
  (sx = false -> SFnonneg (binary_round prec emax sx mx ex) = true).
Proof.
  unfold binary_round. destruct (shl_align _ _ _) as [mz ez].
  apply binary_round_aux_sign. lia.
Qed.

Lemma binary_normalize_not_nan prec emax m e sz :
  SFnot_nan (binary_normalize prec emax m e sz) = true.
Proof.
  unfold binary_normalize. destruct m; [reflexivity| |]; apply binary_round_sign.
Qed.

Lemma SFmul_nonneg prec emax x my ey :
  SFnonneg x = true ->
  SFnonneg (SFmul prec emax x (S754_finite false my ey)) = true.
Proof.
  destruct x as [s|s| |s mx ex]; cbn [SFmul SFnonneg]; try discriminate.
  - reflexivity.
  - now rewrite xorb_false_r.
  - intros Hs. apply binary_round_aux_sign; [lia|].
    destruct s; [discriminate|reflexivity].
Qed.

Lemma SFmul_not_nan prec emax x sy my ey :
  SFnot_nan x = true ->
  SFnot_nan (SFmul prec emax x (S754_finite sy my ey)) = true.
Proof.
  destruct x as [s|s| |s mx ex]; cbn [SFmul SFnot_nan]; try discriminate; auto.
  intros _. apply binary_round_aux_sign. lia.
Qed.

Lemma SFadd_nonneg prec emax x y :
  SFnonneg x = true -> SFnonneg y = true ->
  SFnonneg (SFadd prec emax x y) = true.
Proof.
  destruct x as [sx|sx| |sx mx ex], y as [sy|sy| |sy my ey];
    cbn [SFadd SFnonneg]; try discriminate; auto.
  - destruct sx, sy; reflexivity.
  - destruct sx, sy; cbn; auto; discriminate.
  - intros Hx Hy. destruct sx, sy; try discriminate.
    cbn [cond_Zopp]. unfold binary_normalize.
    destruct (shl_align mx ex _) as [a ?], (shl_align my ey _) as [b ?].
    cbn [fst Z.add]. now apply binary_round_sign.
Qed.

Lemma SFadd_not_nan_finite prec emax x sy my ey :
  SFnot_nan x = true ->
  SFnot_nan (SFadd prec emax x (S754_finite sy my ey)) = true.
Proof.
  destruct x as [sx|sx| |sx mx ex]; cbn [SFadd SFnot_nan]; try discriminate; auto.
  intros _. apply binary_normalize_not_nan.
Qed.

Lemma SFsub_not_nan_finite_l prec emax sx mx ex y :
  SFnot_nan y = true ->
  SFnot_nan (SFsub prec emax (S754_finite sx mx ex) y) = true.
Proof.
  destruct y as [sy|sy| |sy my ey]; cbn [SFsub SFnot_nan]; try discriminate; auto.
  intros _. apply binary_normalize_not_nan.
Qed.

Lemma SFsub_not_nan_finite_r prec emax x sy my ey :
  SFnot_nan x = true ->
  SFnot_nan (SFsub prec emax x (S754_finite sy my ey)) = true.
Proof.
  destruct x as [sx|sx| |sx mx ex]; cbn [SFsub SFnot_nan]; try discriminate; auto.
  intros _. apply binary_normalize_not_nan.
Qed.

Lemma SFnonneg_not_nan x : SFnonneg x = true -> SFnot_nan x = true.
Proof. destruct x; cbn; auto. Qed.


(** ** The same facts on primitive floats *)

Lemma SFeqb_refl x : SFeqb x x = SFnot_nan x.
Proof.
  destruct x as [s|s| |s m e]; cbn; try reflexivity.
  - now destruct s.
  - unfold SFeqb. cbn. rewrite Z.compare_refl.
    change (Pos.compare_cont Eq m m) with (Pos.compare m m).
    rewrite Pos.compare_refl. now destruct s.
Qed.

Lemma is_nan_spec (x : float) : PrimFloat.is_nan x = negb (SFnot_nan (Prim2SF x)).
Proof. unfold PrimFloat.is_nan. now rewrite eqb_spec, SFeqb_refl. Qed.

Lemma leb_0_spec (x : float) : (0 <=? x)%float = SFnonneg (Prim2SF x).
Proof.
  rewrite leb_spec. change (Prim2SF 0) with (S754_zero false).
  destruct (Prim2SF x) as [s|s| |s m e]; cbn; try reflexivity; now destruct s.
Qed.

Lemma nonneg_above_minus_one (x : float) :
  (0 <=? x)%float = true -> (-1 <? x)%float = true.
Proof.
  rewrite leb_0_spec, ltb_spec.
  change (Prim2SF (-1)) with (S754_finite true 4503599627370496 (-52)).
  destruct (Prim2SF x) as [s|s| |s m e]; cbn; try discriminate; auto;
    destruct s; cbn; auto; discriminate.
Qed.

Lemma nonneg_not_nan (x : float) :
  (0 <=? x)%float = true -> PrimFloat.is_nan x = false.
Proof.
  rewrite leb_0_spec, is_nan_spec. intros H.
  now rewrite (SFnonneg_not_nan _ H).
Qed.

Lemma mul_nonneg (x c : float) :
  positive_finite c -> (0 <=? x)%float = true -> (0 <=? x * c)%float = true.
Proof.
  intros (m & e & Hc). rewrite !leb_0_spec, mul_spec, Hc.
  apply SFmul_nonneg.
Qed.

Lemma add_nonneg (x y : float) :
  (0 <=? x)%float = true -> (0 <=? y)%float = true ->
  (0 <=? x + y)%float = true.
Proof. rewrite !leb_0_spec, add_spec. apply SFadd_nonneg. Qed.

Lemma mul_not_nan (x c : float) :
  finite c -> PrimFloat.is_nan x = false -> PrimFloat.is_nan (x * c) = false.
Proof.
  intros (s & m & e & Hc). rewrite !is_nan_spec, mul_spec, Hc.
  intros H. apply negb_false_iff in H. apply negb_false_iff.
  now apply SFmul_not_nan.
Qed.

Lemma add_not_nan (x c : float) :
  finite c -> PrimFloat.is_nan x = false -> PrimFloat.is_nan (x + c) = false.
Proof.
  intros (s & m & e & Hc). rewrite !is_nan_spec, add_spec, Hc.
  intros H. apply negb_false_iff in H. apply negb_false_iff.
  now apply SFadd_not_nan_finite.
Qed.

Lemma sub_not_nan_l (c y : float) :
  finite c -> PrimFloat.is_nan y = false -> PrimFloat.is_nan (c - y) = false.
Proof.
  intros (s & m & e & Hc). rewrite !is_nan_spec, sub_spec, Hc.
  intros H. apply negb_false_iff in H. apply negb_false_iff.
  now apply SFsub_not_nan_finite_l.
Qed.

Lemma sub_not_nan_r (x c : float) :
  finite c -> PrimFloat.is_nan x = false -> PrimFloat.is_nan (x - c) = false.
Proof.
  intros (s & m & e & Hc). rewrite !is_nan_spec, sub_spec, Hc.
  intros H. apply negb_false_iff in H. apply negb_false_iff.
  now apply SFsub_not_nan_finite_r.
Qed.

Ltac finite_literal :=
  match goal with
  | |- positive_finite _ => do 2 eexists; vm_compute; reflexivity
  | |- finite _ => do 3 eexists; vm_compute; reflexivity
  end.

Lemma Math_max_0_nonneg (v : float) :
  PrimFloat.is_nan v = false -> (0 <=? JS.Math_max 0 v)%float = true.
Proof.
  intros Hv. unfold JS.Math_max.
  change (PrimFloat.is_nan 0) with false. rewrite Hv. cbn [orb].
  destruct (0 <? v)%float eqn:E1.
  - rewrite leb_0_spec. rewrite ltb_spec in E1.
    change (Prim2SF 0) with (S754_zero false) in E1.
    destruct (Prim2SF v) as [s|s| |s m e]; cbn in *; try discriminate; auto;
      destruct s; cbn in *; auto; discriminate.
  - destruct (v <? 0)%float eqn:E2; [reflexivity|].
    change (PrimFloat.is_zero 0) with true. cbv iota.
    rewrite leb_0_spec, add_spec. rewrite ltb_spec in E1, E2.
    rewrite is_nan_spec in Hv. apply negb_false_iff in Hv.
    change (Prim2SF 0) with (S754_zero false) in *.
    destruct (Prim2SF v) as [s|s| |s m e]; cbn in *; try discriminate;
      destruct s; cbn in *; auto; discriminate.
Qed.

(** [Math.max(0, v)] is the floor at 0: [v] when it is positive, else 0. *)
Lemma Math_max_0_floor (v : float) :
  PrimFloat.is_nan v = false ->
  JS.Math_max 0 v = if (0 <? v)%float then v else 0%float.
Proof.
  intros Hv. unfold JS.Math_max.
  change (PrimFloat.is_nan 0) with false. rewrite Hv. cbn [orb].
  destruct (0 <? v)%float eqn:E1; [reflexivity|].
  destruct (v <? 0)%float eqn:E2; [reflexivity|].
  change (PrimFloat.is_zero 0) with true. cbv iota.
  rewrite ltb_spec in E1, E2.
  rewrite is_nan_spec in Hv. apply negb_false_iff in Hv.
  change (Prim2SF 0) with (S754_zero false) in *.
  rewrite <- (SF2Prim_Prim2SF v).
  destruct (Prim2SF v) as [s|s| |s m e]; cbn in *; try discriminate;
    destruct s; cbn in *; try discriminate; vm_compute; reflexivity.
Qed.

Lemma ltb_0_leb (v : float) :
  (0 <? v)%float = true -> (0 <=? v)%float = true.
Proof.
  rewrite ltb_spec, leb_0_spec. change (Prim2SF 0) with (S754_zero false).
  destruct (Prim2SF v) as [s|s| |s m e]; cbn; try discriminate; auto;
    destruct s; cbn; auto.
Qed.

Lemma Math_min_100_nonneg (y : float) :
  (0 <=? y)%float = true -> (0 <=? JS.Math_min 100 y)%float = true.
Proof.
  intros Hy. unfold JS.Math_min.
  change (PrimFloat.is_nan 100) with false.
  rewrite (nonneg_not_nan y Hy). cbn [orb].
  destruct (100 <? y)%float; [reflexivity|].
  destruct (y <? 100)%float; [assumption|].
  change (PrimFloat.is_zero 100) with false. reflexivity.
Qed.

End FloatFacts.


(* ================================================================== *)
(** * Facts about the life cycle *)
(* ================================================================== *)

Module LifecycleFacts.
Import Lifecycle.

Lemma unresolved_app history seen phone :
  unresolved (history ++ seen) phone =
  fold_left
    (fun pending e => if (subject e =? phone)%string then after e pending else pending)
    seen (unresolved history phone).
Proof. unfold unresolved. apply fold_left_app. Qed.

Lemma unresolved_nil history phone :
  unresolved (history ++ []) phone = unresolved history phone.
Proof. now rewrite app_nil_r. Qed.

Lemma unresolved_snoc_same history e :
  unresolved (history ++ [e]) (subject e) = after e (unresolved history (subject e)).
Proof. rewrite unresolved_app. cbn. now rewrite String.eqb_refl. Qed.

Lemma unresolved_snoc_other history e phone :
  subject e <> phone ->
  unresolved (history ++ [e]) phone = unresolved history phone.
Proof.
  intros H. rewrite unresolved_app. cbn.
  destruct (String.eqb_spec (subject e) phone); congruence.
Qed.

Lemma fold_timed_out phones phone : forall pending,
  fold_left
    (fun pending e => if (subject e =? phone)%string then after e pending else pending)
    (map TimedOut phones) pending =
  if existsb (fun p => (p =? phone)%string) phones then None else pending.
Proof.
  induction phones as [|p r IH]; intros o; cbn; auto.
  rewrite IH. destruct (p =? phone)%string; cbn; auto.
  now destruct (existsb _ r).
Qed.

Lemma unresolved_timed_out_other history phones phone :
  ~ In phone phones ->
  unresolved (history ++ map TimedOut phones) phone = unresolved history phone.
Proof.
  intros Hn. rewrite unresolved_app, fold_timed_out.
  destruct (existsb _ phones) eqn:E; auto.
  apply existsb_exists in E as (p & Hin & Hp).
  apply String.eqb_eq in Hp. congruence.
Qed.

Lemma unresolved_timed_out_same history phones phone :
  In phone phones ->
  unresolved (history ++ map TimedOut phones) phone = None.
Proof.
  intros Hin. rewrite unresolved_app, fold_timed_out.
  destruct (existsb _ phones) eqn:E; auto.
  assert (existsb (fun p => (p =? phone)%string) phones = true) as E'
      by (apply existsb_exists; exists phone; split; auto; apply String.eqb_refl).
  congruence.
Qed.

Section Store.
Context {C : Type} (waiting : C -> bool) (current : C -> option string).

Lemma keep history m :
  waiting_iff_unresolved waiting current history m ->
  waiting_iff_unresolved waiting current (history ++ []) m.
Proof. now rewrite app_nil_r. Qed.

(** One conversation is written and one event about it is seen. *)
Lemma write history m e c :
  waiting_iff_unresolved waiting current history m ->
  (waiting c = true <->
   exists checkpoint,
     current c = Some checkpoint /\
     after e (unresolved history (subject e)) = Some checkpoint) ->
  waiting_iff_unresolved waiting current (history ++ [e])
                         (JsMap.set (subject e) c m).
Proof.
  intros Hinv Hc phone c' Hget.
  destruct (String.eqb_spec (subject e) phone) as [<-|Hne].
  - rewrite JsMapFacts.get_set_eq in Hget. injection Hget as <-.
    now rewrite unresolved_snoc_same.
  - rewrite JsMapFacts.get_set_neq in Hget by assumption.
    rewrite unresolved_snoc_other by assumption. now apply Hinv.
Qed.

(** Conversations are only removed, and nothing is seen. *)
Lemma shrink history m m' :
  waiting_iff_unresolved waiting current history m ->
  (forall phone c, JsMap.get phone m' = Some c -> JsMap.get phone m = Some c) ->
  waiting_iff_unresolved waiting current (history ++ []) m'.
Proof.
  intros Hinv Hsub phone c Hget. rewrite app_nil_r. apply Hinv. now apply Hsub.
Qed.

End Store.

End LifecycleFacts.


(* ================================================================== *)
(** * Facts about the multi-checkpoint server *)
(* ================================================================== *)

Module MultiCheckpointFacts.
Import MultiCheckpoint MultiCheckpointSpec FloatFacts.

Lemma mc_getBestInstance_frame instances now s n s1 :
  getBestInstance instances now s = Some (n, s1) ->
  conversationState s1 = conversationState s /\
  clientInstanceMap s1 = clientInstanceMap s /\
  checkpointHistory s1 = checkpointHistory s /\
  instanceStats s1 = instanceStats s.
Proof.
  unfold getBestInstance.
  destruct (JS.truthy_opt _).
  - intros [= _ <-]. auto.
  - destruct (JS.nth _ _); [|discriminate]. intros [= _ <-]. cbn. auto.
Qed.

Lemma mc_cleanup_entry_store now s entry :
  conversationState (cleanup_entry now s entry) =
  sweep_store now (conversationState s) entry.
Proof.
  destruct entry as [phone state]. unfold cleanup_entry, sweep_store. cbn [fst snd].
  destruct (checkpoint_expired now state), (past_retention now state); reflexivity.
Qed.

Lemma mc_fold_cleanup_entry_store now l : forall s,
  conversationState (fold_left (cleanup_entry now) l s) =
  fold_left (sweep_store now) l (conversationState s).
Proof.
  induction l as [|e r IH]; intros s; cbn; auto.
  now rewrite IH, mc_cleanup_entry_store.
Qed.

Lemma mc_sweep_store_other now m entry k :
  fst entry <> k -> JsMap.get k (sweep_store now m entry) = JsMap.get k m.
Proof.
  intros Hne. unfold sweep_store.
  destruct (past_retention now (snd entry)), (checkpoint_expired now (snd entry));
    rewrite ?JsMapFacts.get_delete_neq, ?JsMapFacts.get_set_neq by assumption;
    reflexivity.
Qed.

Lemma mc_sweep_store_wf now m entry :
  JsMap.wf m -> JsMap.wf (sweep_store now m entry).
Proof.
  intros H. unfold sweep_store.
  destruct (past_retention now (snd entry)), (checkpoint_expired now (snd entry));
    auto using JsMapFacts.wf_delete, JsMapFacts.wf_set.
Qed.

Lemma mc_fold_sweep_store_wf now l : forall m,
  JsMap.wf m -> JsMap.wf (fold_left (sweep_store now) l m).
Proof.
  induction l as [|e r IH]; intros m H; cbn; auto using mc_sweep_store_wf.
Qed.

Lemma mc_fold_sweep_store_other now l k : forall m,
  ~ In k (map fst l) ->
  JsMap.get k (fold_left (sweep_store now) l m) = JsMap.get k m.
Proof.
  induction l as [|e r IH]; intros m Hn; cbn; auto.
  rewrite IH by (intros H; apply Hn; now right).
  apply mc_sweep_store_other. intros H. apply Hn. now left.
Qed.

Lemma mc_fold_sweep_store_entry now l k state : forall m,
  NoDup (map fst l) -> In (k, state) l -> JsMap.get k m = Some state ->
  JsMap.get k (fold_left (sweep_store now) l m) = swept now state.
Proof.
  induction l as [|[p st] r IH]; intros m Hnd Hin Hget; [destruct Hin|].
  inversion Hnd as [|? ? Hnot Hnd']; subst. cbn [fold_left].
  destruct Hin as [[= -> ->]|Hin].
  - rewrite mc_fold_sweep_store_other by assumption.
    unfold sweep_store, swept. cbn [fst snd].
    destruct (past_retention now state).
    + apply JsMapFacts.get_delete_eq.
    + destruct (checkpoint_expired now state); auto.
      apply JsMapFacts.get_set_eq.
  - apply IH; auto.
    rewrite mc_sweep_store_other; auto. cbn [fst map] in *.
    intros ->. apply Hnot. change k with (fst (k, state)). now apply in_map.
Qed.

Lemma mc_cleanup_store now s phone :
  JsMap.wf (conversationState s) ->
  JsMap.get phone (conversationState (cleanupExpiredCheckpoints now s)) =
  match JsMap.get phone (conversationState s) with
  | Some state => swept now state
  | None => None
  end.
Proof.
  intros Hwf. unfold cleanupExpiredCheckpoints. cbn [conversationState].
  rewrite mc_fold_cleanup_entry_store.
  destruct (JsMap.get phone (conversationState s)) as [state|] eqn:E.
  - apply mc_fold_sweep_store_entry; auto. now apply JsMapFacts.get_In.
  - rewrite mc_fold_sweep_store_other; auto. now apply JsMapFacts.get_None_keys.
Qed.

Lemma mc_cleanup_wf now s :
  JsMap.wf (conversationState s) ->
  JsMap.wf (conversationState (cleanupExpiredCheckpoints now s)).
Proof.
  intros Hwf. unfold cleanupExpiredCheckpoints. cbn [conversationState].
  rewrite mc_fold_cleanup_entry_store. now apply mc_fold_sweep_store_wf.
Qed.

Lemma mc_expired_phones_spec now s phone state :
  JsMap.wf (conversationState s) ->
  JsMap.get phone (conversationState s) = Some state ->
  (In phone (expired_phones now s) <-> checkpoint_expired now state = true).
Proof.
  intros Hwf Hget. unfold expired_phones. rewrite in_map_iff. split.
  - intros ([p st] & Hp & Hin). cbn in Hp. subst p.
    apply filter_In in Hin as [Hin Hex]. cbn in Hex.
    apply (JsMapFacts.In_get _ _ _ Hwf) in Hin. congruence.
  - intros Hex. exists (phone, state). split; auto.
    apply filter_In. split; auto. now apply JsMapFacts.get_In.
Qed.


Lemma mc_run_invariant_keep history s s' :
  conversationState s' = conversationState s ->
  run_invariant history s -> run_invariant (history ++ []) s'.
Proof.
  intros E [Hwf Hinv]. unfold run_invariant. rewrite E, app_nil_r. auto.
Qed.

Ltac keep s :=
  cbn; apply (mc_run_invariant_keep _ s); [reflexivity|assumption].

Lemma mc_never_some (o : option string) :
  false = true <-> exists checkpoint : string, o = Some checkpoint /\ None = Some checkpoint.
Proof. split; [discriminate|]. intros (? & _ & ?). discriminate. Qed.

Lemma mc_start_conversation_invariant instances body now history s :
  run_invariant history s ->
  run_invariant (history ++ fst (step instances (StartConversation body) now s))
                (snd (step instances (StartConversation body) now s)).
Proof.
  intros Hinv. cbn [step]. unfold start_conversation.
  destruct (negb _); [keep s|].
  destruct (JsMap.get _ (conversationState s)); [keep s|].
  destruct (getBestInstance instances now s) as [[n s1]|] eqn:E;
    [|keep s].
  apply mc_getBestInstance_frame in E as (E & _). cbn [fst snd].
  destruct Hinv as [Hwf Hinv]. split; cbn [conversationState]; rewrite E.
  - now apply JsMapFacts.wf_set.
  - apply (LifecycleFacts.write _ _ _ _ (Lifecycle.Created _)); auto.
    cbn. apply mc_never_some.
Qed.

Lemma mc_activate_checkpoint_invariant instances body now history s :
  run_invariant history s ->
  run_invariant (history ++ fst (step instances (ActivateCheckpoint body) now s))
                (snd (step instances (ActivateCheckpoint body) now s)).
Proof.
  intros Hinv. cbn [step]. unfold activate_checkpoint.
  destruct (_ || _); [keep s|].
  unfold activateCheckpoint.
  destruct (JsMap.get _ (conversationState s)); [|keep s].
  cbn [fst snd]. destruct Hinv as [Hwf Hinv]. split; cbn [conversationState].
  - now apply JsMapFacts.wf_set.
  - apply (LifecycleFacts.write _ _ _ _ (Lifecycle.CheckpointActivated _ _)); auto.
    cbn. split; [eauto|reflexivity].
Qed.

Lemma mc_webhook_evolution_invariant instances body now history s :
  run_invariant history s ->
  run_invariant (history ++ fst (step instances (WebhookEvolution body) now s))
                (snd (step instances (WebhookEvolution body) now s)).
Proof.
  intros Hinv. cbn [step]. unfold webhook_evolution.
  destruct (data body) as [messageData|]; [|keep s].
  destruct (key messageData) as [k|]; [|keep s].
  destruct (_ && _); [|keep s].
  unfold processClientResponse.
  destruct (JsMap.get _ (conversationState s)); [|keep s].
  destruct (_ || _); [keep s|].
  cbn [conversationState]. rewrite JsMapFacts.get_set_eq. cbn [map fst snd n_client_phone].
  destruct Hinv as [Hwf Hinv]. split; cbn [conversationState].
  - now apply JsMapFacts.wf_set.
  - apply (LifecycleFacts.write _ _ _ _ (Lifecycle.Resolved _)); auto.
    cbn. apply mc_never_some.
Qed.

Lemma mc_cleanup_invariant instances now history s :
  run_invariant history s ->
  run_invariant (history ++ fst (step instances Cleanup now s))
                (snd (step instances Cleanup now s)).
Proof.
  intros [Hwf Hinv]. cbn [step fst snd]. split; [now apply mc_cleanup_wf|].
  intros phone c Hget. rewrite mc_cleanup_store in Hget by assumption.
  destruct (JsMap.get phone (conversationState s)) as [state|] eqn:E; [|discriminate].
  unfold swept in Hget. destruct (past_retention now state); [discriminate|].
  injection Hget as <-.
  destruct (checkpoint_expired now state) eqn:Hex.
  - rewrite LifecycleFacts.unresolved_timed_out_same
      by (eapply mc_expired_phones_spec; eauto).
    cbn. apply mc_never_some.
  - rewrite LifecycleFacts.unresolved_timed_out_other; [now apply Hinv|].
    intros Hin. eapply mc_expired_phones_spec in Hin; eauto. congruence.
Qed.

Lemma mc_step_invariant instances r now history s :
  run_invariant history s ->
  run_invariant (history ++ fst (step instances r now s))
                (snd (step instances r now s)).
Proof.
  destruct r.
  - apply mc_start_conversation_invariant.
  - apply mc_activate_checkpoint_invariant.
  - apply mc_webhook_evolution_invariant.
  - apply mc_cleanup_invariant.
Qed.

Lemma mc_run_keeps_invariant instances trace : forall history s,
  run_invariant history s ->
  run_invariant (fst (run instances trace history s))
                (snd (run instances trace history s)).
Proof.
  induction trace as [|[r now] rest IH]; intros history s Hinv; cbn [run]; auto.
  pose proof (mc_step_invariant instances r now history s Hinv) as Hstep.
  destruct (step instances r now s) as [seen s']. now apply IH.
Qed.

Lemma mc_initial_invariant instances now : run_invariant [] (initial instances now).
Proof.
  split; cbn.
  - apply JsMapFacts.wf_empty.
  - intros phone c. discriminate.
Qed.

(** ** Instance selection *)

Lemma mc_finalScore_above_minus_one now st :
  stats_in_range st ->
  JS.gt (finalScore now st) (-1)%float = true.
Proof.
  intros (Ha & Hr & Hh). unfold JS.gt, finalScore.
  apply nonneg_above_minus_one.
  repeat apply add_nonneg.
  - apply mul_nonneg; [finite_literal|]. apply Math_max_0_nonneg.
    apply sub_not_nan_l; [finite_literal|]. apply mul_not_nan; [finite_literal|assumption].
  - apply mul_nonneg; [finite_literal|assumption].
  - apply mul_nonneg; [finite_literal|assumption].
  - destruct (_ <? 300000); reflexivity.
Qed.

(** The score of the loop is the weighted score of the spec, for an
    active count that is a number. *)
Lemma mc_finalScore_weighted now st :
  PrimFloat.is_nan (Stats.active_conversations st) = false ->
  finalScore now st = weighted_score now st.
Proof.
  intros Ha. unfold finalScore, weighted_score, load_factor, recency_bonus.
  rewrite Math_max_0_floor; [reflexivity|].
  apply sub_not_nan_l; [finite_literal|].
  apply mul_not_nan; [finite_literal|assumption].
Qed.

Lemma mc_load_factor_nonneg active :
  (0 <=? load_factor active)%float = true.
Proof.
  unfold load_factor.
  destruct (0 <? 100 - active * 2)%float eqn:E; [|reflexivity].
  now apply ltb_0_leb.
Qed.

Lemma mc_updateInstanceStats_switch_in_range action now st :
  stats_in_range st ->
  stats_in_range (updateInstanceStats_switch action now st).
Proof.
  destruct st as [total active completed rate last health blk].
  intros (Ha & Hr & Hh). cbn in Ha, Hr, Hh.
  destruct action; cbn; repeat split; auto.
  - apply add_not_nan; [finite_literal|assumption].
  - apply Math_min_100_nonneg, add_nonneg; [assumption|reflexivity].
  - apply Math_min_100_nonneg, add_nonneg; [assumption|reflexivity].
  - apply Math_max_0_nonneg, sub_not_nan_r; [finite_literal|].
    now apply nonneg_not_nan.
  - apply Math_max_0_nonneg, sub_not_nan_r; [finite_literal|].
    now apply nonneg_not_nan.
  - apply sub_not_nan_r; [finite_literal|assumption].
Qed.

Section BestInstance.
Variable now : Z.

Lemma mc_gt_false_of_lt (a b : float) :
  (a <? b)%float = true -> (b <? a)%float = false.
Proof.
  intros H. destruct (b <? a)%float eqn:E; auto.
  pose proof (ltb_trans _ _ _ H E) as C. now rewrite ltb_irrefl in C.
Qed.

Lemma mc_leb_false_of_lt (a b : float) :
  (a <? b)%float = true -> (b <=? a)%float = false.
Proof.
  intros H. destruct (b <=? a)%float eqn:E; auto.
  pose proof (ltb_leb_trans _ _ _ H E) as C. now rewrite ltb_irrefl in C.
Qed.

Lemma mc_getBestInstance_loop_spec entries : forall bestInstance bestScore,
  (getBestInstance_loop now entries bestInstance bestScore = (bestInstance, bestScore) /\
   forall n st, In (n, st) entries -> Stats.blocked st = false ->
                JS.gt (finalScore now st) bestScore = false)
  \/
  (exists pre n st post,
     getBestInstance_loop now entries bestInstance bestScore = (Some n, finalScore now st) /\
     first_maximum now entries pre n st post bestScore).
Proof.
  induction entries as [|[n0 st0] rest IH]; intros bi bs; cbn [getBestInstance_loop].
  - left. split; [reflexivity|]. intros ? ? [].
  - destruct (Stats.blocked st0) eqn:Hb.
    + destruct (IH bi bs) as [[He Hall]|(pre & n & st & post & He & Hsplit & Hnb & Hgt & Hpre & Hmax)].
      * left. split; [assumption|]. intros n' st' [[= <- <-]|Hin] Hnb; [congruence|eauto].
      * right. exists ((n0, st0) :: pre), n, st, post. split; [assumption|].
        split; [now rewrite Hsplit|]. split; [assumption|]. split; [assumption|].
        split; intros n' st' [[= <- <-]|Hin] Hnb'; try congruence; eauto.
    + destruct (JS.gt (finalScore now st0) bs) eqn:Hg.
      * destruct (IH (Some n0) (finalScore now st0))
          as [[He Hall]|(pre & n & st & post & He & Hsplit & Hnb & Hgt & Hpre & Hmax)].
        -- right. exists [], n0, st0, rest. split; [assumption|].
           split; [reflexivity|]. split; [assumption|]. split; [assumption|].
           split; [intros ? ? []|].
           intros n' st' [[= <- <-]|Hin] Hnb'; [apply ltb_irrefl|eauto].
        -- right. exists ((n0, st0) :: pre), n, st, post. split; [assumption|].
           split; [now rewrite Hsplit|]. split; [assumption|].
           unfold JS.gt in *.
           split; [eapply ltb_trans; eassumption|].
           split; intros n' st' [[= <- <-]|Hin] Hnb'; eauto.
           ++ now apply mc_leb_false_of_lt.
           ++ now apply mc_gt_false_of_lt.
      * destruct (IH bi bs)
          as [[He Hall]|(pre & n & st & post & He & Hsplit & Hnb & Hgt & Hpre & Hmax)].
        -- left. split; [assumption|].
           intros n' st' [[= <- <-]|Hin] Hnb'; eauto.
        -- right. exists ((n0, st0) :: pre), n, st, post. split; [assumption|].
           split; [now rewrite Hsplit|]. split; [assumption|]. split; [assumption|].
           unfold JS.gt in *.
           split; intros n' st' [[= <- <-]|Hin] Hnb'; eauto.
           ++ destruct (finalScore now st <=? finalScore now st0)%float eqn:E; auto.
              now rewrite (ltb_leb_trans _ _ _ Hgt E) in Hg.
           ++ destruct (finalScore now st <? finalScore now st0)%float eqn:E; auto.
              now rewrite (ltb_trans _ _ _ Hgt E) in Hg.
Qed.

End BestInstance.

End MultiCheckpointFacts.


(* ================================================================== *)
(** * Facts about the auto-lead server *)
(* ================================================================== *)

Module AutoLeadFacts.
Import AutoLead AutoLeadSpec.

Lemma al_cancel_timeout_frame key s :
  INSTANCES (cancel_timeout key s) = INSTANCES s /\
  conversationState (cancel_timeout key s) = conversationState s /\
  nextTimerId (cancel_timeout key s) = nextTimerId s /\
  instanceStats (cancel_timeout key s) = instanceStats s /\
  checkpointHistory (cancel_timeout key s) = checkpointHistory s /\
  dailyStats (cancel_timeout key s) = dailyStats s /\
  instanceRotationCounter (cancel_timeout key s) = instanceRotationCounter s /\
  totalLeadsProcessed (cancel_timeout key s) = totalLeadsProcessed s.
Proof.
  unfold cancel_timeout. destruct (JsMap.get key (checkpointTimeouts s)); cbn; tauto.
Qed.

Lemma al_cancel_timeout_store key s :
  conversationState (cancel_timeout key s) = conversationState s.
Proof. apply al_cancel_timeout_frame. Qed.








(** ** The sweeper *)

Lemma al_cleanup_entry_store now s entry :
  conversationState (cleanup_entry now s entry) =
  sweep_store now (conversationState s) entry.
Proof.
  destruct entry as [phone conv]. unfold cleanup_entry, sweep_store. cbn [fst snd].
  destruct (past_retention now conv); [|reflexivity].
  cbn [with_instanceStats conversationState]. now rewrite al_cancel_timeout_store.
Qed.

Lemma al_fold_cleanup_entry_store now l : forall s,
  conversationState (fold_left (cleanup_entry now) l s) =
  fold_left (sweep_store now) l (conversationState s).
Proof.
  induction l as [|e r IH]; intros s; cbn; auto.
  now rewrite IH, al_cleanup_entry_store.
Qed.

Lemma al_sweep_store_other now m entry k :
  fst entry <> k -> JsMap.get k (sweep_store now m entry) = JsMap.get k m.
Proof.
  intros Hne. unfold sweep_store.
  destruct (past_retention now (snd entry)); auto.
  now apply JsMapFacts.get_delete_neq.
Qed.

Lemma al_fold_sweep_store_wf now l : forall m,
  JsMap.wf m -> JsMap.wf (fold_left (sweep_store now) l m).
Proof.
  induction l as [|e r IH]; intros m H; cbn; auto.
  apply IH. unfold sweep_store.
  destruct (past_retention now (snd e)); auto using JsMapFacts.wf_delete.
Qed.

Lemma al_fold_sweep_store_other now l k : forall m,
  ~ In k (map fst l) ->
  JsMap.get k (fold_left (sweep_store now) l m) = JsMap.get k m.
Proof.
  induction l as [|e r IH]; intros m Hn; cbn; auto.
  rewrite IH by (intros H; apply Hn; now right).
  apply al_sweep_store_other. intros H. apply Hn. now left.
Qed.

Lemma al_fold_sweep_store_entry now l k conv : forall m,
  NoDup (map fst l) -> In (k, conv) l -> JsMap.get k m = Some conv ->
  JsMap.get k (fold_left (sweep_store now) l m) = swept now conv.
Proof.
  induction l as [|[p c] r IH]; intros m Hnd Hin Hget; [destruct Hin|].
  inversion Hnd as [|? ? Hnot Hnd']; subst. cbn [fold_left].
  destruct Hin as [[= -> ->]|Hin].
  - rewrite al_fold_sweep_store_other by assumption.
    unfold sweep_store, swept. cbn [fst snd].
    destruct (past_retention now conv); auto.
    apply JsMapFacts.get_delete_eq.
  - apply IH; auto.
    rewrite al_sweep_store_other; auto. cbn [fst map] in *.
    intros ->. apply Hnot. change k with (fst (k, conv)). now apply in_map.
Qed.

Lemma al_cleanup_store now s phone :
  JsMap.wf (conversationState s) ->
  JsMap.get phone (conversationState (cleanupOldData now s)) =
  match JsMap.get phone (conversationState s) with
  | Some conv => swept now conv
  | None => None
  end.
Proof.
  intros Hwf. unfold cleanupOldData. cbn [conversationState].
  rewrite al_fold_cleanup_entry_store.
  destruct (JsMap.get phone (conversationState s)) as [conv|] eqn:E.
  - apply al_fold_sweep_store_entry; auto. now apply JsMapFacts.get_In.
  - rewrite al_fold_sweep_store_other; auto. now apply JsMapFacts.get_None_keys.
Qed.

Lemma al_cleanup_wf now s :
  JsMap.wf (conversationState s) ->
  JsMap.wf (conversationState (cleanupOldData now s)).
Proof.
  intros Hwf. unfold cleanupOldData. cbn [conversationState].
  rewrite al_fold_cleanup_entry_store. now apply al_fold_sweep_store_wf.
Qed.









(** ** Runs *)

Lemma al_getNextInstance_store now s :
  conversationState (snd (getNextInstance now s)) = conversationState s.
Proof.
  unfold getNextInstance.
  destruct (_ =? 0)%nat; [reflexivity|].
  destruct (JS.nth _ _); reflexivity.
Qed.

Lemma al_createConversation_store phone name source now s conversation s' :
  createConversation phone name source now s = Some (conversation, s') ->
  conversationState s' = JsMap.set phone conversation (conversationState s) /\
  Conv.waiting_response conversation = false /\
  Conv.current_checkpoint conversation = None.
Proof.
  unfold createConversation.
  pose proof (al_getNextInstance_store now s) as E.
  destruct (getNextInstance now s) as [[instance|] s1]; [|discriminate].
  cbn [snd] in E. intros [= <- <-]. cbn. now rewrite E.
Qed.

Lemma al_run_invariant_keep history s s' :
  conversationState s' = conversationState s ->
  run_invariant history s -> run_invariant (history ++ []) s'.
Proof.
  intros E [Hwf Hinv]. unfold run_invariant. rewrite E, app_nil_r. auto.
Qed.

Ltac keep s :=
  cbn; apply (al_run_invariant_keep _ s); [reflexivity|assumption].

Lemma al_never_some (o : option string) :
  false = true <-> exists checkpoint : string, o = Some checkpoint /\ None = Some checkpoint.
Proof. split; [discriminate|]. intros (? & _ & ?). discriminate. Qed.

Lemma al_run_invariant_created history s s' phone conversation :
  run_invariant history s ->
  conversationState s' = JsMap.set phone conversation (conversationState s) ->
  Conv.waiting_response conversation = false ->
  run_invariant (history ++ [Lifecycle.Created phone]) s'.
Proof.
  intros [Hwf Hinv] E Hw. split; rewrite E.
  - now apply JsMapFacts.wf_set.
  - apply (LifecycleFacts.write _ _ _ _ (Lifecycle.Created _)); auto.
    rewrite Hw. cbn. apply al_never_some.
Qed.

Lemma al_lead_new_invariant body now history s :
  run_invariant history s ->
  run_invariant (history ++ fst (step (LeadNew body) now s))
                (snd (step (LeadNew body) now s)).
Proof.
  intros Hinv. cbn [step]. unfold api_lead_new.
  destruct (negb _); [keep s|].
  destruct (JsMap.get _ (conversationState s)); [keep s|].
  destruct (createConversation _ _ _ now s) as [[conversation s']|] eqn:E; [|keep s].
  apply al_createConversation_store in E as (E & Hw & _). cbn [fst snd map seen_in].
  eapply al_run_invariant_created; eauto.
Qed.

Lemma al_activateCheckpoint_store phone checkpointName timeout_minutes now s :
  match JsMap.get phone (conversationState s) with
  | None =>
      activateCheckpoint phone checkpointName timeout_minutes now s
      = (ActivateFailed NotFound, s)
  | Some conversation =>
      exists conversation',
        fst (activateCheckpoint phone checkpointName timeout_minutes now s)
        = Activated checkpointName (Conv.instance conversation)
                    (Conv.instance_id conversation) /\
        conversationState
          (snd (activateCheckpoint phone checkpointName timeout_minutes now s))
        = JsMap.set phone conversation' (conversationState s) /\
        Conv.waiting_response conversation' = true /\
        Conv.current_checkpoint conversation' = Some checkpointName
  end.
Proof.
  unfold activateCheckpoint.
  destruct (JsMap.get phone (conversationState s)) as [conversation|]; auto.
  eexists. cbn [setTimeout fst snd conversationState].
  rewrite al_cancel_timeout_store. repeat split.
Qed.

Lemma al_checkpoint_activate_invariant body now history s :
  run_invariant history s ->
  run_invariant (history ++ fst (step (CheckpointActivate body) now s))
                (snd (step (CheckpointActivate body) now s)).
Proof.
  intros Hinv. cbn [step]. unfold api_checkpoint_activate.
  destruct (_ || _); [keep s|].
  set (tm := match ab_timeout_minutes body with Some m => Some m | None => Some 1440 end).
  pose proof (al_activateCheckpoint_store (JS.template (ab_phone body))
                (JS.template (ab_checkpoint_name body)) tm now s) as H.
  destruct (JsMap.get _ (conversationState s)) as [conversation|].
  - destruct H as (conversation' & Hr & Hs & Hw & Hc).
    destruct (activateCheckpoint _ _ tm now s) as [result s'].
    cbn [fst snd] in Hr, Hs. subst result. cbn [fst snd].
    destruct Hinv as [Hwf Hinv]. split; rewrite Hs.
    + now apply JsMapFacts.wf_set.
    + apply (LifecycleFacts.write _ _ _ _ (Lifecycle.CheckpointActivated _ _)); auto.
      rewrite Hw, Hc. cbn. split; [eauto|reflexivity].
  - rewrite H. keep s.
Qed.

Lemma al_processCheckpointResponse_store phone message now s :
  (exists error,
     processCheckpointResponse phone message now s = (ResponseFailed error, s))
  \/
  (exists checkpoint instance conversation',
     fst (processCheckpointResponse phone message now s)
     = ResponsePassed checkpoint message instance /\
     conversationState (snd (processCheckpointResponse phone message now s))
     = JsMap.set phone conversation' (conversationState s) /\
     Conv.waiting_response conversation' = false).
Proof.
  unfold processCheckpointResponse.
  destruct (JsMap.get phone (conversationState s)) as [conversation|]; [|eauto].
  destruct (negb _); [eauto|].
  right. do 3 eexists. cbn [fst snd conversationState].
  rewrite al_cancel_timeout_store. repeat split.
Qed.

Lemma al_webhook_evolution_invariant body now history s :
  run_invariant history s ->
  run_invariant (history ++ fst (step (WebhookEvolution body) now s))
                (snd (step (WebhookEvolution body) now s)).
Proof.
  intros Hinv. cbn [step]. unfold webhook_evolution.
  destruct (data body) as [messageData|]; [|keep s].
  destruct (key messageData) as [k|]; [|keep s].
  destruct (fromMe k); [keep s|].
  destruct (negb (JS.trim_truthy _)); [keep s|].
  destruct (negb (JsMap.has _ _)).
  - destruct (createConversation _ _ _ now s) as [[conversation s']|] eqn:E; [|keep s].
    apply al_createConversation_store in E as (E & Hw & _). cbn [fst snd map seen_in].
    eapply al_run_invariant_created; eauto.
  - match goal with
    | |- context [processCheckpointResponse ?p ?m now s] =>
        destruct (al_processCheckpointResponse_store p m now s)
          as [(error & H)|(checkpoint & instance & conversation' & Hr & Hs & Hw)]
    end.
    + rewrite H. keep s.
    + destruct (processCheckpointResponse _ _ now s) as [result s'].
      cbn [fst snd] in Hr, Hs. subst result. cbn [fst snd map seen_in].
      destruct Hinv as [Hwf Hinv]. split; rewrite Hs.
      * now apply JsMapFacts.wf_set.
      * apply (LifecycleFacts.write _ _ _ _ (Lifecycle.Resolved _)); auto.
        rewrite Hw. cbn. apply al_never_some.
Qed.

Lemma al_handleCheckpointTimeout_invariant phone checkpointName now history s :
  run_invariant history s ->
  run_invariant
    (history ++ map seen_in (fst (handleCheckpointTimeout phone checkpointName now s)))
    (snd (handleCheckpointTimeout phone checkpointName now s)).
Proof.
  intros Hinv. unfold handleCheckpointTimeout.
  destruct (JsMap.get phone (conversationState s)) as [conversation|]; [|keep s].
  destruct (checkpoint_differs _ _); [keep s|].
  cbn [fst snd map seen_in]. destruct Hinv as [Hwf Hinv].
  split; cbn [conversationState].
  - now apply JsMapFacts.wf_set.
  - apply (LifecycleFacts.write _ _ _ _ (Lifecycle.TimedOut _)); auto.
    cbn. apply al_never_some.
Qed.

Lemma al_step_invariant r now history s :
  run_invariant history s ->
  run_invariant (history ++ fst (step r now s)) (snd (step r now s)).
Proof.
  destruct r as [body|body|body|instance_name|timeoutId|].
  - apply al_lead_new_invariant.
  - apply al_checkpoint_activate_invariant.
  - apply al_webhook_evolution_invariant.
  - intros Hinv. cbn [step fst snd]. unfold api_instance_block.
    destruct (find _ _); keep s.
  - intros Hinv. cbn [step]. unfold fire_timer.
    destruct (find _ (timers s)) as [[i callback]|]; [|keep s].
    match goal with
    | |- context [handleCheckpointTimeout ?p ?c now ?s0] =>
        pose proof (al_handleCheckpointTimeout_invariant p c now history s0) as H;
        destruct (handleCheckpointTimeout p c now s0) as [sent s']
    end.
    cbn [fst snd] in *. apply H. exact Hinv.
  - intros [Hwf Hinv]. cbn [step fst snd]. split; [now apply al_cleanup_wf|].
    apply LifecycleFacts.shrink with (m := conversationState s); auto.
    intros phone c Hget. rewrite al_cleanup_store in Hget by assumption.
    destruct (JsMap.get phone (conversationState s)) as [conv|]; [|discriminate].
    unfold swept in Hget. destruct (past_retention now conv); congruence.
Qed.

Lemma al_run_keeps_invariant trace : forall history s,
  run_invariant history s ->
  run_invariant (fst (run trace history s)) (snd (run trace history s)).
Proof.
  induction trace as [|[r now] rest IH]; intros history s Hinv; cbn [run]; auto.
  pose proof (al_step_invariant r now history s Hinv) as Hstep.
  destruct (step r now s) as [seen s']. now apply IH.
Qed.

Lemma al_initial_invariant instances now : run_invariant [] (initial instances now).
Proof.
  split; cbn.
  - apply JsMapFacts.wf_empty.
  - intros phone c. discriminate.
Qed.

(** ** Activation and resolution *)

Lemma al_resolve_waiting s phone message now c :
  JsMap.get phone (conversationState s) = Some c ->
  Conv.waiting_response c = true ->
  let key := timeoutKey phone (Conv.current_checkpoint c) in
  let r := processCheckpointResponse phone message now s in
  fst r = ResponsePassed (Conv.current_checkpoint c) message (Conv.instance c) /\
  conversationState (snd r) =
    JsMap.set phone (resolved_conversation c message now) (conversationState s) /\
  checkpointHistory (snd r) =
    firstn 500 (Hist.mk phone (Conv.name c) (Conv.current_checkpoint c)
                  message (Conv.instance c) now :: checkpointHistory s) /\
  instanceStats (snd r) =
    updateInstanceStats (Conv.instance c) ev_checkpoint_passed now
      (instanceStats s) /\
  checkpointTimeouts (snd r) = checkpointTimeouts (cancel_timeout key s) /\
  timers (snd r) = timers (cancel_timeout key s) /\
  nextTimerId (snd r) = nextTimerId s /\
  INSTANCES (snd r) = INSTANCES s.
Proof.
  intros Hget Hw key r. subst r. unfold processCheckpointResponse.
  rewrite Hget, Hw. cbn [negb fst snd].
  fold key.
  destruct (al_cancel_timeout_frame key s) as (HI & HC & HN & HS & HH & HD & HR & HT).
  cbn [conversationState checkpointHistory instanceStats
       checkpointTimeouts timers nextTimerId INSTANCES].
  rewrite HC, HS, HH, HN, HI, JSFacts.firstn_cap. repeat split.
Qed.


End AutoLeadFacts.


(* ================================================================== *)
(** * Facts about the round-robin fallback *)
(* ================================================================== *)

Module RotationFacts.

Lemma map_nth_error_seq {A : Type} (l : list A) : forall a b,
  (a + b <= List.length l)%nat ->
  map (nth_error l) (seq a b) = map Some (firstn b (skipn a l)).
Proof.
  induction l as [|x l IH]; intros a b H; cbn [List.length] in H.
  - assert (a = 0 /\ b = 0)%nat as [-> ->] by lia. reflexivity.
  - destruct a as [|a].
    + destruct b as [|b]; [reflexivity|].
      cbn [seq map nth_error skipn firstn]. f_equal.
      rewrite <- seq_shift, map_map.
      rewrite (map_ext _ (nth_error l)) by reflexivity.
      rewrite (IH 0%nat b) by lia. reflexivity.
    + rewrite <- seq_shift, map_map. cbn [skipn].
      rewrite (map_ext _ (nth_error l)) by reflexivity.
      apply IH. lia.
Qed.

Lemma map_add_seq (r : nat) : forall k a,
  map (Nat.add r) (seq a k) = seq (r + a) k.
Proof.
  induction k as [|k IH]; intros a; cbn [seq map]; auto.
  f_equal. rewrite IH. f_equal. lia.
Qed.

Lemma rotate_nth_error {A : Type} (l : list A) (r : nat) :
  (r < List.length l)%nat ->
  map (fun j => nth_error l ((r + j) mod List.length l)%nat)
      (seq 0 (List.length l))
  = map Some (MultiCheckpointSpec.rotate r l).
Proof.
  intros Hr. set (n := List.length l) in *.
  assert (Hseq : seq 0 n = (seq 0 (n - r) ++ seq (n - r) r)%list)
    by (rewrite <- seq_app; f_equal; lia).
  rewrite Hseq, map_app. unfold MultiCheckpointSpec.rotate.
  rewrite map_app. f_equal.
  - transitivity (map (nth_error l) (seq r (n - r))).
    + replace (seq r (n - r)) with (map (Nat.add r) (seq 0 (n - r)))
        by (rewrite map_add_seq; f_equal; lia).
      rewrite map_map. apply map_ext_in. intros j Hj.
      apply in_seq in Hj. f_equal. apply Nat.mod_small. lia.
    + rewrite map_nth_error_seq by (fold n; lia).
      f_equal. apply firstn_all2. rewrite length_skipn. fold n. lia.
  - transitivity (map (nth_error l) (seq 0 r)).
    + replace (seq (n - r) r) with (map (Nat.add (n - r)) (seq 0 r))
        by (rewrite map_add_seq; f_equal; lia).
      rewrite map_map. apply map_ext_in. intros j Hj.
      apply in_seq in Hj. f_equal.
      replace (r + (n - r + j))%nat with (j + 1 * n)%nat by lia.
      rewrite Nat.Div0.mod_add. apply Nat.mod_small. lia.
    + rewrite map_nth_error_seq by (fold n; lia). reflexivity.
Qed.

End RotationFacts.

Module SelectionFacts.
Import MultiCheckpoint MultiCheckpointSpec.





End SelectionFacts.


(* ================================================================== *)
(** * Facts about the statistics along a run of [src/index.js] *)
(* ================================================================== *)

Module StatsFacts.
Import MultiCheckpoint MultiCheckpointSpec.

Lemma set_in_range n st m :
  Stats.blocked st = false -> stats_in_range st ->
  pool_in_range m -> pool_in_range (JsMap.set n st m).
Proof.
  intros Hb Hr. induction m as [|[k v] r IH]; intros H n' st' Hin.
  - destruct Hin as [[= <- <-]|[]]. auto.
  - cbn [JsMap.set] in Hin. destruct (k =? n)%string.
    + destruct Hin as [[= <- <-]|Hin]; auto. apply (H n' st'). now right.
    + destruct Hin as [[= <- <-]|Hin].
      * apply (H k v). now left.
      * apply IH in Hin; auto. intros a b Hab. apply (H a b). now right.
Qed.

Lemma updateInstanceStats_in_range n action now m :
  action <> blocked ->
  pool_in_range m -> pool_in_range (updateInstanceStats n action now m).
Proof.
  intros Ha H. unfold updateInstanceStats.
  destruct (JsMap.get n m) as [st|] eqn:E; auto.
  apply JsMapFacts.get_In in E. destruct (H n st E) as [Hb Hr].
  apply set_in_range; auto.
  - destruct st, action; cbn in *; congruence.
  - now apply MultiCheckpointFacts.mc_updateInstanceStats_switch_in_range.
Qed.

Lemma initializeInstanceStats_in_range instances now : forall m,
  pool_in_range m -> pool_in_range (initializeInstanceStats instances now m).
Proof.
  unfold initializeInstanceStats.
  induction instances as [|i r IH]; intros m H; cbn [fold_left]; auto.
  apply IH. apply set_in_range; auto. repeat split.
Qed.

Lemma cleanup_entry_in_range now s entry :
  pool_in_range (instanceStats s) ->
  pool_in_range (instanceStats (cleanup_entry now s entry)).
Proof.
  destruct entry as [phone state]. intros H. unfold cleanup_entry.
  destruct (checkpoint_expired now state), (past_retention now state);
    cbn [instanceStats]; auto;
    repeat apply updateInstanceStats_in_range; auto; discriminate.
Qed.

Lemma fold_cleanup_entry_in_range now l : forall s,
  pool_in_range (instanceStats s) ->
  pool_in_range (instanceStats (fold_left (cleanup_entry now) l s)).
Proof.
  induction l as [|e r IH]; intros s H; cbn [fold_left]; auto.
  apply IH. now apply cleanup_entry_in_range.
Qed.

Lemma step_in_range instances r now s :
  pool_in_range (instanceStats s) ->
  pool_in_range (instanceStats (snd (step instances r now s))).
Proof.
  intros H. destruct r as [body|body|body|]; cbn [step].
  - unfold start_conversation.
    destruct (negb _); [exact H|].
    destruct (JsMap.get _ (conversationState s)); [exact H|].
    destruct (getBestInstance instances now s) as [[n s1]|] eqn:E; [|exact H].
    apply MultiCheckpointFacts.mc_getBestInstance_frame in E as (_ & _ & _ & E).
    cbn [snd instanceStats]. rewrite E.
    apply updateInstanceStats_in_range; [discriminate|exact H].
  - unfold activate_checkpoint. destruct (_ || _); [exact H|].
    unfold activateCheckpoint.
    destruct (JsMap.get _ (conversationState s)); exact H.
  - unfold webhook_evolution.
    destruct (data body) as [messageData|]; [|exact H].
    destruct (key messageData) as [k|]; [|exact H].
    destruct (_ && _); [|exact H].
    unfold processClientResponse.
    destruct (JsMap.get _ (conversationState s)); [|exact H].
    destruct (_ || _); [exact H|].
    cbn [conversationState]. rewrite JsMapFacts.get_set_eq. cbn [snd instanceStats].
    apply updateInstanceStats_in_range; [discriminate|exact H].
  - cbn [snd]. unfold cleanupExpiredCheckpoints. cbn [instanceStats].
    now apply fold_cleanup_entry_in_range.
Qed.

Lemma run_in_range instances trace : forall history s,
  pool_in_range (instanceStats s) ->
  pool_in_range (instanceStats (snd (run instances trace history s))).
Proof.
  induction trace as [|[r now] rest IH]; intros history s H; cbn [run]; auto.
  pose proof (step_in_range instances r now s H) as Hstep.
  destruct (step instances r now s) as [seen s']. now apply IH.
Qed.

(** In every state a run of [src/index.js] reaches, every instance is
    unblocked and has its statistics in range. *)
Lemma reachable_in_range instances t0 trace :
  pool_in_range
    (instanceStats (snd (run instances trace [] (initial instances t0)))).
Proof.
  apply run_in_range. cbn [initial instanceStats].
  apply initializeInstanceStats_in_range. intros n st [].
Qed.

End StatsFacts.


(* ================================================================== *)
(** * Facts about the timers of [src/unnamed/part_001] *)
(* ================================================================== *)

Module TimerFacts.
Import AutoLead AutoLeadSpec.

Lemma cancel_timeout_pending phone conv s :
  JsMap.get phone (conversationState s) = Some conv ->
  timers_tracked phone s ->
  pending_for phone
    (cancel_timeout (timeoutKey phone (Conv.current_checkpoint conv)) s) = [].
Proof.
  intros Hget [_ Htr]. unfold pending_for, cancel_timeout.
  destruct (JsMap.get _ (checkpointTimeouts s)) as [old|] eqn:E; cbn [timers].
  - unfold clearTimeout_in.
    induction (timers s) as [|[i t] r IH]; cbn; auto.
    destruct (Z.eqb_spec i old) as [->|Hne]; cbn.
    + apply IH. intros c i' t' Hc Hin Hp. apply (Htr c i' t'); auto. now right.
    + destruct (String.eqb_spec (timer_phone t) phone) as [Hp|Hp].
      * exfalso. apply Hne.
        assert (Some i = Some old) as [= ->]; auto.
        rewrite <- E. symmetry. apply (Htr conv i t); auto. now left.
      * apply IH. intros c i' t' Hc Hin Hp'. apply (Htr c i' t'); auto. now right.
  - induction (timers s) as [|[i t] r IH]; cbn; auto.
    destruct (String.eqb_spec (timer_phone t) phone) as [Hp|Hp].
    + exfalso. assert (None = Some i) by
        (rewrite <- E; apply (Htr conv i t); auto; now left). discriminate.
    + apply IH. intros c i' t' Hc Hin Hp'. apply (Htr c i' t'); auto. now right.
Qed.

Lemma cancel_timeout_timers_subset key s e :
  In e (timers (cancel_timeout key s)) -> In e (timers s).
Proof.
  unfold cancel_timeout.
  destruct (JsMap.get key (checkpointTimeouts s)); cbn [timers]; auto.
  unfold clearTimeout_in. intros H. now apply filter_In in H.
Qed.

(** Activation supersedes: from a tracked state, [activateCheckpoint]
    leaves exactly one pending timer for the client, the new one, and the
    state is tracked again. *)
Lemma activate_supersedes phone checkpointName timeout_minutes now s conv :
  JsMap.get phone (conversationState s) = Some conv ->
  timers_tracked phone s ->
  let s' := snd (activateCheckpoint phone checkpointName timeout_minutes now s) in
  pending_for phone s'
  = [(nextTimerId s,
      mkTimer phone checkpointName (timeoutMinutes timeout_minutes * 60 * 1000))] /\
  timers_tracked phone s' /\
  JsMap.get phone (conversationState s') <> None.
Proof.
  intros Hget Htr s'. subst s'. unfold activateCheckpoint. rewrite Hget.
  set (s1 := cancel_timeout (timeoutKey phone (Conv.current_checkpoint conv)) s).
  pose proof (cancel_timeout_pending phone conv s Hget Htr) as Hnone. fold s1 in Hnone.
  destruct (AutoLeadFacts.al_cancel_timeout_frame
              (timeoutKey phone (Conv.current_checkpoint conv)) s)
    as (_ & HC & HN & _). fold s1 in HC, HN.
  cbn [setTimeout snd fst conversationState checkpointTimeouts timers nextTimerId].
  assert (Hpending :
    filter (fun e => (timer_phone (snd e) =? phone)%string)
      (timers s1 ++
       [(nextTimerId s1,
         mkTimer phone checkpointName (timeoutMinutes timeout_minutes * 60 * 1000))])
    = [(nextTimerId s,
        mkTimer phone checkpointName (timeoutMinutes timeout_minutes * 60 * 1000))]).
  { rewrite filter_app. unfold pending_for in Hnone. rewrite Hnone. cbn.
    now rewrite String.eqb_refl, HN. }
  split; [exact Hpending|]. split.
  - split; cbn [timers nextTimerId conversationState checkpointTimeouts].
    + intros i t Hin. apply in_app_or in Hin as [Hin|[[= <- _]|[]]]; [|lia].
      apply cancel_timeout_timers_subset in Hin. destruct Htr as [Hfresh _].
      specialize (Hfresh i t Hin). lia.
    + intros c i t Hc Hin Hp.
      rewrite JsMapFacts.get_set_eq in Hc. injection Hc as <-.
      cbn [Conv.current_checkpoint]. rewrite JsMapFacts.get_set_eq. f_equal.
      assert (Hf : In (i, t)
                (filter (fun e => (timer_phone (snd e) =? phone)%string)
                   (timers s1 ++
                    [(nextTimerId s1,
                      mkTimer phone checkpointName
                        (timeoutMinutes timeout_minutes * 60 * 1000))])))
        by (apply filter_In; split; auto; cbn; now apply String.eqb_eq).
      rewrite Hpending in Hf. destruct Hf as [[= <- _]|[]]. now rewrite HN.
  - cbn [conversationState]. rewrite JsMapFacts.get_set_eq. discriminate.
Qed.

(** For every non-empty sequence of activations on the same client, from a
    tracked state, exactly one timer of that client is pending at the end
    (hence after each call). *)
Lemma activations_one_timer phone calls : forall s conv,
  JsMap.get phone (conversationState s) = Some conv ->
  timers_tracked phone s ->
  calls <> [] ->
  List.length (pending_for phone (activations phone calls s)) = 1%nat.
Proof.
  unfold activations.
  induction calls as [|[[K tm] now] rest IH]; intros s conv Hget Htr Hne;
    [congruence|].
  cbn [fold_left fst snd].
  destruct (activate_supersedes phone K tm now s conv Hget Htr) as (Hp & Htr' & Hex).
  destruct rest as [|c rest'].
  - cbn [fold_left]. now rewrite Hp.
  - destruct (JsMap.get phone
                (conversationState (snd (activateCheckpoint phone K tm now s))))
      as [conv'|] eqn:E; [|congruence].
    apply (IH _ conv'); auto. discriminate.
Qed.

End TimerFacts.


(* ================================================================== *)
(** * Facts about whole runs of [src/index.js] *)
(* ================================================================== *)

Module MapFacts.
Section WithValue.
Context {V : Type}.
Implicit Types (m : JsMap.t V) (k : string) (v : V).

Lemma get_Some_keys k v m : JsMap.get k m = Some v -> In k (JsMap.keys m).
Proof.
  intros H. apply JsMapFacts.get_In in H.
  change k with (fst (k, v)). now apply in_map.
Qed.

Lemma keys_get k m : In k (JsMap.keys m) -> exists v, JsMap.get k m = Some v.
Proof.
  intros H. destruct (JsMap.get k m) as [v|] eqn:E; [eauto|].
  now apply JsMapFacts.get_None_keys in E.
Qed.

Lemma size_set_present k v m :
  JsMap.get k m <> None -> JsMap.size (JsMap.set k v m) = JsMap.size m.
Proof.
  intros H. unfold JsMap.size.
  rewrite <- !(length_map fst). fold (JsMap.keys (JsMap.set k v m)).
  fold (JsMap.keys m). now rewrite JsMapFacts.keys_set_present.
Qed.

Lemma set_same k v m :
  JsMap.wf m -> JsMap.get k m = Some v -> JsMap.set k v m = m.
Proof.
  unfold JsMap.wf, JsMap.keys.
  induction m as [|[k' v'] r IH]; cbn; [discriminate|].
  intros Hnd. inversion Hnd as [|? ? Hnot Hnd']; subst.
  destruct (String.eqb_spec k' k) as [->|Hk].
  - now intros [= ->].
  - intros H. now rewrite IH.
Qed.

Lemma In_set k v m n' v' :
  In (n', v') (JsMap.set k v m) -> (n' = k /\ v' = v) \/ In (n', v') m.
Proof.
  induction m as [|[k0 v0] r IH]; cbn [JsMap.set].
  - intros [[= <- <-]|[]]. now left.
  - destruct (String.eqb_spec k0 k) as [->|Hne].
    + intros [[= <- <-]|Hin]; [now left|right; now right].
    + intros [[= <- <-]|Hin]; [right; now left|].
      destruct (IH Hin) as [H|H]; [now left|right; now right].
Qed.

Lemma In_delete k m n' v' : In (n', v') (JsMap.delete k m) -> In (n', v') m.
Proof. unfold JsMap.delete. intros H. now apply filter_In in H. Qed.

End WithValue.
End MapFacts.

Module StoreFacts.
Import MultiCheckpoint MultiCheckpointSpec MultiCheckpointLife.

Lemma getBestInstance_loop_key now entries : forall bestInstance bestScore,
  fst (getBestInstance_loop now entries bestInstance bestScore) = bestInstance \/
  exists n, fst (getBestInstance_loop now entries bestInstance bestScore) = Some n /\
            In n (JsMap.keys entries).
Proof.
  induction entries as [|[n0 st0] rest IH]; intros bi bs; cbn [getBestInstance_loop].
  - now left.
  - destruct (Stats.blocked st0).
    + destruct (IH bi bs) as [H|(n & H & Hin)]; [now left|].
      right. exists n. split; [assumption|now right].
    + destruct (JS.gt _ _).
      * destruct (IH (Some n0) (finalScore now st0)) as [H|(n & H & Hin)].
        -- right. exists n0. split; [assumption|now left].
        -- right. exists n. split; [assumption|now right].
      * destruct (IH bi bs) as [H|(n & H & Hin)]; [now left|].
        right. exists n. split; [assumption|now right].
Qed.

Lemma getBestInstance_configured instances now s n s1 :
  pool_configured instances s ->
  getBestInstance instances now s = Some (n, s1) ->
  In n (map name instances).
Proof.
  intros [_ Hkeys]. unfold getBestInstance.
  destruct (getBestInstance_loop_key now (instanceStats s) None (-1)%float)
    as [H|(k & H & Hin)]; rewrite H; cbn.
  - destruct (JS.nth _ _) as [i|] eqn:E; [|discriminate].
    intros [= <- _]. apply in_map. unfold JS.nth in E.
    destruct (_ <? 0); [discriminate|]. eapply nth_error_In; eauto.
  - destruct (JS.truthy k).
    + intros [= <- _]. now apply Hkeys.
    + destruct (JS.nth _ _) as [i|] eqn:E; [|discriminate].
      intros [= <- _]. apply in_map. unfold JS.nth in E.
      destruct (_ <? 0); [discriminate|]. eapply nth_error_In; eauto.
Qed.

(** ** The statistics map keeps its keys *)

Lemma updateInstanceStats_keys n action now m :
  JsMap.keys (updateInstanceStats n action now m) = JsMap.keys m.
Proof.
  unfold updateInstanceStats. destruct (JsMap.get n m) eqn:E; auto.
  apply JsMapFacts.keys_set_present. congruence.
Qed.

Lemma cleanup_entry_stats_keys now s entry :
  JsMap.keys (instanceStats (cleanup_entry now s entry)) = JsMap.keys (instanceStats s).
Proof.
  destruct entry as [phone state]. unfold cleanup_entry.
  destruct (checkpoint_expired now state), (past_retention now state);
    cbn [instanceStats]; now rewrite ?updateInstanceStats_keys.
Qed.

Lemma fold_cleanup_entry_stats_keys now l : forall s,
  JsMap.keys (instanceStats (fold_left (cleanup_entry now) l s))
  = JsMap.keys (instanceStats s).
Proof.
  induction l as [|e r IH]; intros s; cbn [fold_left]; auto.
  now rewrite IH, cleanup_entry_stats_keys.
Qed.

Lemma step_stats_keys instances r now s :
  JsMap.keys (instanceStats (snd (step instances r now s)))
  = JsMap.keys (instanceStats s).
Proof.
  destruct r as [body|body|body|]; cbn [step].
  - unfold start_conversation.
    destruct (negb _); [reflexivity|].
    destruct (JsMap.get _ (conversationState s)); [reflexivity|].
    destruct (getBestInstance instances now s) as [[n s1]|] eqn:E; [|reflexivity].
    apply MultiCheckpointFacts.mc_getBestInstance_frame in E as (_ & _ & _ & E).
    cbn [snd instanceStats]. now rewrite updateInstanceStats_keys, E.
  - unfold activate_checkpoint. destruct (_ || _); [reflexivity|].
    unfold activateCheckpoint.
    destruct (JsMap.get _ (conversationState s)); reflexivity.
  - unfold webhook_evolution.
    destruct (data body) as [messageData|]; [|reflexivity].
    destruct (key messageData) as [k|]; [|reflexivity].
    destruct (_ && _); [|reflexivity].
    unfold processClientResponse.
    destruct (JsMap.get _ (conversationState s)); [|reflexivity].
    destruct (_ || _); [reflexivity|].
    cbn [conversationState]. rewrite JsMapFacts.get_set_eq. cbn [snd instanceStats].
    apply updateInstanceStats_keys.
  - cbn [snd]. unfold cleanupExpiredCheckpoints. cbn [instanceStats].
    apply fold_cleanup_entry_stats_keys.
Qed.

Lemma initializeInstanceStats_keys instances now : forall m n,
  In n (JsMap.keys (initializeInstanceStats instances now m)) <->
  In n (JsMap.keys m) \/ In n (map name instances).
Proof.
  unfold initializeInstanceStats.
  induction instances as [|i r IH]; intros m n; cbn [fold_left map].
  - cbn. tauto.
  - rewrite IH. cbn [In].
    destruct (JsMap.get (name i) m) as [v|] eqn:E.
    + rewrite JsMapFacts.keys_set_present by congruence.
      apply MapFacts.get_Some_keys in E.
      split; [tauto|]. intros [H|[<-|H]]; auto.
    + rewrite JsMapFacts.keys_set_absent by assumption.
      rewrite in_app_iff. cbn. tauto.
Qed.

Lemma initializeInstanceStats_wf instances now : forall m,
  JsMap.wf m -> JsMap.wf (initializeInstanceStats instances now m).
Proof.
  unfold initializeInstanceStats.
  induction instances as [|i r IH]; intros m H; cbn [fold_left]; auto.
  apply IH. now apply JsMapFacts.wf_set.
Qed.

Lemma initial_well_formed instances t0 : well_formed instances (initial instances t0).
Proof.
  split; [apply JsMapFacts.wf_empty|]. split; cbn [initial instanceStats].
  - apply initializeInstanceStats_wf, JsMapFacts.wf_empty.
  - intros n. rewrite initializeInstanceStats_keys. cbn. tauto.
Qed.

Lemma step_well_formed instances r now s :
  well_formed instances s -> well_formed instances (snd (step instances r now s)).
Proof.
  intros [Hwf [Hswf Hkeys]].
  split; [|split].
  - (* unique keys of the store: the part of [run_invariant] that needs no history *)
    destruct r as [body|body|body|]; cbn [step].
    + unfold start_conversation.
      destruct (negb _); [assumption|].
      destruct (JsMap.get _ (conversationState s)); [assumption|].
      destruct (getBestInstance instances now s) as [[n s1]|] eqn:E; [|assumption].
      apply MultiCheckpointFacts.mc_getBestInstance_frame in E as (E & _).
      cbn [snd conversationState]. rewrite E. now apply JsMapFacts.wf_set.
    + unfold activate_checkpoint. destruct (_ || _); [assumption|].
      unfold activateCheckpoint.
      destruct (JsMap.get _ (conversationState s)); [|assumption].
      cbn [snd conversationState]. now apply JsMapFacts.wf_set.
    + unfold webhook_evolution.
      destruct (data body) as [messageData|]; [|assumption].
      destruct (key messageData) as [k|]; [|assumption].
      destruct (_ && _); [|assumption].
      unfold processClientResponse.
      destruct (JsMap.get _ (conversationState s)); [|assumption].
      destruct (_ || _); [assumption|].
      cbn [conversationState]. rewrite JsMapFacts.get_set_eq.
      cbn [snd conversationState]. now apply JsMapFacts.wf_set.
    + cbn [snd]. now apply MultiCheckpointFacts.mc_cleanup_wf.
  - unfold JsMap.wf. now rewrite step_stats_keys.
  - intros n. now rewrite step_stats_keys.
Qed.

Lemma run_well_formed instances trace : forall history s,
  well_formed instances s ->
  well_formed instances (snd (run instances trace history s)).
Proof.
  induction trace as [|[r now] rest IH]; intros history s H; cbn [run]; auto.
  pose proof (step_well_formed instances r now s H) as Hstep.
  destruct (step instances r now s) as [seen s']. now apply IH.
Qed.

Lemma mc_reachable_well_formed instances s :
  reachable instances s -> well_formed instances s.
Proof.
  intros (t0 & trace & <-). apply run_well_formed, initial_well_formed.
Qed.

Lemma mc_run_snoc instances r now trace : forall history s,
  snd (run instances (trace ++ [(r, now)]) history s)
  = snd (step instances r now (snd (run instances trace history s))).
Proof.
  induction trace as [|[r' now'] rest IH]; intros history s; cbn [run app].
  - cbn [snd]. destruct (step instances r now s); reflexivity.
  - destruct (step instances r' now' s) as [seen s']. apply IH.
Qed.

Lemma mc_reachable_step instances r now s :
  reachable instances s -> reachable instances (snd (step instances r now s)).
Proof.
  intros (t0 & trace & <-). exists t0, (trace ++ [(r, now)])%list.
  apply mc_run_snoc.
Qed.

(** ** One request and one conversation *)

Lemma step_conv_step instances r now s phone :
  well_formed instances s ->
  conv_step instances phone now
    (JsMap.get phone (conversationState s))
    (JsMap.get phone (conversationState (snd (step instances r now s)))).
Proof.
  intros [Hwf Hpool]. destruct r as [body|body|body|]; cbn [step].
  - unfold start_conversation.
    destruct (JS.truthy_opt (sb_client_phone body)) eqn:Ht; cbn [negb]; [|constructor].
    destruct (JsMap.get (JS.template (sb_client_phone body)) (conversationState s))
      eqn:Hget; [constructor|].
    destruct (getBestInstance instances now s) as [[n s1]|] eqn:E; [|constructor].
    pose proof (getBestInstance_configured _ _ _ _ _ Hpool E) as Hn.
    apply MultiCheckpointFacts.mc_getBestInstance_frame in E as (E & _).
    cbn [snd conversationState]. rewrite E.
    destruct (String.eqb_spec (JS.template (sb_client_phone body)) phone) as [<-|Hne].
    + rewrite JsMapFacts.get_set_eq, Hget. now constructor.
    + rewrite JsMapFacts.get_set_neq by assumption. constructor.
  - unfold activate_checkpoint.
    destruct (JS.truthy_opt (ab_client_phone body)); cbn [negb orb]; [|constructor].
    destruct (ab_checkpoint_id body) as [checkpointId|]; cbn [JS.truthy_opt negb];
      [|constructor].
    destruct (JS.truthy checkpointId) eqn:Ht; cbn [negb]; [|constructor].
    unfold activateCheckpoint.
    destruct (JsMap.get (JS.template (ab_client_phone body)) (conversationState s))
      as [state|] eqn:Hget; [|constructor].
    cbn [snd conversationState JS.template].
    destruct (String.eqb_spec (JS.template (ab_client_phone body)) phone) as [<-|Hne].
    + rewrite JsMapFacts.get_set_eq, Hget.
      apply (conv_activated _ _ _ state checkpointId
               {| data_message := ab_message body; data_step_data := ab_step_data body |}).
      intros ->. discriminate.
    + rewrite JsMapFacts.get_set_neq by assumption. constructor.
  - unfold webhook_evolution.
    destruct (data body) as [messageData|]; [|constructor].
    destruct (key messageData) as [k|]; [|constructor].
    destruct (_ && _); [|constructor].
    unfold processClientResponse.
    set (p := JS.replace _ _ _).
    destruct (JsMap.get p (conversationState s)) as [state|] eqn:Hget; [|constructor].
    destruct (Conv.waiting_for_response state) eqn:Hw; cbn [negb orb]; [|constructor].
    destruct (Conv.current_checkpoint state) as [checkpointId|] eqn:Hc;
      cbn [JS.truthy_opt negb]; [|constructor].
    destruct (JS.truthy checkpointId) eqn:Ht; cbn [negb]; [|constructor].
    cbn [conversationState]. rewrite JsMapFacts.get_set_eq. cbn [snd conversationState].
    destruct (String.eqb_spec p phone) as [<-|Hne].
    + rewrite JsMapFacts.get_set_eq, Hget.
      pose proof (conv_resolved instances p now state (messageContent messageData)
                    checkpointId Hw Hc) as R.
      unfold resolved in R. rewrite Hc in R. apply R. intros ->. discriminate.
    + rewrite JsMapFacts.get_set_neq by assumption. constructor.
  - cbn [snd]. rewrite MultiCheckpointFacts.mc_cleanup_store by assumption.
    destruct (JsMap.get phone (conversationState s)) as [state|]; [|constructor].
    unfold swept. destruct (past_retention now state) eqn:Hp; [now constructor|].
    destruct (checkpoint_expired now state) eqn:He; now constructor.
Qed.

(** An invariant of single conversations: what the four writes of the
    code keep holds in every state a run reaches. *)
Section StoreInvariant.
Variable instances : list Instance.
Variable P : string -> Conv.t -> Prop.
Hypothesis P_created : forall phone client_name instanceName now,
  In instanceName (map name instances) ->
  P phone (createConversationState phone client_name instanceName now).
Hypothesis P_activated : forall phone state checkpointId data now,
  checkpointId <> EmptyString -> P phone state ->
  P phone (activated state checkpointId data now).
Hypothesis P_resolved : forall phone state responseMessage checkpointId now,
  Conv.waiting_for_response state = true ->
  Conv.current_checkpoint state = Some checkpointId ->
  checkpointId <> EmptyString -> P phone state ->
  P phone (resolved state responseMessage now).
Hypothesis P_expired : forall phone state, P phone state -> P phone (expire state).

Lemma step_store_all r now s :
  well_formed instances s -> store_all P s ->
  store_all P (snd (step instances r now s)).
Proof.
  intros Hwf Hall phone state' Hget.
  pose proof (step_conv_step instances r now s phone Hwf) as Hstep.
  rewrite Hget in Hstep. inversion Hstep; subst; eauto.
Qed.

Lemma run_store_all trace : forall history s,
  well_formed instances s -> store_all P s ->
  store_all P (snd (run instances trace history s)).
Proof.
  induction trace as [|[r now] rest IH]; intros history s Hwf Hall; cbn [run]; auto.
  pose proof (step_well_formed instances r now s Hwf) as Hwf'.
  pose proof (step_store_all r now s Hwf Hall) as Hall'.
  destruct (step instances r now s) as [seen s']. now apply IH.
Qed.

Lemma reachable_store_all s : reachable instances s -> store_all P s.
Proof.
  intros (t0 & trace & <-). apply run_store_all.
  - apply initial_well_formed.
  - intros phone state. discriminate.
Qed.

End StoreInvariant.

End StoreFacts.


(* ================================================================== *)
(** * Facts about eviction, the grids of the statistics, the suffix *)
(* ================================================================== *)

Module SweepFacts.
Import Sweep.
Section Evict.
Context {V W : Type}.
Variable p : W -> bool.

Lemma get_fold_evict (l : list (string * W)) k : forall m : JsMap.t V,
  JsMap.get k (fold_left (evict p) l m)
  = if existsb (evicts p k) l then None else JsMap.get k m.
Proof.
  induction l as [|e r IH]; intros m; cbn [fold_left existsb]; auto.
  rewrite IH.
  destruct (existsb (evicts p k) r); [now rewrite orb_true_r|]. rewrite orb_false_r.
  unfold evict, evicts.
  destruct (String.eqb_spec (fst e) k) as [->|Hne]; cbn [andb].
  - destruct (p (snd e)); auto. apply JsMapFacts.get_delete_eq.
  - destruct (p (snd e)); auto. now apply JsMapFacts.get_delete_neq.
Qed.

Lemma existsb_evicts_absent (l : JsMap.t W) k :
  JsMap.get k l = None -> existsb (evicts p k) l = false.
Proof.
  induction l as [|[k' w] r IH]; cbn; auto.
  unfold evicts at 1. cbn [fst snd].
  destruct (k' =? k)%string; [discriminate|]. auto.
Qed.

Lemma existsb_evicts_present (l : JsMap.t W) k w :
  JsMap.wf l -> JsMap.get k l = Some w -> existsb (evicts p k) l = p w.
Proof.
  unfold JsMap.wf, JsMap.keys.
  induction l as [|[k' w'] r IH]; cbn; [discriminate|].
  intros Hnd. inversion Hnd as [|? ? Hnot Hnd']; subst.
  unfold evicts at 1. cbn [fst snd].
  destruct (String.eqb_spec k' k) as [->|Hne].
  - intros [= ->]. cbn [andb]. rewrite existsb_evicts_absent; [apply orb_false_r|].
    now apply JsMapFacts.get_None_keys.
  - intros H. cbn [andb orb]. auto.
Qed.

Lemma wf_fold_evict (l : list (string * W)) : forall m : JsMap.t V,
  JsMap.wf m -> JsMap.wf (fold_left (evict p) l m).
Proof.
  induction l as [|e r IH]; intros m H; cbn [fold_left]; auto.
  apply IH. unfold evict. destruct (p (snd e)); auto using JsMapFacts.wf_delete.
Qed.

End Evict.
End SweepFacts.

Module GridFacts.
Import StatsGrid.

Lemma on_grid_In grid v : on_grid grid v = true <-> In v grid.
Proof.
  unfold on_grid. rewrite existsb_exists. split.
  - intros (g & Hin & E). apply FloatAxioms.Leibniz.eqb_spec in E. now subst.
  - intros Hin. exists v. split; [assumption|]. now apply FloatAxioms.Leibniz.eqb_spec.
Qed.

(** A property of the values of a grid, checked value by value. *)
Lemma on_grid_forall grid (f : float -> bool) v :
  forallb f grid = true -> on_grid grid v = true -> f v = true.
Proof.
  intros Hall Hv. apply on_grid_In in Hv.
  rewrite forallb_forall in Hall. auto.
Qed.

Lemma halves_up v :
  on_grid halves v = true -> on_grid halves (JS.Math_min 100 (v + 0.5)%float) = true.
Proof.
  apply (on_grid_forall halves
           (fun v => on_grid halves (JS.Math_min 100 (v + 0.5)%float))).
  vm_compute. reflexivity.
Qed.

Lemma halves_down v :
  on_grid halves v = true -> on_grid halves (JS.Math_max 0 (v - 2)%float) = true.
Proof.
  apply (on_grid_forall halves
           (fun v => on_grid halves (JS.Math_max 0 (v - 2)%float))).
  vm_compute. reflexivity.
Qed.

Lemma units_up v :
  on_grid units v = true -> on_grid units (JS.Math_min 100 (v + 1)%float) = true.
Proof.
  apply (on_grid_forall units
           (fun v => on_grid units (JS.Math_min 100 (v + 1)%float))).
  vm_compute. reflexivity.
Qed.

Lemma units_down_5 v :
  on_grid units v = true -> on_grid units (JS.Math_max 0 (v - 5)%float) = true.
Proof.
  apply (on_grid_forall units
           (fun v => on_grid units (JS.Math_max 0 (v - 5)%float))).
  vm_compute. reflexivity.
Qed.

Lemma units_down_3 v :
  on_grid units v = true -> on_grid units (JS.Math_max 0 (v - 3)%float) = true.
Proof.
  apply (on_grid_forall units
           (fun v => on_grid units (JS.Math_max 0 (v - 3)%float))).
  vm_compute. reflexivity.
Qed.

Lemma halves_in_range v : on_grid halves v = true -> in_percent_range v = true.
Proof. apply on_grid_forall. vm_compute. reflexivity. Qed.

Lemma units_in_range v : on_grid units v = true -> in_percent_range v = true.
Proof. apply on_grid_forall. vm_compute. reflexivity. Qed.

End GridFacts.

Module SuffixFacts.
Import Jid.

Lemma prefix_refl s : String.prefix s s = true.
Proof.
  induction s as [|a r IH]; cbn; auto.
  destruct (ascii_dec a a); congruence.
Qed.

Lemma index_suffix (rest p : string) :
  contains "@" p = false ->
  String.index 0 (String "@" rest) (p ++ String "@" rest)
  = Some (String.length p).
Proof.
  induction p as [|c p IH]; intros Hno.
  - cbn [append String.index]. now rewrite prefix_refl.
  - cbn [contains] in Hno. apply orb_false_iff in Hno as [Hc Hno].
    cbn [append String.index String.prefix].
    destruct (ascii_dec "@" c) as [E|_].
    + subst c. now rewrite Ascii.eqb_refl in Hc.
    + rewrite (IH Hno). reflexivity.
Qed.

Lemma substring_prefix (p q : string) :
  String.substring 0 (String.length p) (p ++ q) = p.
Proof.
  induction p as [|c p IH]; cbn.
  - destruct q; reflexivity.
  - now rewrite IH.
Qed.

Lemma substring_past (n : nat) : forall s,
  String.substring n 0 s = EmptyString.
Proof.
  induction n as [|n IH]; intros [|c s]; cbn; auto.
Qed.

Lemma append_empty p : (p ++ EmptyString)%string = p.
Proof. induction p; cbn; congruence. Qed.

Lemma length_append (p q : string) :
  String.length (p ++ q) = (String.length p + String.length q)%nat.
Proof. induction p; cbn; congruence. Qed.

(** A JID made of a client number without an at sign and the WhatsApp
    suffix loses the suffix. *)
Lemma replace_suffix p :
  contains "@" p = false ->
  JS.replace whatsapp_suffix EmptyString (p ++ whatsapp_suffix) = p.
Proof.
  intros Hno. unfold JS.replace, whatsapp_suffix.
  rewrite index_suffix by assumption.
  rewrite substring_prefix. cbn [append].
  replace (String.length (p ++ "@s.whatsapp.net")
           - (String.length p + String.length "@s.whatsapp.net"))%nat with O.
  - rewrite substring_past. apply append_empty.
  - rewrite length_append. lia.
Qed.

End SuffixFacts.


(* ================================================================== *)
(** * [src/index.js]: the two maps, the pool, the sweeper, the report *)
(* ================================================================== *)

Module AgreementFacts.
Import MultiCheckpoint MultiCheckpointSpec MultiCheckpointLife.

Lemma cleanup_entry_cim now s entry :
  clientInstanceMap (cleanup_entry now s entry)
  = Sweep.evict (past_retention now) (clientInstanceMap s) entry.
Proof.
  destruct entry as [phone state]. unfold cleanup_entry, Sweep.evict. cbn [fst snd].
  destruct (checkpoint_expired now state), (past_retention now state); reflexivity.
Qed.

Lemma fold_cleanup_entry_cim now l : forall s,
  clientInstanceMap (fold_left (cleanup_entry now) l s)
  = fold_left (Sweep.evict (past_retention now)) l (clientInstanceMap s).
Proof.
  induction l as [|e r IH]; intros s; cbn [fold_left]; auto.
  now rewrite IH, cleanup_entry_cim.
Qed.

Lemma cleanup_cim now s phone :
  JsMap.wf (conversationState s) ->
  JsMap.get phone (clientInstanceMap (cleanupExpiredCheckpoints now s))
  = match JsMap.get phone (conversationState s) with
    | Some state =>
        if past_retention now state then None
        else JsMap.get phone (clientInstanceMap s)
    | None => JsMap.get phone (clientInstanceMap s)
    end.
Proof.
  intros Hwf. unfold cleanupExpiredCheckpoints. cbn [clientInstanceMap].
  rewrite fold_cleanup_entry_cim, SweepFacts.get_fold_evict.
  destruct (JsMap.get phone (conversationState s)) as [state|] eqn:E.
  - now rewrite (SweepFacts.existsb_evicts_present _ _ _ _ Hwf E).
  - now rewrite SweepFacts.existsb_evicts_absent.
Qed.

Lemma step_maps_agree instances r now s :
  well_formed instances s -> maps_agree s ->
  maps_agree (snd (step instances r now s)).
Proof.
  intros [Hwf Hpool] Hagree phone. destruct r as [body|body|body|]; cbn [step].
  - unfold start_conversation.
    destruct (negb _); [apply Hagree|].
    destruct (JsMap.get (JS.template (sb_client_phone body)) (conversationState s))
      eqn:Hget; [apply Hagree|].
    destruct (getBestInstance instances now s) as [[n s1]|] eqn:E; [|apply Hagree].
    apply MultiCheckpointFacts.mc_getBestInstance_frame in E as (E1 & E2 & _).
    cbn [snd conversationState clientInstanceMap]. rewrite E1, E2.
    destruct (String.eqb_spec (JS.template (sb_client_phone body)) phone) as [<-|Hne].
    + now rewrite !JsMapFacts.get_set_eq.
    + rewrite !JsMapFacts.get_set_neq by assumption. apply Hagree.
  - unfold activate_checkpoint. destruct (_ || _); [apply Hagree|].
    unfold activateCheckpoint.
    destruct (JsMap.get (JS.template (ab_client_phone body)) (conversationState s))
      as [state|] eqn:Hget; [|apply Hagree].
    cbn [snd conversationState clientInstanceMap].
    destruct (String.eqb_spec (JS.template (ab_client_phone body)) phone) as [<-|Hne].
    + now rewrite JsMapFacts.get_set_eq, Hagree, Hget.
    + rewrite JsMapFacts.get_set_neq by assumption. apply Hagree.
  - unfold webhook_evolution.
    destruct (data body) as [messageData|]; [|apply Hagree].
    destruct (key messageData) as [k|]; [|apply Hagree].
    destruct (_ && _); [|apply Hagree].
    unfold processClientResponse.
    set (p := JS.replace _ _ _).
    destruct (JsMap.get p (conversationState s)) as [state|] eqn:Hget; [|apply Hagree].
    destruct (_ || _); [apply Hagree|].
    cbn [conversationState]. rewrite JsMapFacts.get_set_eq.
    cbn [snd conversationState clientInstanceMap].
    destruct (String.eqb_spec p phone) as [<-|Hne].
    + now rewrite JsMapFacts.get_set_eq, Hagree, Hget.
    + rewrite JsMapFacts.get_set_neq by assumption. apply Hagree.
  - cbn [snd]. rewrite cleanup_cim, MultiCheckpointFacts.mc_cleanup_store by assumption.
    specialize (Hagree phone).
    destruct (JsMap.get phone (conversationState s)) as [state|]; [|assumption].
    unfold swept. destruct (past_retention now state); [reflexivity|].
    rewrite Hagree. cbn [option_map].
    destruct (checkpoint_expired now state); reflexivity.
Qed.

Lemma run_maps_agree instances trace : forall history s,
  well_formed instances s -> maps_agree s ->
  maps_agree (snd (run instances trace history s)).
Proof.
  induction trace as [|[r now] rest IH]; intros history s Hwf H; cbn [run]; auto.
  pose proof (StoreFacts.step_well_formed instances r now s Hwf) as Hwf'.
  pose proof (step_maps_agree instances r now s Hwf H) as H'.
  destruct (step instances r now s) as [seen s']. now apply IH.
Qed.

End AgreementFacts.

Module PoolFacts.
Import MultiCheckpoint MultiCheckpointSpec MultiCheckpointLife.

(** An invariant of single instances: what the events other than
    [blocked] keep holds in every state a run reaches. *)
Section PoolInvariant.
Variable instances : list Instance.
Variable P : Stats.t -> Prop.
Hypothesis P_initial : forall now, P (Stats.mk 0 0 0 100 now 100 false).
Hypothesis P_event : forall action now st,
  action <> blocked -> P st -> P (updateInstanceStats_switch action now st).

Lemma set_pool_all n st m : P st -> pool_all P m -> pool_all P (JsMap.set n st m).
Proof.
  intros Hst. induction m as [|[k v] r IH]; intros H n' st' Hin.
  - destruct Hin as [[= <- <-]|[]]. auto.
  - cbn [JsMap.set] in Hin. destruct (k =? n)%string.
    + destruct Hin as [[= <- <-]|Hin]; auto. apply (H n' st'). now right.
    + destruct Hin as [[= <- <-]|Hin].
      * apply (H k v). now left.
      * apply IH in Hin; auto. intros a b Hab. apply (H a b). now right.
Qed.

Lemma updateInstanceStats_pool_all n action now m :
  action <> blocked -> pool_all P m -> pool_all P (updateInstanceStats n action now m).
Proof.
  intros Ha H. unfold updateInstanceStats.
  destruct (JsMap.get n m) as [st|] eqn:E; auto.
  apply JsMapFacts.get_In in E. apply set_pool_all; auto.
  apply P_event; auto. exact (H n st E).
Qed.

Lemma fold_cleanup_entry_pool_all now l : forall s,
  pool_all P (instanceStats s) ->
  pool_all P (instanceStats (fold_left (cleanup_entry now) l s)).
Proof.
  induction l as [|[phone state] r IH]; intros s H; cbn [fold_left]; auto.
  apply IH. unfold cleanup_entry.
  destruct (checkpoint_expired now state), (past_retention now state);
    cbn [instanceStats]; auto;
    repeat apply updateInstanceStats_pool_all; auto; discriminate.
Qed.

Lemma step_pool_all r now s :
  pool_all P (instanceStats s) ->
  pool_all P (instanceStats (snd (step instances r now s))).
Proof.
  intros H. destruct r as [body|body|body|]; cbn [step].
  - unfold start_conversation.
    destruct (negb _); [exact H|].
    destruct (JsMap.get _ (conversationState s)); [exact H|].
    destruct (getBestInstance instances now s) as [[n s1]|] eqn:E; [|exact H].
    apply MultiCheckpointFacts.mc_getBestInstance_frame in E as (_ & _ & _ & E).
    cbn [snd instanceStats]. rewrite E.
    apply updateInstanceStats_pool_all; [discriminate|exact H].
  - unfold activate_checkpoint. destruct (_ || _); [exact H|].
    unfold activateCheckpoint.
    destruct (JsMap.get _ (conversationState s)); exact H.
  - unfold webhook_evolution.
    destruct (data body) as [messageData|]; [|exact H].
    destruct (key messageData) as [k|]; [|exact H].
    destruct (_ && _); [|exact H].
    unfold processClientResponse.
    destruct (JsMap.get _ (conversationState s)); [|exact H].
    destruct (_ || _); [exact H|].
    cbn [conversationState]. rewrite JsMapFacts.get_set_eq. cbn [snd instanceStats].
    apply updateInstanceStats_pool_all; [discriminate|exact H].
  - cbn [snd]. unfold cleanupExpiredCheckpoints. cbn [instanceStats].
    now apply fold_cleanup_entry_pool_all.
Qed.

Lemma run_pool_all trace : forall history s,
  pool_all P (instanceStats s) ->
  pool_all P (instanceStats (snd (run instances trace history s))).
Proof.
  induction trace as [|[r now] rest IH]; intros history s H; cbn [run]; auto.
  pose proof (step_pool_all r now s H) as Hstep.
  destruct (step instances r now s) as [seen s']. now apply IH.
Qed.

Lemma reachable_pool_all s : reachable instances s -> pool_all P (instanceStats s).
Proof.
  intros (t0 & trace & <-). apply run_pool_all. cbn [initial instanceStats].
  unfold initializeInstanceStats.
  assert (G : forall l m, pool_all P m ->
                pool_all P (fold_left (fun m instance =>
                                       JsMap.set (name instance)
                                         (Stats.mk 0 0 0 100 t0 100 false) m) l m)).
  { induction l as [|i r IH]; intros m H; cbn [fold_left]; auto.
    apply IH. apply set_pool_all; auto. }
  apply G. intros n st [].
Qed.

End PoolInvariant.

Lemma reachable_pool_in_range instances s :
  reachable instances s -> pool_in_range (instanceStats s).
Proof.
  intros (t0 & trace & <-). apply StatsFacts.reachable_in_range.
Qed.

(** ** Selection by score never fails *)

Lemma getBestInstance_scored instances now s :
  instances <> [] ->
  (forall i, In i instances -> name i <> EmptyString) ->
  pool_configured instances s -> pool_in_range (instanceStats s) ->
  exists n, getBestInstance instances now s = Some (n, s) /\
            In n (map name instances).
Proof.
  intros Hne Hnames [Hwf Hkeys] Hrange. unfold getBestInstance.
  destruct (MultiCheckpointFacts.mc_getBestInstance_loop_spec now (instanceStats s)
              None (-1)%float)
    as [[_ Hall]|(pre & n & st & post & He & Hsplit & _)].
  - exfalso. destruct instances as [|i rest]; [congruence|].
    assert (Hin : In (name i) (JsMap.keys (instanceStats s)))
      by (apply Hkeys; now left).
    apply MapFacts.keys_get in Hin as [st Hget]. apply JsMapFacts.get_In in Hget.
    destruct (Hrange _ _ Hget) as [Hb Hr].
    pose proof (MultiCheckpointFacts.mc_finalScore_above_minus_one now st Hr) as Hgt.
    rewrite (Hall _ _ Hget Hb) in Hgt. discriminate.
  - rewrite He. cbn [fst JS.truthy_opt JS.template].
    assert (Hin : In n (map name instances)).
    { apply Hkeys. rewrite Hsplit. unfold JsMap.keys. rewrite map_app, in_app_iff.
      right. now left. }
    rewrite JSFacts.truthy_nonempty.
    + exists n. split; [reflexivity|assumption].
    + apply in_map_iff in Hin as (i & <- & Hi). now apply Hnames.
Qed.

Lemma fold_cleanup_entry_counter now l : forall s,
  instanceCounter (fold_left (cleanup_entry now) l s) = instanceCounter s.
Proof.
  induction l as [|[phone state] r IH]; intros s; cbn [fold_left]; auto.
  rewrite IH. unfold cleanup_entry.
  destruct (checkpoint_expired now state), (past_retention now state); reflexivity.
Qed.

Lemma step_counter instances r now s :
  instances <> [] ->
  (forall i, In i instances -> name i <> EmptyString) ->
  pool_configured instances s -> pool_in_range (instanceStats s) ->
  instanceCounter (snd (step instances r now s)) = instanceCounter s.
Proof.
  intros Hne Hnames Hpool Hrange. destruct r as [body|body|body|]; cbn [step].
  - unfold start_conversation.
    destruct (negb _); [reflexivity|].
    destruct (JsMap.get _ (conversationState s)); [reflexivity|].
    destruct (getBestInstance_scored instances now s Hne Hnames Hpool Hrange)
      as (n & -> & _).
    reflexivity.
  - unfold activate_checkpoint. destruct (_ || _); [reflexivity|].
    unfold activateCheckpoint.
    destruct (JsMap.get _ (conversationState s)); reflexivity.
  - unfold webhook_evolution.
    destruct (data body) as [messageData|]; [|reflexivity].
    destruct (key messageData) as [k|]; [|reflexivity].
    destruct (_ && _); [|reflexivity].
    unfold processClientResponse.
    destruct (JsMap.get _ (conversationState s)); [|reflexivity].
    destruct (_ || _); [reflexivity|].
    cbn [conversationState]. rewrite JsMapFacts.get_set_eq. reflexivity.
  - cbn [snd]. unfold cleanupExpiredCheckpoints. cbn [instanceCounter].
    apply fold_cleanup_entry_counter.
Qed.

Lemma run_counter instances trace : forall history s,
  instances <> [] ->
  (forall i, In i instances -> name i <> EmptyString) ->
  well_formed instances s -> pool_in_range (instanceStats s) ->
  instanceCounter (snd (run instances trace history s)) = instanceCounter s.
Proof.
  induction trace as [|[r now] rest IH]; intros history s Hne Hnames Hwf Hrange;
    cbn [run]; auto.
  pose proof (StoreFacts.step_well_formed instances r now s Hwf) as Hwf'.
  pose proof (StatsFacts.step_in_range instances r now s Hrange) as Hrange'.
  pose proof (step_counter instances r now s Hne Hnames (proj2 Hwf) Hrange) as Hc.
  destruct (step instances r now s) as [seen s']. cbn [snd] in *.
  rewrite IH; auto.
Qed.

End PoolFacts.

Module SweeperFacts.
Import MultiCheckpoint MultiCheckpointSpec MultiCheckpointLife.

Lemma cleanup_entry_clean now s entry :
  checkpoint_expired now (snd entry) = false ->
  past_retention now (snd entry) = false ->
  cleanup_entry now s entry = s.
Proof.
  destruct entry as [phone state]. cbn [snd]. intros He Hp.
  unfold cleanup_entry. now rewrite He, Hp.
Qed.

Lemma fold_cleanup_entry_clean now l s :
  (forall phone state, In (phone, state) l ->
     checkpoint_expired now state = false /\ past_retention now state = false) ->
  fold_left (cleanup_entry now) l s = s.
Proof.
  induction l as [|[phone state] r IH]; intros H; cbn [fold_left]; auto.
  destruct (H phone state) as [He Hp]; [now left|].
  rewrite cleanup_entry_clean by assumption.
  apply IH. intros p st Hin. apply (H p st). now right.
Qed.

Lemma cleanup_leaves_clean now s :
  JsMap.wf (conversationState s) ->
  swept_clean now (conversationState (cleanupExpiredCheckpoints now s)).
Proof.
  intros Hwf phone state Hin.
  apply JsMapFacts.In_get in Hin; [|now apply MultiCheckpointFacts.mc_cleanup_wf].
  rewrite MultiCheckpointFacts.mc_cleanup_store in Hin by assumption.
  destruct (JsMap.get phone (conversationState s)) as [st|]; [|discriminate].
  unfold swept in Hin. destruct (past_retention now st) eqn:Hp; [discriminate|].
  injection Hin as <-.
  destruct (checkpoint_expired now st) eqn:He.
  - split.
    + unfold checkpoint_expired, expire. cbn. apply andb_false_r.
    + exact Hp.
  - auto.
Qed.

Lemma filter_idempotent {A : Type} (f : A -> bool) (l : list A) :
  filter f (filter f l) = filter f l.
Proof.
  induction l as [|a r IH]; cbn; auto.
  destruct (f a) eqn:E; cbn; rewrite ?E, IH; reflexivity.
Qed.

Lemma cleanup_clean now s :
  swept_clean now (conversationState s) ->
  cleanupExpiredCheckpoints now s
  = mkState (conversationState s) (clientInstanceMap s)
            (filter (fun h => Hist.timestamp h >? now - DATA_RETENTION_TIME)
                    (checkpointHistory s))
            (instanceStats s) (instanceCounter s).
Proof.
  intros H. unfold cleanupExpiredCheckpoints.
  now rewrite fold_cleanup_entry_clean by exact H.
Qed.

End SweeperFacts.

Module ReportFacts.
Import MultiCheckpoint MultiCheckpointLife MultiCheckpointStatus.

Lemma total_app (a b : list Z) : total (a ++ b) = total a + total b.
Proof. unfold total. induction a as [|x a IH]; cbn; [reflexivity|]. rewrite IH. lia. Qed.

Lemma total_indicator_absent (ks : list string) (x : string) :
  ~ In x ks -> total (map (fun k => indicator (x =? k)%string) ks) = 0.
Proof.
  induction ks as [|k r IH]; intros Hn; [reflexivity|].
  cbn [map]. unfold total in *. cbn [fold_right].
  destruct (String.eqb_spec x k) as [->|_].
  - exfalso. apply Hn. now left.
  - rewrite IH; [reflexivity|]. intros H. apply Hn. now right.
Qed.

Lemma total_indicator_present (ks : list string) (x : string) :
  NoDup ks -> In x ks -> total (map (fun k => indicator (x =? k)%string) ks) = 1.
Proof.
  induction ks as [|k r IH]; intros Hnd Hin; [destruct Hin|].
  inversion Hnd as [|? ? Hnot Hnd']; subst.
  cbn [map]. unfold total in *. cbn [fold_right].
  destruct (String.eqb_spec x k) as [->|Hne].
  - fold (total (map (fun k0 => indicator (k =? k0)%string) r)).
    now rewrite total_indicator_absent.
  - destruct Hin as [->|Hin]; [congruence|]. now rewrite IH.
Qed.

Lemma total_zero {A : Type} (ks : list A) : total (map (fun _ => 0) ks) = 0.
Proof. unfold total. induction ks; cbn; auto. Qed.

Lemma total_plus {A : Type} (f g : A -> Z) (ks : list A) :
  total (map (fun k => f k + g k) ks) = total (map f ks) + total (map g ks).
Proof. unfold total. induction ks as [|k r IH]; cbn; [reflexivity|]. rewrite IH. lia. Qed.

(** Counting the active conversations instance by instance counts each
    of them once. *)
Lemma count_by_instance (ks : list string) (cl : list ConversationSummary) :
  NoDup ks ->
  (forall c, In c cl -> In (c_instance c) ks) ->
  total (map (fun k => Z.of_nat (List.length (filter (is_active_on k) cl))) ks)
  = Z.of_nat (List.length (filter (fun c => (c_status c =? "active")%string) cl)).
Proof.
  intros Hnd. induction cl as [|c r IH]; intros Hall.
  - cbn [filter List.length]. apply total_zero.
  - rewrite (map_ext _
               (fun k => Z.of_nat (List.length (filter (is_active_on k) r))
                         + indicator (is_active_on k c))).
    + rewrite total_plus, IH by (intros c' Hc'; apply Hall; now right).
      cbn [filter]. unfold is_active_on.
      destruct (c_status c =? "active")%string.
      * rewrite (map_ext _ (fun k => indicator (c_instance c =? k)%string))
          by (intros k; now rewrite andb_true_r).
        rewrite total_indicator_present; [|assumption|apply Hall; now left].
        cbn [List.length]. lia.
      * rewrite (map_ext _ (fun _ => 0)) by (intros k; now rewrite andb_false_r).
        rewrite total_zero. lia.
    + intros k. cbn [filter]. destruct (is_active_on k c); cbn [List.length indicator]; lia.
Qed.

End ReportFacts.


(* ================================================================== *)
(** * Facts about whole runs of [src/unnamed/part_001] *)
(* ================================================================== *)

Module EngineFacts.
Import AutoLead AutoLeadSpec AutoLeadLife.

(** ** What each engine function leaves alone *)

Lemma getNextInstance_frame now s :
  INSTANCES (snd (getNextInstance now s)) = INSTANCES s /\
  conversationState (snd (getNextInstance now s)) = conversationState s /\
  checkpointTimeouts (snd (getNextInstance now s)) = checkpointTimeouts s /\
  timers (snd (getNextInstance now s)) = timers s /\
  nextTimerId (snd (getNextInstance now s)) = nextTimerId s /\
  checkpointHistory (snd (getNextInstance now s)) = checkpointHistory s /\
  dailyStats (snd (getNextInstance now s)) = dailyStats s /\
  totalLeadsProcessed (snd (getNextInstance now s)) = totalLeadsProcessed s.
Proof.
  unfold getNextInstance.
  destruct (_ =? 0)%nat; [cbn; tauto|].
  destruct (JS.nth _ _); cbn; tauto.
Qed.

(** The instance returned is a configured one; when the state changes,
    it is an available one, the counter has advanced and the instance has
    one more lead. *)
Lemma getNextInstance_result now s :
  (getNextInstance now s = (JS.nth (INSTANCES s) 0, s) /\ available s = [])
  \/
  (fst (getNextInstance now s) = None /\ snd (getNextInstance now s) = s)
  \/
  (exists instance,
     fst (getNextInstance now s) = Some instance /\
     In instance (available s) /\
     instanceRotationCounter (snd (getNextInstance now s))
     = (if instanceRotationCounter s + 1 >? INSTANCE_ROTATION_RESET then 0
        else instanceRotationCounter s + 1) /\
     instanceStats (snd (getNextInstance now s))
     = match JsMap.get (name instance) (instanceStats s) with
       | Some st => JsMap.set (name instance) (with_lead now st) (instanceStats s)
       | None => instanceStats s
       end).
Proof.
  unfold getNextInstance, available.
  destruct (filter _ _) as [|a l] eqn:E.
  - left. split; reflexivity.
  - right. cbn [List.length Nat.eqb].
    destruct (JS.nth (a :: l) _) as [instance|] eqn:N.
    + right. exists instance. cbn [fst snd instanceRotationCounter instanceStats].
      split; [reflexivity|]. split; [|split; reflexivity].
      unfold JS.nth in N. destruct (_ <? 0); [discriminate|].
      eapply nth_error_In; eauto.
    + left. split; reflexivity.
Qed.

Lemma getNextInstance_configured now s instance :
  fst (getNextInstance now s) = Some instance -> In instance (INSTANCES s).
Proof.
  destruct (getNextInstance_result now s)
    as [[E _]|[[E _]|(i & E & Hin & _)]]; rewrite E; cbn [fst].
  - unfold JS.nth. cbn. destruct (INSTANCES s); [discriminate|].
    intros [= <-]. now left.
  - discriminate.
  - intros [= <-]. unfold available in Hin. now apply filter_In in Hin.
Qed.

Lemma createConversation_frame phone name source now s conversation s' :
  createConversation phone name source now s = Some (conversation, s') ->
  exists instance,
    fst (getNextInstance now s) = Some instance /\
    conversation
    = Conv.mk phone name (AutoLead.name instance) (id instance) source None []
              false now now "active" None /\
    INSTANCES s' = INSTANCES s /\
    conversationState s' = JsMap.set phone conversation (conversationState s) /\
    checkpointTimeouts s' = checkpointTimeouts s /\
    timers s' = timers s /\
    nextTimerId s' = nextTimerId s /\
    instanceStats s' = instanceStats (snd (getNextInstance now s)) /\
    checkpointHistory s' = checkpointHistory s /\
    dailyStats s'
    = Daily.mk (Daily.leads_today (dailyStats s) + 1)
               (Daily.checkpoints_passed (dailyStats s))
               (Daily.timeouts (dailyStats s))
               (JsMap.size (conversationState s'))
               (Daily.last_reset (dailyStats s)) /\
    instanceRotationCounter s'
    = instanceRotationCounter (snd (getNextInstance now s)) /\
    totalLeadsProcessed s' = totalLeadsProcessed s + 1.
Proof.
  unfold createConversation.
  destruct (getNextInstance_frame now s) as (HI & HC & HK & HT & HN & HH & HD & HL).
  destruct (getNextInstance now s) as [[instance|] s1]; [|discriminate].
  cbn [fst snd] in *. intros [= <- <-]. exists instance.
  cbn. rewrite HI, HC, HK, HT, HN, HH, HD, HL. repeat split.
Qed.

Lemma activateCheckpoint_frame phone checkpointName timeout_minutes now s :
  let s' := snd (activateCheckpoint phone checkpointName timeout_minutes now s) in
  INSTANCES s' = INSTANCES s /\
  instanceStats s' = instanceStats s /\
  checkpointHistory s' = checkpointHistory s /\
  dailyStats s' = dailyStats s /\
  instanceRotationCounter s' = instanceRotationCounter s /\
  totalLeadsProcessed s' = totalLeadsProcessed s /\
  conversationState s'
  = match JsMap.get phone (conversationState s) with
    | Some c =>
        JsMap.set phone (activated_conversation c checkpointName now)
                  (conversationState s)
    | None => conversationState s
    end.
Proof.
  unfold activateCheckpoint.
  destruct (JsMap.get phone (conversationState s)) as [c|]; [|cbn; tauto].
  destruct (AutoLeadFacts.al_cancel_timeout_frame
              (timeoutKey phone (Conv.current_checkpoint c)) s)
    as (HI & HC & HN & HS & HH & HD & HR & HT).
  cbn. rewrite HI, HC, HS, HH, HD, HR, HT. repeat split.
Qed.

Lemma processCheckpointResponse_frame phone message now s :
  snd (processCheckpointResponse phone message now s) = s
  \/
  exists c,
    JsMap.get phone (conversationState s) = Some c /\
    Conv.waiting_response c = true /\
    let s' := snd (processCheckpointResponse phone message now s) in
    INSTANCES s' = INSTANCES s /\
    conversationState s'
    = JsMap.set phone (resolved_conversation c message now) (conversationState s) /\
    instanceStats s'
    = updateInstanceStats (Conv.instance c) ev_checkpoint_passed now
        (instanceStats s) /\
    checkpointHistory s'
    = firstn 500 (Hist.mk phone (Conv.name c) (Conv.current_checkpoint c)
                    message (Conv.instance c) now :: checkpointHistory s) /\
    dailyStats s'
    = Daily.mk (Daily.leads_today (dailyStats s))
               (Daily.checkpoints_passed (dailyStats s) + 1)
               (Daily.timeouts (dailyStats s))
               (Daily.active_now (dailyStats s))
               (Daily.last_reset (dailyStats s)) /\
    instanceRotationCounter s' = instanceRotationCounter s /\
    totalLeadsProcessed s' = totalLeadsProcessed s.
Proof.
  unfold processCheckpointResponse.
  destruct (JsMap.get phone (conversationState s)) as [c|] eqn:Hget; [|now left].
  destruct (Conv.waiting_response c) eqn:Hw; cbn [negb]; [|now left].
  right. exists c. split; [first [assumption|reflexivity]|].
  split; [first [assumption|reflexivity]|].
  destruct (AutoLeadFacts.al_cancel_timeout_frame
              (timeoutKey phone (Conv.current_checkpoint c)) s)
    as (HI & HC & HN & HS & HH & HD & HR & HT).
  cbn [snd INSTANCES conversationState instanceStats checkpointHistory dailyStats
       instanceRotationCounter totalLeadsProcessed].
  rewrite HI, HC, HS, HH, HD, HR, HT, JSFacts.firstn_cap. repeat split.
Qed.

Lemma fire_timer_frame timeoutId now s :
  (let s' := snd (fire_timer timeoutId now s) in
   INSTANCES s' = INSTANCES s /\
   conversationState s' = conversationState s /\
   instanceStats s' = instanceStats s /\
   checkpointHistory s' = checkpointHistory s /\
   dailyStats s' = dailyStats s /\
   instanceRotationCounter s' = instanceRotationCounter s /\
   totalLeadsProcessed s' = totalLeadsProcessed s)
  \/
  exists phone checkpointName c,
    JsMap.get phone (conversationState s) = Some c /\
    Conv.current_checkpoint c = Some checkpointName /\
    let s' := snd (fire_timer timeoutId now s) in
    INSTANCES s' = INSTANCES s /\
    conversationState s'
    = JsMap.set phone
        (Conv.mk (Conv.phone c) (Conv.name c) (Conv.instance c)
                 (Conv.instance_id c) (Conv.source c) (Conv.current_checkpoint c)
                 (Conv.checkpoints c) false (Conv.created_at c)
                 (Conv.last_activity c) "timeout" (Conv.checkpoint_activated_at c))
        (conversationState s) /\
    instanceStats s'
    = updateInstanceStats (Conv.instance c) ev_timeout now (instanceStats s) /\
    checkpointHistory s' = checkpointHistory s /\
    dailyStats s'
    = Daily.mk (Daily.leads_today (dailyStats s))
               (Daily.checkpoints_passed (dailyStats s))
               (Daily.timeouts (dailyStats s) + 1)
               (Daily.active_now (dailyStats s))
               (Daily.last_reset (dailyStats s)) /\
    instanceRotationCounter s' = instanceRotationCounter s /\
    totalLeadsProcessed s' = totalLeadsProcessed s.
Proof.
  unfold fire_timer.
  destruct (find _ (timers s)) as [[i [phone checkpointName delay]]|];
    [|left; cbn; tauto].
  unfold handleCheckpointTimeout. cbn [timer_phone timer_checkpointName conversationState].
  destruct (JsMap.get phone (conversationState s)) as [c|] eqn:Hget;
    [|left; cbn; tauto].
  destruct (Conv.current_checkpoint c) as [current|] eqn:Hc;
    cbn [checkpoint_differs]; [|left; cbn; tauto].
  destruct (String.eqb_spec current checkpointName) as [->|Hne]; cbn [negb];
    [|left; cbn; tauto].
  right. exists phone, checkpointName, c. split; [first [assumption|reflexivity]|].
  split; [first [assumption|reflexivity]|].
  cbn. rewrite Hc. repeat split.
Qed.

Lemma api_instance_block_frame instance_name now s :
  let s' := snd (api_instance_block instance_name now s) in
  conversationState s' = conversationState s /\
  checkpointHistory s' = checkpointHistory s /\
  dailyStats s' = dailyStats s /\
  instanceRotationCounter s' = instanceRotationCounter s /\
  totalLeadsProcessed s' = totalLeadsProcessed s.
Proof.
  unfold api_instance_block. destruct (find _ _); cbn; tauto.
Qed.

Lemma cleanup_entry_frame now s entry :
  INSTANCES (cleanup_entry now s entry) = INSTANCES s /\
  checkpointHistory (cleanup_entry now s entry) = checkpointHistory s /\
  dailyStats (cleanup_entry now s entry) = dailyStats s /\
  instanceRotationCounter (cleanup_entry now s entry) = instanceRotationCounter s /\
  totalLeadsProcessed (cleanup_entry now s entry) = totalLeadsProcessed s /\
  instanceStats (cleanup_entry now s entry)
  = (if past_retention now (snd entry)
     then updateInstanceStats (Conv.instance (snd entry)) ev_conversation_ended now
            (instanceStats s)
     else instanceStats s).
Proof.
  destruct entry as [phone conv]. unfold cleanup_entry. cbn [snd].
  destruct (past_retention now conv); [|tauto].
  match goal with
  | |- context [cancel_timeout ?k ?s0] =>
      destruct (AutoLeadFacts.al_cancel_timeout_frame k s0)
        as (HI & HC & HN & HS & HH & HD & HR & HT)
  end.
  cbn in *. rewrite HI, HS, HH, HD, HR, HT. tauto.
Qed.

Lemma fold_cleanup_entry_frame now l : forall s,
  INSTANCES (fold_left (cleanup_entry now) l s) = INSTANCES s /\
  checkpointHistory (fold_left (cleanup_entry now) l s) = checkpointHistory s /\
  dailyStats (fold_left (cleanup_entry now) l s) = dailyStats s /\
  instanceRotationCounter (fold_left (cleanup_entry now) l s)
  = instanceRotationCounter s /\
  totalLeadsProcessed (fold_left (cleanup_entry now) l s) = totalLeadsProcessed s.
Proof.
  induction l as [|e r IH]; intros s; cbn [fold_left]; [tauto|].
  destruct (IH (cleanup_entry now s e)) as (H1 & H2 & H3 & H4 & H5).
  destruct (cleanup_entry_frame now s e) as (E1 & E2 & E3 & E4 & E5 & _).
  rewrite H1, H2, H3, H4, H5. tauto.
Qed.

(** ** An invariant of the engine holds in every state a run reaches *)

Section EngineInvariant.
Variable P : State -> Prop.
Hypothesis P_create : forall phone name source now s conversation s',
  well_formed s -> JsMap.get phone (conversationState s) = None ->
  createConversation phone name source now s = Some (conversation, s') ->
  P s -> P s'.
Hypothesis P_activate : forall phone checkpointName timeout_minutes now s,
  well_formed s -> checkpointName <> EmptyString -> P s ->
  P (snd (activateCheckpoint phone checkpointName timeout_minutes now s)).
Hypothesis P_resolve : forall phone message now s,
  well_formed s -> P s -> P (snd (processCheckpointResponse phone message now s)).
Hypothesis P_fire : forall timeoutId now s,
  well_formed s -> P s -> P (snd (fire_timer timeoutId now s)).
Hypothesis P_block : forall instance_name now s,
  well_formed s -> P s -> P (snd (api_instance_block instance_name now s)).
Hypothesis P_cleanup : forall now s, well_formed s -> P s -> P (cleanupOldData now s).

Lemma step_keeps r now s : well_formed s -> P s -> P (snd (step r now s)).
Proof.
  intros Hwf HP. destruct r as [body|body|body|instance_name|timeoutId|]; cbn [step].
  - unfold api_lead_new.
    destruct (negb _); [exact HP|].
    destruct (JsMap.get _ (conversationState s)) eqn:Hget; [exact HP|].
    destruct (createConversation _ _ _ now s) as [[conversation s']|] eqn:E;
      [|exact HP].
    cbn [snd]. eapply P_create; eauto.
  - unfold api_checkpoint_activate.
    destruct (JS.truthy_opt (ab_phone body)); cbn [negb orb]; [|exact HP].
    destruct (ab_checkpoint_name body) as [checkpointName|];
      cbn [JS.truthy_opt negb]; [|exact HP].
    destruct (JS.truthy checkpointName) eqn:Ht; cbn [negb]; [|exact HP].
    match goal with
    | |- context [activateCheckpoint ?p ?c ?t now s] =>
        pose proof (P_activate p c t now s Hwf) as H;
        destruct (activateCheckpoint p c t now s) as [[e|c1 c2 c3] s']
    end; cbn [snd JS.template] in *; apply H; auto; intros E; rewrite E in Ht;
      discriminate.
  - unfold webhook_evolution.
    destruct (data body) as [messageData|]; [|exact HP].
    destruct (key messageData) as [k|]; [|exact HP].
    destruct (fromMe k); [exact HP|].
    destruct (negb (JS.trim_truthy _)); [exact HP|].
    unfold JsMap.has.
    destruct (JsMap.get _ (conversationState s)) eqn:Hget; cbn [negb].
    + match goal with
      | |- context [processCheckpointResponse ?p ?m now s] =>
          pose proof (P_resolve p m now s Hwf HP) as H;
          destruct (processCheckpointResponse p m now s) as [[e|c1 c2 c3] s']
      end; exact H.
    + destruct (createConversation _ _ _ now s) as [[conversation s']|] eqn:E;
        [|exact HP].
      cbn [snd]. eapply P_create; eauto.
  - now apply P_block.
  - pose proof (P_fire timeoutId now s Hwf HP) as H.
    destruct (fire_timer timeoutId now s) as [sent s']. exact H.
  - cbn [snd]. now apply P_cleanup.
Qed.

Lemma run_keeps trace : forall history s,
  run_invariant history s -> P s -> P (snd (run trace history s)).
Proof.
  induction trace as [|[r now] rest IH]; intros history s Hinv HP; cbn [run]; auto.
  pose proof (AutoLeadFacts.al_step_invariant r now history s Hinv) as Hinv'.
  pose proof (step_keeps r now s (proj1 Hinv) HP) as HP'.
  destruct (step r now s) as [seen s']. now apply IH.
Qed.

Lemma reachable_keeps s :
  (forall instances t0, P (initial instances t0)) -> reachable s -> P s.
Proof.
  intros H0 (instances & t0 & trace & <-). apply run_keeps; auto.
  apply AutoLeadFacts.al_initial_invariant.
Qed.

End EngineInvariant.

Lemma al_reachable_well_formed s : reachable s -> well_formed s.
Proof.
  intros (instances & t0 & trace & <-).
  apply (AutoLeadFacts.al_run_keeps_invariant trace [] (initial instances t0)).
  apply AutoLeadFacts.al_initial_invariant.
Qed.

Lemma al_run_snoc r now trace : forall history s,
  snd (run (trace ++ [(r, now)]) history s)
  = snd (step r now (snd (run trace history s))).
Proof.
  induction trace as [|[r' now'] rest IH]; intros history s; cbn [run app].
  - cbn [snd]. destruct (step r now s); reflexivity.
  - destruct (step r' now' s) as [seen s']. apply IH.
Qed.

Lemma run_app trace1 trace2 : forall history s,
  snd (run (trace1 ++ trace2) history s)
  = snd (run trace2 [] (snd (run trace1 history s))).
Proof.
  assert (Hh : forall trace h h' s, snd (run trace h s) = snd (run trace h' s)).
  { induction trace as [|[r now] rest IH]; intros h h' s; cbn [run]; auto.
    destruct (step r now s) as [seen s']. apply IH. }
  induction trace1 as [|[r now] rest IH]; intros history s; cbn [run app].
  - apply Hh.
  - destruct (step r now s) as [seen s']. apply IH.
Qed.

Lemma run_history_irrelevant trace : forall history history' s,
  snd (run trace history s) = snd (run trace history' s).
Proof.
  induction trace as [|[r now] rest IH]; intros h h' s; cbn [run]; auto.
  destruct (step r now s) as [seen s']. apply IH.
Qed.

Lemma reachable_has_history s :
  reachable s -> exists history, run_invariant history s.
Proof.
  intros (instances & t0 & trace & <-).
  exists (fst (run trace [] (initial instances t0))).
  apply AutoLeadFacts.al_run_keeps_invariant, AutoLeadFacts.al_initial_invariant.
Qed.

Lemma al_reachable_step r now s : reachable s -> reachable (snd (step r now s)).
Proof.
  intros (instances & t0 & trace & <-).
  exists instances, t0, (trace ++ [(r, now)])%list. apply al_run_snoc.
Qed.

Lemma reachable_run trace s : reachable s -> reachable (snd (run trace [] s)).
Proof.
  intros (instances & t0 & trace0 & <-).
  exists instances, t0, (trace0 ++ trace)%list. apply run_app.
Qed.

(** ** The configured list *)

Lemma deactivate_names n l : map name (deactivate n l) = map name l.
Proof.
  induction l as [|a r IH]; cbn [deactivate map]; [reflexivity|].
  destruct (name a =? n)%string; cbn [map name]; congruence.
Qed.


End EngineFacts.


(* ================================================================== *)
(** * The store follows the observed history *)
(* ================================================================== *)

Module TrackingFacts.
Import Lifecycle Tracking.

Section Store.
Context {C : Type} (waiting : C -> bool) (current : C -> option string).



End Store.

(** ** [src/index.js] *)





(** ** [src/unnamed/part_001] *)







(** ** What a waiting conversation carries *)



End TrackingFacts.


(* ================================================================== *)
(** * The claims of the specification *)
(* ================================================================== *)

(** ** C1: the response to an activated checkpoint *)








(** ** C2: a timeout that fires after the response *)

(** C2 (a defect of the code): in [src/unnamed/part_001] the handler
    [handleCheckpointTimeout(phone, K)], invoked after a response has
    resolved K, is not a no-op.  At the example client, resolved and no
    longer waiting, it sends a checkpoint_timeout notification, turns the
    status from active to timeout and counts a timeout on the instance.
    The run [Examples.al_colliding_trace] shows the handler really invoked
    so: the history ends with the client a_b resolved and then timed out. *)
Theorem C2_timeout_after_resolve_takes_effect :
  (exists conv,
     JsMap.get Examples.phone (AutoLead.conversationState Examples.al_resolved)
     = Some conv /\
     AutoLead.Conv.waiting_response conv = false /\
     AutoLead.Conv.status conv = "active") /\
  (exists st,
     JsMap.get "G08" (AutoLead.instanceStats Examples.al_resolved) = Some st /\
     AutoLead.Stats.timeouts st = 0%float) /\
  fst (AutoLead.handleCheckpointTimeout Examples.phone "confirm_interest" 70000
         Examples.al_resolved)
  = [AutoLead.checkpoint_timeout Examples.phone "confirm_interest" "G08"] /\
  (exists conv',
     JsMap.get Examples.phone
       (AutoLead.conversationState
          (snd (AutoLead.handleCheckpointTimeout Examples.phone
                  "confirm_interest" 70000 Examples.al_resolved)))
     = Some conv' /\
     AutoLead.Conv.status conv' = "timeout") /\
  (exists st',
     JsMap.get "G08"
       (AutoLead.instanceStats
          (snd (AutoLead.handleCheckpointTimeout Examples.phone
                  "confirm_interest" 70000 Examples.al_resolved)))
     = Some st' /\
     AutoLead.Stats.timeouts st' = 1%float) /\
  fst (AutoLead.run Examples.al_colliding_trace [] Examples.al_initial)
  = [ Lifecycle.Created "a_b"; Lifecycle.Created "a";
      Lifecycle.CheckpointActivated "a_b" "c";
      Lifecycle.CheckpointActivated "a" "b_c";
      Lifecycle.Resolved "a_b"; Lifecycle.TimedOut "a_b" ].
Proof.
  split; [eexists; split; [reflexivity|split; reflexivity]|].
  split; [eexists; split; reflexivity|].
  split; [reflexivity|].
  split; [eexists; split; reflexivity|].
  split; [eexists; split; reflexivity|].
  reflexivity.
Qed.

(** ** C3: a response when nothing is awaited *)

Lemma reachable_run_invariant s :
  AutoLead.reachable s ->
  exists history, AutoLeadSpec.run_invariant history s.
Proof.
  intros (instances & t0 & trace & <-).
  exists (fst (AutoLead.run trace [] (AutoLead.initial instances t0))).
  apply AutoLeadFacts.al_run_keeps_invariant, AutoLeadFacts.al_initial_invariant.
Qed.

(** In a reachable state of [src/unnamed/part_001] a waiting conversation
    has a current checkpoint. *)
Lemma reachable_waiting_has_checkpoint s phone conv :
  AutoLead.reachable s ->
  JsMap.get phone (AutoLead.conversationState s) = Some conv ->
  AutoLead.Conv.waiting_response conv = true ->
  AutoLead.Conv.current_checkpoint conv <> None.
Proof.
  intros Hr Hget Hw. destruct (reachable_run_invariant s Hr) as (history & _ & Hinv).
  destruct (proj1 (Hinv phone conv Hget) Hw) as (K & HK & _).
  rewrite HK. discriminate.
Qed.

(** C3: a resolve call on an existing conversation whose waiting flag is
    false or whose current checkpoint is null returns the NotWaiting error
    and leaves the whole state as it was (logging is outside the state):
    in [src/index.js] in every state, in [src/unnamed/part_001] in every
    state the server can reach. *)
Theorem C3_resolve_when_not_waiting :
  (forall s phone response now state,
     JsMap.get phone (MultiCheckpoint.conversationState s) = Some state ->
     MultiCheckpoint.Conv.waiting_for_response state = false \/
     MultiCheckpoint.Conv.current_checkpoint state = None ->
     MultiCheckpoint.processClientResponse phone response now s
     = (MultiCheckpoint.ResponseFailed MultiCheckpoint.NotWaiting, s))
  /\
  (forall s phone message now conv,
     AutoLead.reachable s ->
     JsMap.get phone (AutoLead.conversationState s) = Some conv ->
     AutoLead.Conv.waiting_response conv = false \/
     AutoLead.Conv.current_checkpoint conv = None ->
     AutoLead.processCheckpointResponse phone message now s
     = (AutoLead.ResponseFailed AutoLead.NotWaiting, s)).
Proof.
  split.
  - intros s phone response now state Hget H.
    unfold MultiCheckpoint.processClientResponse. rewrite Hget.
    destruct H as [-> | ->]; [reflexivity|].
    cbn. now rewrite orb_true_r.
  - intros s phone message now conv Hr Hget H.
    assert (Hw : AutoLead.Conv.waiting_response conv = false).
    { destruct H as [H|H]; [assumption|].
      destruct (AutoLead.Conv.waiting_response conv) eqn:Hw; [|reflexivity].
      now destruct (reachable_waiting_has_checkpoint s phone conv Hr Hget Hw). }
    unfold AutoLead.processCheckpointResponse. now rewrite Hget, Hw.
Qed.

(** The theorem at the example client: registered but never activated in
    [src/index.js]; already resolved in [src/unnamed/part_001]. *)
Lemma C3_resolve_when_not_waiting_witness :
  MultiCheckpoint.processClientResponse Examples.phone "yes" 5000
    Examples.mc_started
  = (MultiCheckpoint.ResponseFailed MultiCheckpoint.NotWaiting,
     Examples.mc_started)
  /\
  AutoLead.processCheckpointResponse Examples.phone "again" 6000
    Examples.al_resolved
  = (AutoLead.ResponseFailed AutoLead.NotWaiting, Examples.al_resolved).
Proof.
  split.
  - apply (proj1 C3_resolve_when_not_waiting Examples.mc_started Examples.phone
             "yes" 5000 Examples.mc_conversation).
    + reflexivity.
    + left. reflexivity.
  - apply (proj2 C3_resolve_when_not_waiting Examples.al_resolved Examples.phone
             "again" 6000
             (resolved_conversation
                (activated_conversation Examples.al_conversation
                   "confirm_interest" 2000) "yes" 5000)).
    + exists AutoLead.INSTANCES_configured, 0, Examples.al_resolved_trace.
      reflexivity.
    + reflexivity.
    + left. reflexivity.
Defined.

(** ** C4: the transition taken when a timeout fires *)






(** ** C5: the waiting flag and the life cycle *)

(** C5: in every state that a run of requests (create, activate, resolve,
    timeout, sweeper pass) reaches from start-up, a conversation's
    waiting-for-response flag is true if and only if its current checkpoint
    is non-null and is the checkpoint whose activation has been followed by
    no resolving response and no timeout.  The proof goes through
    [mc_step_invariant] and [al_step_invariant]: every request preserves
    the invariant. *)
Theorem C5_waiting_iff_unresolved :
  (forall instances t0 trace phone state,
     let history :=
       fst (MultiCheckpoint.run instances trace []
              (MultiCheckpoint.initial instances t0)) in
     let s :=
       snd (MultiCheckpoint.run instances trace []
              (MultiCheckpoint.initial instances t0)) in
     JsMap.get phone (MultiCheckpoint.conversationState s) = Some state ->
     (MultiCheckpoint.Conv.waiting_for_response state = true <->
      exists checkpoint,
        MultiCheckpoint.Conv.current_checkpoint state = Some checkpoint /\
        Lifecycle.unresolved history phone = Some checkpoint))
  /\
  (forall instances t0 trace phone conv,
     let history :=
       fst (AutoLead.run trace [] (AutoLead.initial instances t0)) in
     let s :=
       snd (AutoLead.run trace [] (AutoLead.initial instances t0)) in
     JsMap.get phone (AutoLead.conversationState s) = Some conv ->
     (AutoLead.Conv.waiting_response conv = true <->
      exists checkpoint,
        AutoLead.Conv.current_checkpoint conv = Some checkpoint /\
        Lifecycle.unresolved history phone = Some checkpoint)).
Proof.
  split.
  - intros instances t0 trace phone state history s.
    destruct (MultiCheckpointFacts.mc_run_keeps_invariant instances trace []
                (MultiCheckpoint.initial instances t0)
                (MultiCheckpointFacts.mc_initial_invariant instances t0))
      as [_ Hinv].
    apply Hinv.
  - intros instances t0 trace phone conv history s.
    destruct (AutoLeadFacts.al_run_keeps_invariant trace []
                (AutoLead.initial instances t0)
                (AutoLeadFacts.al_initial_invariant instances t0))
      as [_ Hinv].
    apply Hinv.
Qed.

(** The theorem at the example client: waiting on confirm_interest after
    its activation in [src/index.js]; resolved, hence not waiting although
    its current checkpoint is still set, in [src/unnamed/part_001]. *)
Lemma C5_waiting_iff_unresolved_witness :
  (true = true <->
   exists checkpoint,
     Some "confirm_interest" = Some checkpoint /\
     Lifecycle.unresolved
       (fst (MultiCheckpoint.run MultiCheckpoint.INSTANCES
               Examples.mc_activated_trace []
               (MultiCheckpoint.initial MultiCheckpoint.INSTANCES 0)))
       Examples.phone = Some checkpoint)
  /\
  (false = true <->
   exists checkpoint,
     Some "confirm_interest" = Some checkpoint /\
     Lifecycle.unresolved
       (fst (AutoLead.run Examples.al_resolved_trace []
               (AutoLead.initial AutoLead.INSTANCES_configured 0)))
       Examples.phone = Some checkpoint).
Proof.
  split.
  - refine (proj1 C5_waiting_iff_unresolved MultiCheckpoint.INSTANCES 0
              Examples.mc_activated_trace Examples.phone
              (MultiCheckpoint.Conv.mk Examples.phone "Cliente" "G01"
                 (Some "confirm_interest") [] [] 1000 2000 86402000 "active" 0
                 true None None) _).
    reflexivity.
  - refine (proj2 C5_waiting_iff_unresolved AutoLead.INSTANCES_configured 0
              Examples.al_resolved_trace Examples.phone
              (resolved_conversation
                 (activated_conversation Examples.al_conversation
                    "confirm_interest" 2000) "yes" 5000) _).
    reflexivity.
Defined.

(** ** C6: the table of pending timeouts *)

(** C6 (a defect of the code): in [src/unnamed/part_001] the entry of
    [checkpointTimeouts] is removed on resolution but not on firing.  The
    timer of the waiting example client fires: no timer is pending any
    more and the conversation has timed out, yet the table still holds the
    fired timer under the key of (client, confirm_interest), and its size,
    which the status route reports as active checkpoints, is still 1.
    Activation does supersede the client's timer as long as the string
    keys of two (client, checkpoint) pairs do not collide
    ([TimerFacts.activations_one_timer]); when they do, as in
    [Examples.al_two_timers_trace], two timers of one client are pending
    at once. *)
Theorem C6_fired_timer_stays_in_table :
  AutoLead.timers Examples.al_activated
  = [(0, AutoLead.mkTimer Examples.phone "confirm_interest" 60000)] /\
  AutoLead.timers (snd (AutoLead.fire_timer 0 62000 Examples.al_activated)) = [] /\
  (exists conv,
     JsMap.get Examples.phone
       (AutoLead.conversationState
          (snd (AutoLead.fire_timer 0 62000 Examples.al_activated))) = Some conv /\
     AutoLead.Conv.waiting_response conv = false /\
     AutoLead.Conv.status conv = "timeout") /\
  JsMap.get (AutoLead.timeoutKey Examples.phone (Some "confirm_interest"))
    (AutoLead.checkpointTimeouts
       (snd (AutoLead.fire_timer 0 62000 Examples.al_activated))) = Some 0 /\
  JsMap.size
    (AutoLead.checkpointTimeouts
       (snd (AutoLead.fire_timer 0 62000 Examples.al_activated))) = 1 /\
  AutoLeadSpec.pending_for "a_b"
    (snd (AutoLead.run Examples.al_two_timers_trace [] Examples.al_initial))
  = [ (0, AutoLead.mkTimer "a_b" "c" 60000);
      (2, AutoLead.mkTimer "a_b" "d" 60000) ].
Proof.
  split; [reflexivity|]. split; [reflexivity|].
  split; [eexists; split; [reflexivity|split; reflexivity]|].
  split; [reflexivity|]. split; reflexivity.
Qed.

(** ** C7: what a sweeper pass evicts *)




(** ** C8: the score and the instance it selects *)

(** C8: [getBestInstance] scores each unblocked instance, whose count of
    active conversations is a number, as the weighted sum of the spec, in
    IEEE double arithmetic: 0.4 times the load factor, which is
    100 - 2 * active_conversations when that is positive and 0 otherwise
    and so never negative, plus 0.3 * response_rate, plus
    0.2 * health_score, plus 0.1 times the recency bonus, 10 if the
    instance was active less than 300000 ms ago and 0 otherwise.
    Whenever some unblocked instance scores above the loop's initial best
    score of -1, [getBestInstance] returns an unblocked instance of the
    pool that no unblocked instance outscores and that every unblocked
    instance before it in iteration order scores strictly below (it is
    never matched or beaten by an earlier one), and leaves the state as
    it is. *)
Theorem C8_best_instance_is_first_maximum :
  (forall now st,
     PrimFloat.is_nan (MultiCheckpoint.Stats.active_conversations st) = false ->
     MultiCheckpoint.finalScore now st =
     (MultiCheckpointSpec.load_factor
        (MultiCheckpoint.Stats.active_conversations st) * 0.4
      + MultiCheckpoint.Stats.response_rate st * 0.3
      + MultiCheckpoint.Stats.health_score st * 0.2
      + MultiCheckpointSpec.recency_bonus now
          (MultiCheckpoint.Stats.last_activity st) * 0.1)%float)
  /\
  (forall active_conversations,
     (0 <=? MultiCheckpointSpec.load_factor active_conversations)%float = true)
  /\
  (forall instances now s,
     (exists n0 st0,
        In (n0, st0) (MultiCheckpoint.instanceStats s) /\
        MultiCheckpoint.Stats.blocked st0 = false /\
        (-1 <? MultiCheckpoint.finalScore now st0)%float = true) ->
     (forall n st, In (n, st) (MultiCheckpoint.instanceStats s) -> n <> EmptyString) ->
     exists pre n st post,
       MultiCheckpoint.getBestInstance instances now s = Some (n, s) /\
       MultiCheckpoint.instanceStats s = (pre ++ (n, st) :: post)%list /\
       MultiCheckpoint.Stats.blocked st = false /\
       (forall n' st',
          In (n', st') (MultiCheckpoint.instanceStats s) ->
          MultiCheckpoint.Stats.blocked st' = false ->
          (MultiCheckpoint.finalScore now st
           <? MultiCheckpoint.finalScore now st')%float = false) /\
       (forall n' st',
          In (n', st') pre ->
          MultiCheckpoint.Stats.blocked st' = false ->
          (MultiCheckpoint.finalScore now st
           <=? MultiCheckpoint.finalScore now st')%float = false)).
Proof.
  split; [|split].
  { exact MultiCheckpointFacts.mc_finalScore_weighted. }
  { exact MultiCheckpointFacts.mc_load_factor_nonneg. }
  intros instances now s (n0 & st0 & Hin0 & Hb0 & Hs0) Hnames.
  destruct (MultiCheckpointFacts.mc_getBestInstance_loop_spec now
              (MultiCheckpoint.instanceStats s) None (-1)%float)
    as [[_ Hall]|(pre & n & st & post & Hloop & Hsplit & Hnb & _ & Hpre & Hmax)].
  - specialize (Hall n0 st0 Hin0 Hb0). unfold JS.gt in Hall. congruence.
  - exists pre, n, st, post.
    assert (Hn : n <> EmptyString).
    { apply (Hnames n st). rewrite Hsplit. apply in_elt. }
    unfold MultiCheckpoint.getBestInstance. rewrite Hloop. cbn [fst JS.truthy_opt].
    rewrite (JSFacts.truthy_nonempty n Hn). cbn [JS.template].
    repeat split; auto.
Qed.

(** In every state a run of [src/index.js] reaches, every instance is
    unblocked and scores above -1: the hypothesis of the theorem holds as
    soon as there is an instance. *)
Lemma reachable_scores_above_floor instances t0 trace now n st :
  In (n, st)
     (MultiCheckpoint.instanceStats
        (snd (MultiCheckpoint.run instances trace []
                (MultiCheckpoint.initial instances t0)))) ->
  MultiCheckpoint.Stats.blocked st = false /\
  (-1 <? MultiCheckpoint.finalScore now st)%float = true.
Proof.
  intros Hin.
  destruct (StatsFacts.reachable_in_range instances t0 trace n st Hin) as [Hb Hr].
  split; [assumption|].
  exact (MultiCheckpointFacts.mc_finalScore_above_minus_one now st Hr).
Qed.

(** The theorem at two states.  At the example client's state, half a
    second after its registration on G01, G02 is selected, the first of
    the nine instances that tie at the top; G01, before it, scores lower.
    At [Examples.mc_loaded] the floor decides: G01, with sixty active
    conversations, has load factor 0 (not -20) and a score of 50, and is
    selected over G02, which scores 46. *)
Lemma C8_best_instance_is_first_maximum_witness :
  (exists pre st post,
     MultiCheckpoint.getBestInstance MultiCheckpoint.INSTANCES 1500
       Examples.mc_started = Some ("G02", Examples.mc_started) /\
     MultiCheckpoint.instanceStats Examples.mc_started
     = (pre ++ ("G02", st) :: post)%list /\
     (forall n' st',
        In (n', st') pre ->
        MultiCheckpoint.Stats.blocked st' = false ->
        (MultiCheckpoint.finalScore 1500 st
         <=? MultiCheckpoint.finalScore 1500 st')%float = false))
  /\
  (MultiCheckpointSpec.load_factor 60 = 0%float /\
   MultiCheckpoint.finalScore 1000000
     (MultiCheckpoint.Stats.mk 60 60 0 100 0 100 false) = 50%float /\
   MultiCheckpoint.finalScore 1000000
     (MultiCheckpoint.Stats.mk 0 0 0 0 0 30 false) = 46%float /\
   MultiCheckpoint.getBestInstance MultiCheckpoint.INSTANCES 1000000
     Examples.mc_loaded = Some ("G01", Examples.mc_loaded)).
Proof.
  split.
  - destruct (proj2 (proj2 C8_best_instance_is_first_maximum)
                MultiCheckpoint.INSTANCES 1500 Examples.mc_started)
      as (pre & n & st & post & Hr & Hsplit & _ & _ & Hpre).
    + exists "G01", (MultiCheckpoint.Stats.mk 1 1 0 100 1000 100 false).
      split; [left; reflexivity|]. split; reflexivity.
    + intros n st Hin. cbn in Hin.
      repeat (destruct Hin as [[= <- _]|Hin]; [discriminate|]). destruct Hin.
    + exists pre, st, post.
      assert (Hn : n = "G02").
      { assert (E : MultiCheckpoint.getBestInstance MultiCheckpoint.INSTANCES 1500
                      Examples.mc_started
                    = Some ("G02", Examples.mc_started)) by reflexivity.
        rewrite E in Hr. now injection Hr. }
      subst n. repeat split; assumption.
  - split; [vm_compute; reflexivity|]. split; [|split].
    + rewrite (proj1 C8_best_instance_is_first_maximum 1000000
                 (MultiCheckpoint.Stats.mk 60 60 0 100 0 100 false) eq_refl).
      vm_compute. reflexivity.
    + rewrite (proj1 C8_best_instance_is_first_maximum 1000000
                 (MultiCheckpoint.Stats.mk 0 0 0 0 0 30 false) eq_refl).
      vm_compute. reflexivity.
    + destruct (proj2 (proj2 C8_best_instance_is_first_maximum)
                  MultiCheckpoint.INSTANCES 1000000 Examples.mc_loaded)
        as (pre & n & st & post & Hr & _).
      * exists "G01", (MultiCheckpoint.Stats.mk 60 60 0 100 0 100 false).
        split; [left; reflexivity|]. split; reflexivity.
      * intros n st [[= <- _]|[[= <- _]|[]]]; discriminate.
      * assert (E : MultiCheckpoint.getBestInstance MultiCheckpoint.INSTANCES
                      1000000 Examples.mc_loaded
                    = Some ("G01", Examples.mc_loaded)) by reflexivity.
        exact E.
Defined.

(** ** C9: blocked instances and the fallback *)

Lemma getNextInstance_available now s :
  filter (AutoLead.is_available (AutoLead.instanceStats s)) (AutoLead.INSTANCES s)
    <> [] ->
  0 <= AutoLead.instanceRotationCounter s ->
  exists i,
    fst (AutoLead.getNextInstance now s) = Some i /\
    In i (AutoLead.INSTANCES s) /\
    AutoLead.is_available (AutoLead.instanceStats s) i = true.
Proof.
  intros Hne Hc. unfold AutoLead.getNextInstance.
  set (av := filter _ (AutoLead.INSTANCES s)) in *.
  assert (Hlen : (0 < List.length av)%nat) by (destruct av; cbn; [congruence|lia]).
  destruct (Nat.eqb_spec (List.length av) 0); [lia|].
  rewrite JSFacts.nth_rem by assumption.
  destruct (nth_error av _) as [i|] eqn:E.
  - exists i. cbn [fst]. split; [reflexivity|].
    apply nth_error_In in E. now apply filter_In in E.
  - apply nth_error_None in E.
    pose proof (Nat.mod_upper_bound
                  (Z.to_nat (AutoLead.instanceRotationCounter s)) (List.length av)).
    lia.
Qed.




(** ** C10: the first message of an unknown client *)

Lemma getNextInstance_some now s :
  AutoLead.INSTANCES s <> [] ->
  0 <= AutoLead.instanceRotationCounter s ->
  exists instance, fst (AutoLead.getNextInstance now s) = Some instance.
Proof.
  intros Hne Hc.
  destruct (filter (AutoLead.is_available (AutoLead.instanceStats s))
                   (AutoLead.INSTANCES s)) as [|a av] eqn:E.
  - unfold AutoLead.getNextInstance. rewrite E. cbn.
    destruct (AutoLead.INSTANCES s) as [|i r]; [congruence|]. now exists i.
  - destruct (getNextInstance_available now s) as (i & Hi & _); auto.
    + rewrite E. discriminate.
    + now exists i.
Qed.

(** C10 (as amended): in [src/unnamed/part_001] every inbound client
    message (not an echo, text not blank) from a client with no
    conversation creates, on this first contact, a conversation for that
    client assigned to the instance [getNextInstance] selects (the
    instance list being non-empty), and announces it as a new lead.  In
    [src/index.js] such a message leaves the state as it is and sends
    nothing; there a conversation is created by the start-conversation
    request, assigned to the instance [getBestInstance] selects. *)
Theorem C10_first_contact :
  (forall body now s messageData k,
     AutoLead.data body = Some messageData ->
     AutoLead.key messageData = Some k ->
     AutoLead.fromMe k = false ->
     JS.trim_truthy (AutoLead.messageContent messageData) = true ->
     let phone := JS.replace "@s.whatsapp.net" EmptyString (AutoLead.remoteJid k) in
     JsMap.get phone (AutoLead.conversationState s) = None ->
     AutoLead.INSTANCES s <> [] ->
     0 <= AutoLead.instanceRotationCounter s ->
     exists instance,
       fst (AutoLead.getNextInstance now s) = Some instance /\
       fst (AutoLead.webhook_evolution body now s)
       = (AutoLead.WebhookNewLeadCreated,
          [AutoLead.new_lead phone "Cliente" (AutoLead.name instance)
             (AutoLead.id instance) (AutoLead.messageContent messageData)
             "whatsapp_direto"]) /\
       JsMap.get phone
         (AutoLead.conversationState (snd (AutoLead.webhook_evolution body now s)))
       = Some (AutoLead.Conv.mk phone "Cliente" (AutoLead.name instance)
                 (AutoLead.id instance) "whatsapp_direto" None [] false now now
                 "active" None))
  /\
  (forall instances body now s messageData k,
     MultiCheckpoint.data body = Some messageData ->
     MultiCheckpoint.key messageData = Some k ->
     JsMap.get (JS.replace "@s.whatsapp.net" EmptyString (MultiCheckpoint.remoteJid k))
               (MultiCheckpoint.conversationState s) = None ->
     MultiCheckpoint.webhook_evolution instances body now s = ([], s))
  /\
  (forall instances body now s phone n s1,
     MultiCheckpoint.sb_client_phone body = Some phone ->
     phone <> EmptyString ->
     JsMap.get phone (MultiCheckpoint.conversationState s) = None ->
     MultiCheckpoint.getBestInstance instances now s = Some (n, s1) ->
     fst (MultiCheckpoint.start_conversation instances body now s)
     = MultiCheckpoint.StartCreated phone n
         (MultiCheckpoint.getInstanceApiKey instances n) /\
     JsMap.get phone
       (MultiCheckpoint.conversationState
          (snd (MultiCheckpoint.start_conversation instances body now s)))
     = Some (MultiCheckpoint.createConversationState phone
               (if JS.truthy_opt (MultiCheckpoint.sb_client_name body)
                then JS.template (MultiCheckpoint.sb_client_name body)
                else "Cliente") n now)).
Proof.
  split; [|split].
  - intros body now s messageData k Hdata Hkey Hme Htext phone Hget Hne Hc.
    destruct (getNextInstance_some now s Hne Hc) as (instance & Hi).
    exists instance. split; [assumption|].
    unfold AutoLead.webhook_evolution. rewrite Hdata, Hkey, Hme, Htext.
    fold phone. unfold JsMap.has. rewrite Hget. cbn [negb].
    unfold AutoLead.createConversation.
    destruct (AutoLead.getNextInstance now s) as [o s1]. cbn [fst] in Hi. subst o.
    cbn [fst snd AutoLead.conversationState AutoLead.Conv.instance
         AutoLead.Conv.instance_id].
    split; [reflexivity|]. apply JsMapFacts.get_set_eq.
  - intros instances body now s messageData k Hdata Hkey Hget.
    unfold MultiCheckpoint.webhook_evolution. rewrite Hdata, Hkey.
    destruct (_ && _); [|reflexivity].
    unfold MultiCheckpoint.processClientResponse. now rewrite Hget.
  - intros instances body now s phone n s1 Hphone Hne Hget Hbest.
    unfold MultiCheckpoint.start_conversation. rewrite Hphone.
    cbn [JS.truthy_opt JS.template].
    rewrite (JSFacts.truthy_nonempty phone Hne). cbn [negb].
    rewrite Hget, Hbest. cbn [fst snd MultiCheckpoint.conversationState].
    split; [reflexivity|]. apply JsMapFacts.get_set_eq.
Qed.

(** The theorem at the example client: its first message creates its
    conversation in [src/unnamed/part_001]; in [src/index.js] the same
    message changes nothing and the start-conversation request creates the
    conversation on G01. *)
Lemma C10_first_contact_witness :
  JsMap.get Examples.phone (AutoLead.conversationState Examples.al_started)
  = Some Examples.al_conversation
  /\
  MultiCheckpoint.webhook_evolution MultiCheckpoint.INSTANCES
    (Examples.mc_message "5511999999999@s.whatsapp.net" "oi") 1000
    Examples.mc_initial = ([], Examples.mc_initial)
  /\
  JsMap.get Examples.phone (MultiCheckpoint.conversationState Examples.mc_started)
  = Some Examples.mc_conversation.
Proof.
  split; [|split].
  - destruct (proj1 C10_first_contact
                (Examples.al_message "5511999999999@s.whatsapp.net" "oi") 1000
                Examples.al_initial
                {| AutoLead.key :=
                     Some {| AutoLead.remoteJid := "5511999999999@s.whatsapp.net";
                             AutoLead.fromMe := false |};
                   AutoLead.message_conversation := Some "oi";
                   AutoLead.message_extendedText := None |}
                {| AutoLead.remoteJid := "5511999999999@s.whatsapp.net";
                   AutoLead.fromMe := false |}
                eq_refl eq_refl eq_refl eq_refl eq_refl
                ltac:(discriminate) ltac:(discriminate))
      as (instance & Hi & _ & Hget).
    assert (E : instance
                = {| AutoLead.name := "G08";
                     AutoLead.id := "A63C380B277D-4A5E-9ECD-48710291E5A6";
                     AutoLead.active := true |})
      by (cbn in Hi; now injection Hi).
    subst instance. exact Hget.
  - apply (proj1 (proj2 C10_first_contact) MultiCheckpoint.INSTANCES
             (Examples.mc_message "5511999999999@s.whatsapp.net" "oi") 1000
             Examples.mc_initial
             {| MultiCheckpoint.key :=
                  Some {| MultiCheckpoint.remoteJid := "5511999999999@s.whatsapp.net";
                          MultiCheckpoint.fromMe := false |};
                MultiCheckpoint.message_conversation := Some "oi" |}
             {| MultiCheckpoint.remoteJid := "5511999999999@s.whatsapp.net";
                MultiCheckpoint.fromMe := false |} eq_refl eq_refl eq_refl).
  - destruct (proj2 (proj2 C10_first_contact) MultiCheckpoint.INSTANCES
                {| MultiCheckpoint.sb_client_phone := Some Examples.phone;
                   MultiCheckpoint.sb_client_name := None |} 1000
                Examples.mc_initial Examples.phone "G01" Examples.mc_initial
                eq_refl ltac:(discriminate) eq_refl eq_refl)
      as (Hr & Hget).
    exact Hget.
Defined.

(** C10 as stated fails on [src/index.js]: the first message of the
    unknown example client is processed, nothing is sent, and afterwards
    there is still no conversation for that client. *)
Lemma C10_counterexample_webhook_creates_nothing :
  JsMap.get Examples.phone (MultiCheckpoint.conversationState Examples.mc_initial)
  = None /\
  fst (MultiCheckpoint.webhook_evolution MultiCheckpoint.INSTANCES
         (Examples.mc_message "5511999999999@s.whatsapp.net" "oi") 1000
         Examples.mc_initial) = [] /\
  JsMap.get Examples.phone
    (MultiCheckpoint.conversationState
       (snd (MultiCheckpoint.webhook_evolution MultiCheckpoint.INSTANCES
               (Examples.mc_message "5511999999999@s.whatsapp.net" "oi") 1000
               Examples.mc_initial))) = None.
Proof. repeat split; reflexivity. Qed.


(* ================================================================== *)
(** * Further properties of [src/index.js] *)
(* ================================================================== *)

Module IndexJs.
Import MultiCheckpoint MultiCheckpointLife MultiCheckpointStatus.

Lemma getInstanceApiKey_configured instances n :
  In n (map name instances) ->
  exists i, In i instances /\ name i = n /\
            getInstanceApiKey instances n = Some (id i).
Proof.
  unfold getInstanceApiKey. intros Hin.
  destruct (find (fun i => (name i =? n)%string) instances) as [i|] eqn:E.
  - apply find_some in E as [Hi Hn]. apply String.eqb_eq in Hn. eauto.
  - apply in_map_iff in Hin as (i & Hn & Hi).
    apply (find_none _ _ E) in Hi. rewrite Hn, String.eqb_refl in Hi. discriminate.
Qed.

Lemma reachable_conversation_configured instances s phone state :
  reachable instances s ->
  JsMap.get phone (conversationState s) = Some state ->
  Conv.client_phone state = phone /\
  In (Conv.instance state) (map name instances).
Proof.
  intros Hr.
  apply (StoreFacts.reachable_store_all instances
           (fun phone state => Conv.client_phone state = phone /\
                               In (Conv.instance state) (map name instances))).
  - intros; split; [reflexivity|assumption].
  - intros ? ? ? ? ? _ H. exact H.
  - intros ? ? ? ? ? _ _ _ H. exact H.
  - intros ? ? H. exact H.
  - exact Hr.
Qed.

(** X1 ([getBestInstance], [updateInstanceStats]): with at least one
    configured instance and no instance without a name, selection in
    [src/index.js] always succeeds by score.  In every state a run from
    start-up reaches, at any clock reading, [getBestInstance] returns the
    name of a configured instance and leaves the state as it is; the
    round-robin fallback is never taken, and [instanceCounter] is still 0. *)
Theorem selection_never_falls_back instances t0 trace now :
  instances <> [] ->
  forallb (fun i => JS.truthy (name i)) instances = true ->
  let s := snd (run instances trace [] (initial instances t0)) in
  instanceCounter s = 0 /\
  exists n, getBestInstance instances now s = Some (n, s) /\
            In n (map name instances).
Proof.
  intros Hne Hnames s.
  assert (Hnames' : forall i, In i instances -> name i <> EmptyString).
  { intros i Hi E. rewrite forallb_forall in Hnames. specialize (Hnames i Hi).
    rewrite E in Hnames. discriminate. }
  assert (Hr : reachable instances s) by (exists t0, trace; reflexivity).
  destruct (StoreFacts.mc_reachable_well_formed _ _ Hr) as [Hwf Hpool].
  split.
  - unfold s.
    rewrite (PoolFacts.run_counter instances trace [] (initial instances t0));
      auto.
    + apply StoreFacts.initial_well_formed.
    + apply (PoolFacts.reachable_pool_in_range instances). exists t0, []. reflexivity.
  - apply PoolFacts.getBestInstance_scored; auto.
    exact (PoolFacts.reachable_pool_in_range instances s Hr).
Qed.

(** The theorem for the shipped instance list, after the example client
    was registered and given a checkpoint. *)
Lemma selection_never_falls_back_witness :
  let s := snd (run INSTANCES Examples.mc_activated_trace [] (initial INSTANCES 0)) in
  instanceCounter s = 0 /\
  exists n, getBestInstance INSTANCES 3000 s = Some (n, s) /\
            In n (map name INSTANCES).
Proof.
  apply (selection_never_falls_back INSTANCES 0 Examples.mc_activated_trace 3000).
  - discriminate.
  - reflexivity.
Defined.

(** X2 ([createConversationState], [getInstanceApiKey], the
    start-conversation route): in every state a run from start-up
    reaches, a conversation is stored under its own [client_phone], its
    instance is a configured one, and the API key the routes report for it
    is the [id] of a configured instance of that name, never [null]. *)
Theorem conversation_instance_is_configured instances t0 trace phone state :
  JsMap.get phone
    (conversationState (snd (run instances trace [] (initial instances t0))))
  = Some state ->
  Conv.client_phone state = phone /\
  exists i, In i instances /\ name i = Conv.instance state /\
            getInstanceApiKey instances (Conv.instance state) = Some (id i).
Proof.
  intros Hget.
  assert (H : Conv.client_phone state = phone /\
              In (Conv.instance state) (map name instances)).
  { eapply reachable_conversation_configured; [|exact Hget].
    exists t0, trace. reflexivity. }
  destruct H as [Hp Hi]. split; [assumption|].
  now apply getInstanceApiKey_configured.
Qed.

Lemma conversation_instance_is_configured_witness :
  Conv.client_phone Examples.mc_conversation = Examples.phone /\
  exists i, In i INSTANCES /\ name i = Conv.instance Examples.mc_conversation /\
            getInstanceApiKey INSTANCES (Conv.instance Examples.mc_conversation)
            = Some (id i).
Proof.
  apply (conversation_instance_is_configured INSTANCES 0
           [ (StartConversation
                {| sb_client_phone := Some Examples.phone;
                   sb_client_name := None |}, 1000) ]
           Examples.phone Examples.mc_conversation).
  reflexivity.
Defined.

(** X3 (the start-conversation route, [cleanupExpiredCheckpoints]): in
    every state a run from start-up reaches, [clientInstanceMap] has an
    entry for exactly the clients of [conversationState], and the entry
    holds the conversation's instance and creation time. *)
Theorem client_instance_map_agrees instances t0 trace phone :
  let s := snd (run instances trace [] (initial instances t0)) in
  JsMap.get phone (clientInstanceMap s)
  = option_map (fun state =>
                  ClientInstance.mk (Conv.instance state) (Conv.created_at state))
               (JsMap.get phone (conversationState s)).
Proof.
  apply (AgreementFacts.run_maps_agree instances trace [] (initial instances t0)).
  - apply StoreFacts.initial_well_formed.
  - intros p. reflexivity.
Qed.

(** X4 ([processClientResponse]): in every state a run from start-up
    reaches, the counter [total_checkpoints_passed] of a conversation is
    the length of its [checkpoint_history], its [responses] name the same
    checkpoints in the same order, and every record carries a non-empty
    checkpoint id. *)
Theorem passed_counter_matches_logs instances t0 trace phone state :
  JsMap.get phone
    (conversationState (snd (run instances trace [] (initial instances t0))))
  = Some state ->
  Conv.total_checkpoints_passed state
  = Z.of_nat (List.length (Conv.checkpoint_history state)) /\
  map Resp.checkpoint_id (Conv.responses state)
  = map Passed.checkpoint_id (Conv.checkpoint_history state) /\
  Forall (fun p => exists checkpointId,
                     Passed.checkpoint_id p = Some checkpointId /\
                     checkpointId <> EmptyString)
         (Conv.checkpoint_history state).
Proof.
  apply (StoreFacts.reachable_store_all instances (fun _ state => logs_agree state)).
  - intros. repeat split. constructor.
  - intros ? ? ? ? ? _ H. exact H.
  - intros ? st msg K now' _ Hc HK (H1 & H2 & H3). unfold logs_agree, resolved.
    cbn [Conv.total_checkpoints_passed Conv.checkpoint_history Conv.responses].
    rewrite !map_app, length_app, H1, H2. cbn [List.length map].
    split; [lia|]. split; [reflexivity|].
    apply Forall_app. split; [assumption|]. constructor; [|constructor].
    exists K. split; assumption.
  - intros ? ? H. exact H.
  - exists t0, trace. reflexivity.
Qed.

(** The theorem after the example client answered its checkpoint. *)
Lemma passed_counter_matches_logs_witness :
  exists state,
    JsMap.get Examples.phone
      (conversationState
         (snd (run INSTANCES
                 (Examples.mc_activated_trace ++
                  [ (WebhookEvolution
                       (Examples.mc_message "5511999999999@s.whatsapp.net" "yes"),
                     5000) ])
                 [] (initial INSTANCES 0))))
    = Some state /\
    Conv.total_checkpoints_passed state = 1 /\
    (Conv.total_checkpoints_passed state
     = Z.of_nat (List.length (Conv.checkpoint_history state)) /\
     map Resp.checkpoint_id (Conv.responses state)
     = map Passed.checkpoint_id (Conv.checkpoint_history state) /\
     Forall (fun p => exists checkpointId,
                        Passed.checkpoint_id p = Some checkpointId /\
                        checkpointId <> EmptyString)
            (Conv.checkpoint_history state)).
Proof.
  eexists. split; [reflexivity|]. split; [reflexivity|].
  apply (passed_counter_matches_logs INSTANCES 0
           (Examples.mc_activated_trace ++
            [ (WebhookEvolution
                 (Examples.mc_message "5511999999999@s.whatsapp.net" "yes"),
               5000) ])
           Examples.phone).
  reflexivity.
Defined.

(** X5 ([updateInstanceStats], [initializeInstanceStats]): in every
    state a run from start-up reaches, every instance is unblocked (no
    route of [src/index.js] sends the blocked event), its response rate is
    a multiple of one half and its health score a whole number, and both
    lie between 0 and 100. *)
Theorem rate_and_health_stay_in_range instances t0 trace n st :
  JsMap.get n (instanceStats (snd (run instances trace [] (initial instances t0))))
  = Some st ->
  Stats.blocked st = false /\
  StatsGrid.on_grid StatsGrid.halves (Stats.response_rate st) = true /\
  StatsGrid.on_grid StatsGrid.units (Stats.health_score st) = true /\
  ((0 <=? Stats.response_rate st)%float && (Stats.response_rate st <=? 100)%float
   && (0 <=? Stats.health_score st)%float && (Stats.health_score st <=? 100)%float)
  = true.
Proof.
  intros Hget. apply JsMapFacts.get_In in Hget.
  assert (Hr : reachable instances
                 (snd (run instances trace [] (initial instances t0))))
    by (exists t0, trace; reflexivity).
  destruct (PoolFacts.reachable_pool_in_range _ _ Hr n st Hget) as [Hb _].
  assert (Hg : stats_on_grid st).
  { revert Hget. apply (PoolFacts.reachable_pool_all instances stats_on_grid); auto.
    - intros now. split; vm_compute; reflexivity.
    - intros action now [total active completed rate last health blk] Ha [H1 H2].
      cbn in H1, H2.
      destruct action; try congruence; split; cbn; auto.
      + now apply GridFacts.halves_up.
      + now apply GridFacts.units_up.
      + now apply GridFacts.halves_down.
      + now apply GridFacts.units_down_5. }
  destruct Hg as [H1 H2]. repeat split; auto.
  pose proof (GridFacts.halves_in_range _ H1) as R1.
  pose proof (GridFacts.units_in_range _ H2) as R2.
  unfold StatsGrid.in_percent_range in R1, R2.
  apply andb_true_iff in R1 as [R1a R1b]. apply andb_true_iff in R2 as [R2a R2b].
  now rewrite R1a, R1b, R2a, R2b.
Qed.

(** The theorem at instance G01 after the example client answered. *)
Lemma rate_and_health_stay_in_range_witness :
  exists st,
    JsMap.get "G01" (instanceStats Examples.mc_activated) = Some st /\
    Stats.blocked st = false /\
    StatsGrid.on_grid StatsGrid.halves (Stats.response_rate st) = true /\
    StatsGrid.on_grid StatsGrid.units (Stats.health_score st) = true /\
    ((0 <=? Stats.response_rate st)%float && (Stats.response_rate st <=? 100)%float
     && (0 <=? Stats.health_score st)%float && (Stats.health_score st <=? 100)%float)
    = true.
Proof.
  eexists. split; [reflexivity|].
  apply (rate_and_health_stay_in_range INSTANCES 0 Examples.mc_activated_trace "G01").
  reflexivity.
Defined.

(** X6 ([cleanupExpiredCheckpoints]): the sweeper is idempotent.  In every
    state a run from start-up reaches, a second pass at the same clock
    reading changes nothing: the first pass leaves no conversation that is
    past its deadline while waiting or past the retention time, and no
    history record older than the cut-off. *)
Theorem sweeper_is_idempotent instances t0 trace now :
  let s := snd (run instances trace [] (initial instances t0)) in
  cleanupExpiredCheckpoints now (cleanupExpiredCheckpoints now s)
  = cleanupExpiredCheckpoints now s.
Proof.
  intros s.
  assert (Hwf : JsMap.wf (conversationState s)).
  { apply (StoreFacts.mc_reachable_well_formed instances). exists t0, trace. reflexivity. }
  rewrite (SweeperFacts.cleanup_clean now (cleanupExpiredCheckpoints now s))
    by now apply SweeperFacts.cleanup_leaves_clean.
  unfold cleanupExpiredCheckpoints at 3. cbn [checkpointHistory].
  rewrite SweeperFacts.filter_idempotent. reflexivity.
Qed.

(** X7 ([GET /api/checkpoint-status/:client_phone], [activateCheckpoint]):
    for an unknown client the status route answers 404, also after an
    attempt to activate a checkpoint for it; for a known client, right
    after [activateCheckpoint(phone, K)] at [now] it reports checkpoint K,
    waiting, a deadline of [now] plus 24 hours, and the conversation's
    instance, counter and status as they were: activation does not turn
    an expired conversation active again. *)
Theorem checkpoint_status_after_activation instances phone checkpointId data now s :
  (JsMap.get phone (conversationState s) = None ->
   checkpoint_status instances phone s = CheckpointStatus404 /\
   checkpoint_status instances phone
     (snd (activateCheckpoint phone checkpointId data now s))
   = CheckpointStatus404) /\
  (forall state,
     JsMap.get phone (conversationState s) = Some state ->
     checkpoint_status instances phone
       (snd (activateCheckpoint phone checkpointId data now s))
     = CheckpointStatusJson
         {| cs_client_phone := phone;
            cs_current_checkpoint := Some checkpointId;
            cs_waiting_for_response := true;
            cs_total_checkpoints_passed := Conv.total_checkpoints_passed state;
            cs_last_activity := now;
            cs_expires_at := now + 86400000;
            cs_instance := Conv.instance state;
            cs_instance_apikey := getInstanceApiKey instances (Conv.instance state);
            cs_status := Conv.status state |}).
Proof.
  unfold checkpoint_status, activateCheckpoint. split.
  - intros E. rewrite E. cbn [snd]. rewrite E. split; reflexivity.
  - intros state E. rewrite E. cbn [snd conversationState].
    now rewrite JsMapFacts.get_set_eq.
Qed.

(** The theorem at the example client, registered on G01 and given
    confirm_interest at t = 2000. *)
Lemma checkpoint_status_after_activation_witness :
  checkpoint_status INSTANCES Examples.phone Examples.mc_activated
  = CheckpointStatusJson
      {| cs_client_phone := Examples.phone;
         cs_current_checkpoint := Some "confirm_interest";
         cs_waiting_for_response := true;
         cs_total_checkpoints_passed := 0;
         cs_last_activity := 2000;
         cs_expires_at := 86402000;
         cs_instance := "G01";
         cs_instance_apikey := Some "584F8ACCAA48-488D-A26E-E75E1A5B2994";
         cs_status := "active" |}.
Proof.
  apply (proj2 (checkpoint_status_after_activation INSTANCES Examples.phone
                  "confirm_interest" Examples.mc_no_data 2000 Examples.mc_started)
           Examples.mc_conversation).
  reflexivity.
Defined.

(** X8 ([GET /status]): in every state a run from start-up reaches, the
    per-instance [active_conversations] counts of the status report add
    up to its [total_conversations_active]: every active conversation is
    counted for exactly one instance of the pool. *)
Theorem status_counts_partition instances t0 trace now :
  let s := snd (run instances trace [] (initial instances t0)) in
  total (map i_active_conversations (instance_stats (status now s)))
  = total_conversations_active (checkpoint_stats (status now s)).
Proof.
  intros s.
  assert (Hr : reachable instances s) by (exists t0, trace; reflexivity).
  destruct (StoreFacts.mc_reachable_well_formed _ _ Hr) as [Hwf [Hswf Hkeys]].
  cbn [status instance_stats checkpoint_stats checkpointStats total_conversations_active].
  unfold instanceStatsArray. rewrite map_map.
  rewrite (map_ext _
             (fun entry =>
                Z.of_nat (List.length
                            (filter (is_active_on (fst entry)) (conversationList s)))))
    by (intros [k st]; reflexivity).
  rewrite <- (map_map fst
                (fun k => Z.of_nat (List.length
                                      (filter (is_active_on k) (conversationList s))))).
  apply ReportFacts.count_by_instance; [exact Hswf|].
  intros c Hc. apply Hkeys. unfold conversationList in Hc.
  apply in_map_iff in Hc as ([phone state] & <- & Hin). cbn [c_instance].
  apply (JsMapFacts.In_get _ _ _ Hwf) in Hin.
  exact (proj2 (reachable_conversation_configured instances s phone state Hr Hin)).
Qed.

(** X9 (all four mutating entry points of [src/index.js]): a conversation
    keeps its identity for life.  In every state a run from start-up
    reaches and for every request, a client that has a conversation before
    and after the request has the same phone, name, instance and creation
    time in both, its counter of passed checkpoints has not decreased, and
    a status of expired stays expired. *)
Theorem conversation_keeps_its_identity instances t0 trace r now phone state state' :
  let s := snd (run instances trace [] (initial instances t0)) in
  JsMap.get phone (conversationState s) = Some state ->
  JsMap.get phone (conversationState (snd (step instances r now s))) = Some state' ->
  Conv.client_phone state' = Conv.client_phone state /\
  Conv.client_name state' = Conv.client_name state /\
  Conv.instance state' = Conv.instance state /\
  Conv.created_at state' = Conv.created_at state /\
  Conv.total_checkpoints_passed state <= Conv.total_checkpoints_passed state' /\
  (Conv.status state = "expired" -> Conv.status state' = "expired").
Proof.
  intros s Hget Hget'.
  assert (Hwf : well_formed instances s).
  { apply StoreFacts.mc_reachable_well_formed. exists t0, trace. reflexivity. }
  pose proof (StoreFacts.step_conv_step instances r now s phone Hwf) as Hstep.
  rewrite Hget, Hget' in Hstep.
  inversion Hstep; subst; cbn; repeat split; auto; lia.
Qed.

(** The theorem at the registered example client, for the request that
    activates its checkpoint. *)
Lemma conversation_keeps_its_identity_witness :
  exists state',
    JsMap.get Examples.phone (conversationState Examples.mc_activated) = Some state' /\
    Conv.client_phone state' = Conv.client_phone Examples.mc_conversation /\
    Conv.client_name state' = Conv.client_name Examples.mc_conversation /\
    Conv.instance state' = Conv.instance Examples.mc_conversation /\
    Conv.created_at state' = Conv.created_at Examples.mc_conversation /\
    Conv.total_checkpoints_passed Examples.mc_conversation
    <= Conv.total_checkpoints_passed state' /\
    (Conv.status Examples.mc_conversation = "expired" ->
     Conv.status state' = "expired").
Proof.
  eexists. split; [reflexivity|].
  apply (conversation_keeps_its_identity INSTANCES 0
           [ (StartConversation
                {| sb_client_phone := Some Examples.phone;
                   sb_client_name := None |}, 1000) ]
           (ActivateCheckpoint
              {| ab_client_phone := Some Examples.phone;
                 ab_checkpoint_id := Some "confirm_interest";
                 ab_message := None;
                 ab_step_data := None |})
           2000 Examples.phone Examples.mc_conversation).
  - reflexivity.
  - reflexivity.
Defined.

(** X10 ([POST /api/start-conversation]): a request for a client that
    has a conversation answers existing with that conversation's
    instance, the API key of that instance and its current checkpoint,
    whatever the name field and the clock reading, and changes nothing:
    no second conversation, no new-lead count, no selection.  In
    particular a request repeated directly after the one that created the
    conversation answers existing with the instance and key just assigned
    and a null checkpoint. *)
Theorem start_conversation_twice :
  (forall instances body now s client_phone existing,
     sb_client_phone body = Some client_phone ->
     client_phone <> EmptyString ->
     JsMap.get client_phone (conversationState s) = Some existing ->
     start_conversation instances body now s
     = (StartExisting (Conv.instance existing)
                      (getInstanceApiKey instances (Conv.instance existing))
                      (Conv.current_checkpoint existing), s))
  /\
  (forall instances body body' now now' s client_phone instance instance_apikey s1,
     start_conversation instances body now s
     = (StartCreated client_phone instance instance_apikey, s1) ->
     sb_client_phone body' = Some client_phone ->
     start_conversation instances body' now' s1
     = (StartExisting instance instance_apikey None, s1)).
Proof.
  split.
  - intros instances body now s client_phone existing Hp Hne Hget.
    unfold start_conversation. rewrite Hp. cbn [JS.truthy_opt JS.template].
    rewrite (JSFacts.truthy_nonempty client_phone Hne). cbn [negb].
    now rewrite Hget.
  - intros instances body body' now now' s client_phone instance instance_apikey s1.
    unfold start_conversation at 1.
    destruct (JS.truthy_opt (sb_client_phone body)) eqn:Ht; cbn [negb]; [|discriminate].
    destruct (JsMap.get _ (conversationState s)); [discriminate|].
    destruct (getBestInstance instances now s) as [[n s0]|]; [|discriminate].
    intros [= <- <- <- <-] Hp.
    unfold start_conversation. rewrite Hp.
    destruct (sb_client_phone body) as [p|]; [|discriminate].
    cbn [JS.truthy_opt JS.template] in *. rewrite Ht. cbn [negb conversationState].
    now rewrite JsMapFacts.get_set_eq.
Qed.

(** The theorem at the example client: asked again after confirm_interest
    was activated, the route answers existing with G01, its key and that
    checkpoint; asked again right after the registration, with G01, its
    key and null. *)
Lemma start_conversation_twice_witness :
  start_conversation INSTANCES
    {| sb_client_phone := Some Examples.phone; sb_client_name := Some "Ana" |}
    9000 Examples.mc_activated
  = (StartExisting "G01" (Some "584F8ACCAA48-488D-A26E-E75E1A5B2994")
       (Some "confirm_interest"),
     Examples.mc_activated)
  /\
  start_conversation INSTANCES
    {| sb_client_phone := Some Examples.phone; sb_client_name := Some "Ana" |}
    9000 Examples.mc_started
  = (StartExisting "G01" (Some "584F8ACCAA48-488D-A26E-E75E1A5B2994") None,
     Examples.mc_started).
Proof.
  split.
  - apply (proj1 start_conversation_twice INSTANCES
             {| sb_client_phone := Some Examples.phone; sb_client_name := Some "Ana" |}
             9000 Examples.mc_activated Examples.phone
             (activated Examples.mc_conversation "confirm_interest"
                Examples.mc_no_data 2000)).
    + reflexivity.
    + discriminate.
    + reflexivity.
  - apply (proj2 start_conversation_twice INSTANCES
             {| sb_client_phone := Some Examples.phone; sb_client_name := None |}
             {| sb_client_phone := Some Examples.phone; sb_client_name := Some "Ana" |}
             1000 9000 Examples.mc_initial Examples.phone).
    + reflexivity.
    + reflexivity.
Defined.

(** X11 ([POST /webhook/evolution]): the webhook addresses the client
    named by the JID.  For a client number without an at sign, a message
    from the JID made of that number and the suffix [@s.whatsapp.net] is
    handed to [processClientResponse] under the bare number when it is not
    an echo and its text is not blank; otherwise the state is left as it
    is. *)
Theorem webhook_addresses_client_of_jid instances p echo text now s :
  Jid.contains "@" p = false ->
  snd (webhook_evolution instances
         {| data :=
              Some {| key := Some {| remoteJid := p ++ Jid.whatsapp_suffix;
                                     fromMe := echo |};
                      message_conversation := Some text |} |}
         now s)
  = if negb echo && JS.trim_truthy text
    then snd (processClientResponse p text now s)
    else s.
Proof.
  intros Hp. unfold webhook_evolution. cbn [data key remoteJid fromMe].
  change "@s.whatsapp.net" with Jid.whatsapp_suffix.
  rewrite SuffixFacts.replace_suffix by assumption.
  assert (E : messageContent
                {| key := Some {| remoteJid := p ++ Jid.whatsapp_suffix;
                                  fromMe := echo |};
                   message_conversation := Some text |}
              = text).
  { unfold messageContent. cbn [message_conversation JS.truthy_opt JS.template].
    unfold JS.truthy. destruct (String.eqb_spec text EmptyString); cbn; congruence. }
  rewrite E. destruct (negb echo && JS.trim_truthy text); [|reflexivity].
  destruct (processClientResponse p text now s) as [[e|cp c resp tot] s'] eqn:R;
    [reflexivity|].
  cbn [snd]. destruct (JsMap.get p (conversationState s')); reflexivity.
Qed.

(** The theorem for the example client's answer to its checkpoint, and
    for a message that is one no-break space, which is blank. *)
Lemma webhook_addresses_client_of_jid_witness :
  snd (webhook_evolution INSTANCES
         (Examples.mc_message "5511999999999@s.whatsapp.net" "yes") 5000
         Examples.mc_activated)
  = snd (processClientResponse Examples.phone "yes" 5000 Examples.mc_activated)
  /\
  snd (webhook_evolution INSTANCES
         (Examples.mc_message "5511999999999@s.whatsapp.net" Examples.nbsp) 5000
         Examples.mc_activated)
  = Examples.mc_activated.
Proof.
  split.
  - apply (webhook_addresses_client_of_jid INSTANCES Examples.phone false "yes" 5000
             Examples.mc_activated).
    reflexivity.
  - apply (webhook_addresses_client_of_jid INSTANCES Examples.phone false
             Examples.nbsp 5000 Examples.mc_activated).
    reflexivity.
Defined.

(** X12 ([createConversationState], [activateCheckpoint],
    [processClientResponse], [cleanupExpiredCheckpoints]): in every state
    a run from start-up reaches, the status of a conversation is active
    or expired; while it waits it has a current checkpoint with a
    non-empty id and its deadline [expires_at] lies 24 hours after its
    last activity, the activation; when it does not wait it has no
    current checkpoint. *)
Theorem conversation_waits_with_a_deadline instances t0 trace phone state :
  JsMap.get phone
    (conversationState (snd (run instances trace [] (initial instances t0))))
  = Some state ->
  (Conv.status state = "active" \/ Conv.status state = "expired") /\
  (Conv.waiting_for_response state = true ->
   exists checkpointId,
     Conv.current_checkpoint state = Some checkpointId /\
     checkpointId <> EmptyString /\
     Conv.expires_at state = Conv.last_activity state + 86400000) /\
  (Conv.waiting_for_response state = false ->
   Conv.current_checkpoint state = None).
Proof.
  apply (StoreFacts.reachable_store_all instances (fun _ state => conv_shape state)).
  - intros. split; [now left|]. split; [discriminate|reflexivity].
  - intros ? st K d now' HK (Hs & _ & _). split; [exact Hs|].
    split; [|discriminate]. intros _. exists K. repeat split; auto.
  - intros ? st msg K now' _ _ _ (Hs & _ & _). split; [exact Hs|].
    split; [discriminate|reflexivity].
  - intros ? st _. split; [now right|]. split; [discriminate|reflexivity].
  - exists t0, trace. reflexivity.
Qed.

(** The theorem at the example client, waiting on confirm_interest since
    t = 2000. *)
Lemma conversation_waits_with_a_deadline_witness :
  let state := activated Examples.mc_conversation "confirm_interest"
                 Examples.mc_no_data 2000 in
  Conv.expires_at state = 86402000 /\
  ((Conv.status state = "active" \/ Conv.status state = "expired") /\
   (Conv.waiting_for_response state = true ->
    exists checkpointId,
      Conv.current_checkpoint state = Some checkpointId /\
      checkpointId <> EmptyString /\
      Conv.expires_at state = Conv.last_activity state + 86400000) /\
   (Conv.waiting_for_response state = false ->
    Conv.current_checkpoint state = None)).
Proof.
  split; [reflexivity|].
  apply (conversation_waits_with_a_deadline INSTANCES 0 Examples.mc_activated_trace
           Examples.phone
           (activated Examples.mc_conversation "confirm_interest"
              Examples.mc_no_data 2000)).
  reflexivity.
Defined.

End IndexJs.


(* ================================================================== *)
(** * Further properties of [src/unnamed/part_001] *)
(* ================================================================== *)

Module Part001.
Import AutoLead AutoLeadSpec AutoLeadLife AutoLeadStatus.

(** X13 ([processCheckpointResponse], [cleanupOldData]): the global
    [checkpointHistory] never holds more than 500 records, in any state a
    run from start-up reaches. *)
Theorem checkpoint_history_is_bounded instances t0 trace :
  (List.length (checkpointHistory (snd (run trace [] (initial instances t0))))
   <= 500)%nat.
Proof.
  apply (EngineFacts.reachable_keeps
           (fun s => (List.length (checkpointHistory s) <= 500)%nat)).
  - intros phone name source now s conversation s' _ _ E H.
    apply EngineFacts.createConversation_frame in E
      as (i & _ & _ & _ & _ & _ & _ & _ & _ & -> & _). exact H.
  - intros phone K tm now s _ _ H.
    destruct (EngineFacts.activateCheckpoint_frame phone K tm now s)
      as (_ & _ & -> & _). exact H.
  - intros phone message now s _ H.
    destruct (EngineFacts.processCheckpointResponse_frame phone message now s)
      as [->|(c & _ & _ & _ & _ & _ & -> & _)]; [exact H|].
    apply firstn_le_length.
  - intros timeoutId now s _ H.
    destruct (EngineFacts.fire_timer_frame timeoutId now s)
      as [(_ & _ & _ & -> & _)|(p & K & c & _ & _ & _ & _ & _ & -> & _)]; exact H.
  - intros n now s _ H.
    destruct (EngineFacts.api_instance_block_frame n now s) as (_ & -> & _). exact H.
  - intros now s _ H. unfold cleanupOldData. cbn [checkpointHistory].
    destruct (EngineFacts.fold_cleanup_entry_frame now (conversationState s) s)
      as (_ & -> & _).
    etransitivity; [apply filter_length_le|exact H].
  - intros. cbn. lia.
  - exists instances, t0, trace. reflexivity.
Qed.

(** X14 ([getNextInstance]): the rotation counter stays between 0 and
    [INSTANCE_ROTATION_RESET] = 1000 in every state a run from start-up
    reaches: it is reset to 0 by the call that would take it to 1001. *)
Theorem rotation_counter_is_bounded instances t0 trace :
  let s := snd (run trace [] (initial instances t0)) in
  0 <= instanceRotationCounter s <= 1000.
Proof.
  apply (EngineFacts.reachable_keeps (fun s => 0 <= instanceRotationCounter s <= 1000)).
  - intros phone name source now s conversation s' _ _ E H.
    apply EngineFacts.createConversation_frame in E
      as (i & _ & _ & _ & _ & _ & _ & _ & _ & _ & _ & -> & _).
    destruct (EngineFacts.getNextInstance_result now s)
      as [[-> _]|[[_ ->]|(i' & _ & _ & -> & _)]]; try exact H.
    unfold INSTANCE_ROTATION_RESET.
    destruct (Z.gtb_spec (instanceRotationCounter s + 1) 1000); lia.
  - intros phone K tm now s _ _ H.
    destruct (EngineFacts.activateCheckpoint_frame phone K tm now s)
      as (_ & _ & _ & _ & -> & _). exact H.
  - intros phone message now s _ H.
    destruct (EngineFacts.processCheckpointResponse_frame phone message now s)
      as [->|(c & _ & _ & _ & _ & _ & _ & _ & -> & _)]; exact H.
  - intros timeoutId now s _ H.
    destruct (EngineFacts.fire_timer_frame timeoutId now s)
      as [(_ & _ & _ & _ & _ & -> & _)|(p & K & c & _ & _ & _ & _ & _ & _ & _ & -> & _)];
      exact H.
  - intros n now s _ H.
    destruct (EngineFacts.api_instance_block_frame n now s) as (_ & _ & _ & -> & _).
    exact H.
  - intros now s _ H. unfold cleanupOldData. cbn [instanceRotationCounter].
    destruct (EngineFacts.fold_cleanup_entry_frame now (conversationState s) s)
      as (_ & _ & _ & -> & _). exact H.
  - intros. cbn. lia.
  - exists instances, t0, trace. reflexivity.
Qed.

Lemma size_set_known {V : Type} (k : string) (v v' : V) (m : JsMap.t V) :
  JsMap.get k m = Some v -> JsMap.size (JsMap.set k v' m) = JsMap.size m.
Proof. intros H. apply MapFacts.size_set_present. congruence. Qed.

(** X15 ([createConversation], [cleanupOldData], [GET /api/status]): in
    every state a run from start-up reaches, [dailyStats.active_now] is
    the number of conversations in the store, so the status route reports
    the same number as [active_now] and as [active_conversations]. *)
Theorem active_now_is_the_store_size instances t0 trace :
  let s := snd (run trace [] (initial instances t0)) in
  Daily.active_now (dailyStats s) = JsMap.size (conversationState s) /\
  Daily.active_now (daily (stats (api_status s)))
  = active_conversations (stats (api_status s)).
Proof.
  cbv zeta.
  assert (H : Daily.active_now
                (dailyStats (snd (run trace [] (initial instances t0))))
              = JsMap.size
                  (conversationState (snd (run trace [] (initial instances t0)))));
    [|split; exact H].
  apply (EngineFacts.reachable_keeps
           (fun s => Daily.active_now (dailyStats s)
                     = JsMap.size (conversationState s))).
  - intros phone name source now s conversation s' _ _ E H.
    apply EngineFacts.createConversation_frame in E
      as (i & _ & _ & _ & _ & _ & _ & _ & _ & _ & -> & _). reflexivity.
  - intros phone K tm now s _ _ H.
    destruct (EngineFacts.activateCheckpoint_frame phone K tm now s)
      as (_ & _ & _ & -> & _ & _ & ->).
    destruct (JsMap.get phone (conversationState s)) eqn:E; [|exact H].
    now rewrite (size_set_known _ _ _ _ E).
  - intros phone message now s _ H.
    destruct (EngineFacts.processCheckpointResponse_frame phone message now s)
      as [->|(c & E & _ & _ & -> & _ & _ & -> & _)]; [exact H|].
    now rewrite (size_set_known _ _ _ _ E).
  - intros timeoutId now s _ H.
    destruct (EngineFacts.fire_timer_frame timeoutId now s)
      as [(_ & -> & _ & _ & -> & _)|(p & K & c & E & _ & _ & -> & _ & _ & -> & _)];
      [exact H|].
    now rewrite (size_set_known _ _ _ _ E).
  - intros n now s _ H.
    destruct (EngineFacts.api_instance_block_frame n now s) as (-> & _ & -> & _).
    exact H.
  - intros now s _ H. reflexivity.
  - intros. reflexivity.
  - exists instances, t0, trace. reflexivity.
Qed.

(** ** Rotation among the available instances *)

Lemma is_available_with_lead now n st stats i :
  JsMap.get n stats = Some st ->
  is_available (JsMap.set n (with_lead now st) stats) i = is_available stats i.
Proof.
  intros Hget. unfold is_available.
  destruct (String.eqb_spec n (name i)) as [<-|Hne].
  - now rewrite JsMapFacts.get_set_eq, Hget.
  - now rewrite JsMapFacts.get_set_neq by assumption.
Qed.

Lemma getNextInstance_keeps_available now s :
  available (snd (getNextInstance now s)) = available s.
Proof.
  unfold available.
  destruct (EngineFacts.getNextInstance_frame now s) as (-> & _).
  destruct (EngineFacts.getNextInstance_result now s)
    as [[-> _]|[[_ ->]|(i & _ & _ & _ & ->)]]; try reflexivity.
  destruct (JsMap.get (name i) (instanceStats s)) as [st|] eqn:E; [|reflexivity].
  apply filter_ext. intros a. now apply is_available_with_lead.
Qed.

Lemma getNextInstance_rotates now s :
  available s <> [] -> 0 <= instanceRotationCounter s ->
  fst (getNextInstance now s)
  = nth_error (available s)
      (Z.to_nat (instanceRotationCounter s) mod List.length (available s))%nat /\
  instanceRotationCounter (snd (getNextInstance now s))
  = (if instanceRotationCounter s + 1 >? 1000 then 0
     else instanceRotationCounter s + 1).
Proof.
  intros Hne Hc.
  assert (Hlen : (0 < List.length (available s))%nat)
    by (destruct (available s); cbn; [congruence|lia]).
  pose proof (Nat.mod_upper_bound (Z.to_nat (instanceRotationCounter s))
                (List.length (available s))) as Hb.
  unfold getNextInstance. fold (available s).
  destruct (Nat.eqb_spec (List.length (available s)) 0) as [E|_]; [lia|].
  rewrite JSFacts.nth_rem by assumption.
  destruct (nth_error (available s) _) as [i|] eqn:E.
  - split; reflexivity.
  - apply nth_error_None in E. lia.
Qed.

Lemma selections_available now : forall k s,
  available s <> [] -> 0 <= instanceRotationCounter s ->
  instanceRotationCounter s + Z.of_nat k <= 1001 ->
  selections now k s
  = map (fun j =>
           nth_error (available s)
             ((Z.to_nat (instanceRotationCounter s) + j)
              mod List.length (available s))%nat)
        (seq 0 k).
Proof.
  induction k as [|k IH]; intros s Hne Hc Hk; [reflexivity|].
  cbn [selections].
  destruct (getNextInstance_rotates now s Hne Hc) as [Hi Hcount].
  pose proof (getNextInstance_keeps_available now s) as Hav.
  destruct (getNextInstance now s) as [i s']. cbn [fst snd] in *.
  cbn [seq map]. rewrite Nat.add_0_r. f_equal; [exact Hi|].
  destruct k as [|k']; [reflexivity|].
  assert (Hnext : instanceRotationCounter s' = instanceRotationCounter s + 1).
  { rewrite Hcount. destruct (Z.gtb_spec (instanceRotationCounter s + 1) 1000); lia. }
  rewrite IH; rewrite ?Hav, ?Hnext; auto; try lia.
  rewrite <- seq_shift, map_map. apply map_ext. intros j.
  do 2 f_equal. rewrite Z2Nat.inj_add by lia. cbn. lia.
Qed.

(** X16 ([getNextInstance]): round-robin among the available instances.
    With n instances active and unblocked and the rotation counter c not
    negative and at most 1001 - n, the next n calls return each available
    instance once, in the order of [INSTANCES], starting at position
    c mod n. *)
Theorem selection_rotates_among_available now s :
  available s <> [] ->
  0 <= instanceRotationCounter s ->
  instanceRotationCounter s + Z.of_nat (List.length (available s)) <= 1001 ->
  selections now (List.length (available s)) s
  = map Some
      (MultiCheckpointSpec.rotate
         (Z.to_nat (instanceRotationCounter s) mod List.length (available s))
         (available s)).
Proof.
  intros Hne Hc Hk. rewrite selections_available by assumption.
  assert (Hlen : (0 < List.length (available s))%nat)
    by (destruct (available s); cbn; [congruence|lia]).
  set (r := (Z.to_nat (instanceRotationCounter s) mod List.length (available s))%nat).
  rewrite <- RotationFacts.rotate_nth_error
    by (subst r; apply Nat.mod_upper_bound; lia).
  apply map_ext. intros j. f_equal. subst r.
  now rewrite Nat.Div0.add_mod_idemp_l.
Qed.

(** The theorem for two instances, the counter at 1: the second instance
    is served first. *)
Lemma selection_rotates_among_available_witness :
  selections 50 2
    (snd (api_lead_new
            {| lb_phone := Some "5511888888888"; lb_name := None;
               lb_message := None; lb_source := None |}
            10 (initial Examples.al_two 0)))
  = [ Some {| name := "G09"; id := "k9"; active := true |};
      Some {| name := "G08"; id := "k8"; active := true |} ].
Proof.
  apply (selection_rotates_among_available 50
           (snd (api_lead_new
                   {| lb_phone := Some "5511888888888"; lb_name := None;
                      lb_message := None; lb_source := None |}
                   10 (initial Examples.al_two 0)))).
  - discriminate.
  - vm_compute. discriminate.
  - vm_compute. discriminate.
Defined.

(** ** Blocking an instance *)

Lemma deactivate_In n l i :
  In i (deactivate n l) ->
  In i l \/ (active i = false /\ exists i0, In i0 l /\ name i0 = name i /\ id i0 = id i).
Proof.
  induction l as [|a r IH]; cbn [deactivate]; [tauto|].
  destruct (name a =? n)%string.
  - intros [<-|H]; [|left; now right].
    right. split; [reflexivity|]. exists a. repeat split. now left.
  - intros [<-|H]; [left; now left|].
    destruct (IH H) as [H'|(Ha & i0 & H0 & Hn & Hi)]; [left; now right|].
    right. split; [assumption|]. exists i0. repeat split; auto. now right.
Qed.

Lemma deactivate_first n l :
  instance_active (deactivate n l) n = false.
Proof.
  unfold instance_active.
  induction l as [|a r IH]; cbn [deactivate find]; [reflexivity|].
  destruct (name a =? n)%string eqn:E; cbn [find name]; rewrite E; auto.
Qed.

Lemma deactivate_other m n l :
  instance_active l n = false -> instance_active (deactivate m l) n = false.
Proof.
  unfold instance_active.
  induction l as [|a r IH]; cbn [deactivate find]; [reflexivity|].
  destruct (name a =? m)%string eqn:Em; cbn [find name].
  - destruct (name a =? n)%string; auto.
  - destruct (name a =? n)%string; auto.
Qed.

(** Statistics are only ever updated in place. *)
Lemma stats_grow_refl stats : stats_grow stats stats.
Proof. intros k st H. eauto. Qed.

Lemma stats_grow_trans a b c : stats_grow a b -> stats_grow b c -> stats_grow a c.
Proof.
  intros Hab Hbc k st H. destruct (Hab k st H) as (st' & H' & Hb).
  destruct (Hbc k st' H') as (st'' & H'' & Hb'). eauto.
Qed.

Lemma stats_grow_set n st st' stats :
  JsMap.get n stats = Some st ->
  (Stats.blocked st = true -> Stats.blocked st' = true) ->
  stats_grow stats (JsMap.set n st' stats).
Proof.
  intros Hget Hb k st0 H. destruct (String.eqb_spec n k) as [<-|Hne].
  - rewrite JsMapFacts.get_set_eq. rewrite Hget in H. injection H as <-. eauto.
  - rewrite JsMapFacts.get_set_neq by assumption. eauto.
Qed.

Lemma updateInstanceStats_grow m event now stats :
  stats_grow stats (updateInstanceStats m event now stats).
Proof.
  unfold updateInstanceStats.
  destruct (JsMap.get m stats) as [st|] eqn:E; [|apply stats_grow_refl].
  apply (stats_grow_set m st); auto. destruct st, event; cbn; auto.
Qed.

Lemma getNextInstance_grow now s :
  stats_grow (instanceStats s) (instanceStats (snd (getNextInstance now s))).
Proof.
  destruct (EngineFacts.getNextInstance_result now s)
    as [[-> _]|[[_ ->]|(i & _ & _ & _ & ->)]]; try apply stats_grow_refl.
  destruct (JsMap.get (name i) (instanceStats s)) as [st|] eqn:E;
    [|apply stats_grow_refl].
  now apply (stats_grow_set (name i) st).
Qed.

Lemma fold_cleanup_entry_grow now l : forall s,
  stats_grow (instanceStats s) (instanceStats (fold_left (cleanup_entry now) l s)).
Proof.
  induction l as [|e r IH]; intros s; cbn [fold_left]; [apply stats_grow_refl|].
  eapply stats_grow_trans; [|apply IH].
  destruct (EngineFacts.cleanup_entry_frame now s e) as (_ & _ & _ & _ & _ & ->).
  destruct (past_retention now (snd e)); [|apply stats_grow_refl].
  apply updateInstanceStats_grow.
Qed.

Lemma createConversation_grow phone name source now s conversation s' :
  createConversation phone name source now s = Some (conversation, s') ->
  INSTANCES s' = INSTANCES s /\ stats_grow (instanceStats s) (instanceStats s').
Proof.
  intros E. apply EngineFacts.createConversation_frame in E
    as (i & _ & _ & -> & _ & _ & _ & _ & -> & _).
  split; [reflexivity|apply getNextInstance_grow].
Qed.

Lemma processCheckpointResponse_grow phone message now s :
  INSTANCES (snd (processCheckpointResponse phone message now s)) = INSTANCES s /\
  stats_grow (instanceStats s)
    (instanceStats (snd (processCheckpointResponse phone message now s))).
Proof.
  destruct (EngineFacts.processCheckpointResponse_frame phone message now s)
    as [->|(c & _ & _ & -> & _ & -> & _)].
  - split; [reflexivity|apply stats_grow_refl].
  - split; [reflexivity|apply updateInstanceStats_grow].
Qed.

Lemma fire_timer_grow timeoutId now s :
  INSTANCES (snd (fire_timer timeoutId now s)) = INSTANCES s /\
  stats_grow (instanceStats s) (instanceStats (snd (fire_timer timeoutId now s))).
Proof.
  destruct (EngineFacts.fire_timer_frame timeoutId now s)
    as [(-> & _ & -> & _)|(p & K & c & _ & _ & -> & _ & -> & _)].
  - split; [reflexivity|apply stats_grow_refl].
  - split; [reflexivity|apply updateInstanceStats_grow].
Qed.

Lemma cleanupOldData_grow now s :
  INSTANCES (cleanupOldData now s) = INSTANCES s /\
  stats_grow (instanceStats s) (instanceStats (cleanupOldData now s)).
Proof.
  unfold cleanupOldData. cbn [INSTANCES instanceStats].
  destruct (EngineFacts.fold_cleanup_entry_frame now (conversationState s) s)
    as (-> & _).
  split; [reflexivity|apply fold_cleanup_entry_grow].
Qed.

Lemma api_instance_block_grow n now s :
  INSTANCES (snd (api_instance_block n now s))
  = (if fst (api_instance_block n now s) then deactivate n (INSTANCES s)
     else INSTANCES s) /\
  instanceStats (snd (api_instance_block n now s))
  = (if fst (api_instance_block n now s)
     then updateInstanceStats n ev_blocked now (instanceStats s)
     else instanceStats s).
Proof. unfold api_instance_block. destruct (find _ _); cbn; auto. Qed.

Lemma blocked_in_grow stats stats' n :
  stats_grow stats stats' -> blocked_in stats n -> blocked_in stats' n.
Proof.
  intros Hg (st & Hget & Hb). destruct (Hg n st Hget) as (st' & Hget' & Hb').
  exists st'. auto.
Qed.

Lemma retired_unavailable n s : retired n s -> unavailable n s.
Proof.
  intros [_ (st & Hget & Hb)] i _ <-. unfold is_available.
  rewrite Hget, Hb. apply andb_false_r.
Qed.

Lemma retired_kept n s later history :
  run_invariant history s -> retired n s -> retired n (snd (run later history s)).
Proof.
  apply (EngineFacts.run_keeps (retired n)).
  - intros phone name source now s0 conversation s' _ _ E [H1 H2].
    apply createConversation_grow in E as [EI Hg]. split.
    + now rewrite EI.
    + eapply blocked_in_grow; eauto.
  - intros phone K tm now s0 _ _ [H1 H2].
    destruct (EngineFacts.activateCheckpoint_frame phone K tm now s0)
      as (EI & ES & _).
    split; [now rewrite EI|now rewrite ES].
  - intros phone message now s0 _ [H1 H2].
    destruct (processCheckpointResponse_grow phone message now s0) as [EI Hg].
    split; [now rewrite EI|eapply blocked_in_grow; eauto].
  - intros timeoutId now s0 _ [H1 H2].
    destruct (fire_timer_grow timeoutId now s0) as [EI Hg].
    split; [now rewrite EI|eapply blocked_in_grow; eauto].
  - intros m now s0 _ [H1 H2].
    destruct (api_instance_block_grow m now s0) as [EI ES].
    unfold retired. rewrite EI, ES.
    destruct (fst (api_instance_block m now s0)); split; auto.
    + now apply deactivate_other.
    + eapply blocked_in_grow; [apply updateInstanceStats_grow|exact H2].
  - intros now s0 _ [H1 H2].
    destruct (cleanupOldData_grow now s0) as [EI Hg].
    split; [now rewrite EI|eapply blocked_in_grow; eauto].
Qed.

Lemma initializeInstanceStats_tracked instances now : forall m i,
  In i instances \/ JsMap.get (name i) m <> None ->
  JsMap.get (name i) (initializeInstanceStats instances now m) <> None.
Proof.
  unfold initializeInstanceStats.
  induction instances as [|a r IH]; intros m i; cbn [fold_left].
  - intros [[]|H]. exact H.
  - intros [[<-|H]|H]; apply IH.
    + right. now rewrite JsMapFacts.get_set_eq.
    + now left.
    + right. destruct (String.eqb_spec (name a) (name i)) as [E|Hne].
      * rewrite E. now rewrite JsMapFacts.get_set_eq.
      * now rewrite JsMapFacts.get_set_neq.
Qed.

Lemma tracked_grow (instances instances' : list Instance) stats stats' :
  (forall i, In i instances' -> In (name i) (map name instances)) ->
  stats_grow stats stats' ->
  (forall i, In i instances -> JsMap.get (name i) stats <> None) ->
  forall i, In i instances' -> JsMap.get (name i) stats' <> None.
Proof.
  intros Hn Hg H i Hi. apply Hn, in_map_iff in Hi as (i0 & E & Hi0).
  specialize (H i0 Hi0). rewrite E in H.
  destruct (JsMap.get (name i) stats) as [st|] eqn:G; [|congruence].
  destruct (Hg _ _ G) as (st' & -> & _). discriminate.
Qed.

Lemma reachable_pool_tracked s : reachable s -> pool_tracked s.
Proof.
  apply (EngineFacts.reachable_keeps pool_tracked).
  - intros phone name source now s0 conversation s' _ _ E H.
    apply createConversation_grow in E as [EI Hg].
    unfold pool_tracked. rewrite EI.
    eapply tracked_grow; eauto. intros i Hi. now apply in_map.
  - intros phone K tm now s0 _ _ H.
    destruct (EngineFacts.activateCheckpoint_frame phone K tm now s0)
      as (EI & ES & _).
    unfold pool_tracked. now rewrite EI, ES.
  - intros phone message now s0 _ H.
    destruct (processCheckpointResponse_grow phone message now s0) as [EI Hg].
    unfold pool_tracked. rewrite EI.
    eapply tracked_grow; eauto. intros i Hi. now apply in_map.
  - intros timeoutId now s0 _ H.
    destruct (fire_timer_grow timeoutId now s0) as [EI Hg].
    unfold pool_tracked. rewrite EI.
    eapply tracked_grow; eauto. intros i Hi. now apply in_map.
  - intros m now s0 _ H.
    destruct (api_instance_block_grow m now s0) as [EI ES].
    unfold pool_tracked. rewrite EI, ES.
    destruct (fst (api_instance_block m now s0)); [|exact H].
    eapply tracked_grow; [|apply updateInstanceStats_grow|exact H].
    intros i Hi. rewrite <- (EngineFacts.deactivate_names m). now apply in_map.
  - intros now s0 _ H.
    destruct (cleanupOldData_grow now s0) as [EI Hg].
    unfold pool_tracked. rewrite EI.
    eapply tracked_grow; eauto. intros i Hi. now apply in_map.
  - intros instances t0 i Hi. cbn [initial INSTANCES instanceStats] in *.
    apply initializeInstanceStats_tracked. now left.
Qed.

(** X17 ([POST /api/instance/block], [getNextInstance], [GET /api/status]):
    blocking is permanent.  Once the block route has answered success for
    the instance named [n], in every state of every continuation of the
    run no configured instance of that name passes the filter of
    [getNextInstance], which therefore returns such an instance only
    through its fallback, when no instance at all is available; and the
    status route reports the instance inactive. *)
Theorem blocked_instance_stays_out instances t0 trace n now later :
  let s := snd (run trace [] (initial instances t0)) in
  fst (api_instance_block n now s) = true ->
  let s' := snd (run later [] (snd (api_instance_block n now s))) in
  (forall i, In i (INSTANCES s') -> name i = n ->
             is_available (instanceStats s') i = false) /\
  (forall now' i, fst (getNextInstance now' s') = Some i -> name i = n ->
                  available s' = []) /\
  instance_active (INSTANCES s') n = false.
Proof.
  intros s Hok s'.
  assert (Hr : reachable s) by (exists instances, t0, trace; reflexivity).
  assert (Hret : retired n s').
  { destruct (EngineFacts.reachable_has_history _
                (EngineFacts.al_reachable_step (InstanceBlock n) now s Hr))
      as [history Hinv].
    unfold s'. rewrite (EngineFacts.run_history_irrelevant later [] history).
    apply retired_kept; [exact Hinv|].
    cbn [step snd].
    destruct (api_instance_block_grow n now s) as [EI ES]. rewrite Hok in EI, ES.
    split.
    - rewrite EI. apply deactivate_first.
    - rewrite ES. unfold api_instance_block in Hok.
      destruct (find _ (INSTANCES s)) as [i0|] eqn:F; [|discriminate].
      apply find_some in F as [Hi0 Hn]. apply String.eqb_eq in Hn.
      pose proof (reachable_pool_tracked s Hr i0 Hi0) as Ht. rewrite Hn in Ht.
      destruct (JsMap.get n (instanceStats s)) as [st|] eqn:G; [|congruence].
      unfold blocked_in, updateInstanceStats. rewrite G, JsMapFacts.get_set_eq.
      eexists. split; [reflexivity|]. now destruct st. }
  pose proof (retired_unavailable n s' Hret) as Hun.
  split; [exact Hun|]. split; [|exact (proj1 Hret)].
  intros now' i Hi Hn.
  destruct (EngineFacts.getNextInstance_result now' s')
    as [[_ E]|[[E _]|(i' & E & Hin & _)]]; [exact E|congruence|].
  rewrite E in Hi. injection Hi as ->.
  unfold available in Hin. apply filter_In in Hin as [Hin Hav].
  rewrite (Hun i Hin Hn) in Hav. discriminate.
Qed.

(** The theorem for two instances: G08 is blocked, and a lead that comes
    in afterwards is served by G09. *)
Lemma blocked_instance_stays_out_witness :
  let s' :=
    snd (run [ (LeadNew {| lb_phone := Some "5511888888888"; lb_name := None;
                           lb_message := None; lb_source := None |}, 50) ]
             [] Examples.al_one_blocked) in
  (forall i, In i (INSTANCES s') -> name i = "G08" ->
             is_available (instanceStats s') i = false) /\
  (forall now' i, fst (getNextInstance now' s') = Some i -> name i = "G08" ->
                  available s' = []) /\
  instance_active (INSTANCES s') "G08" = false.
Proof.
  apply (blocked_instance_stays_out Examples.al_two 0 [] "G08" 10
           [ (LeadNew {| lb_phone := Some "5511888888888"; lb_name := None;
                         lb_message := None; lb_source := None |}, 50) ]).
  reflexivity.
Defined.

(** ** The statistics of an instance *)

Lemma stats_ok_event event now st :
  stats_ok st -> stats_ok (updateInstanceStats_switch event now st).
Proof.
  destruct st as [total active passed tmo last health rate blk].
  unfold stats_ok.
  cbn [Stats.response_rate Stats.health_score Stats.active_conversations].
  intros (H1 & H2 & H3).
  destruct event;
    cbn [updateInstanceStats_switch Stats.response_rate Stats.health_score
         Stats.active_conversations];
    (split; [|split]); try assumption.
  - now apply GridFacts.halves_up.
  - now apply GridFacts.units_up.
  - now apply GridFacts.halves_down.
  - now apply GridFacts.units_down_3.
  - apply FloatFacts.Math_max_0_nonneg, FloatFacts.sub_not_nan_r;
      [FloatFacts.finite_literal|].
    now apply FloatFacts.nonneg_not_nan.
  - vm_compute. reflexivity.
Qed.

Lemma stats_ok_lead now st : stats_ok st -> stats_ok (with_lead now st).
Proof.
  unfold stats_ok, with_lead.
  cbn [Stats.response_rate Stats.health_score Stats.active_conversations].
  intros (H1 & H2 & H3). split; [assumption|]. split; [assumption|].
  apply FloatFacts.add_nonneg; [assumption|reflexivity].
Qed.

Lemma pool_ok_set n st (stats : JsMap.t Stats.t) :
  stats_ok st ->
  (forall k v, In (k, v) stats -> stats_ok v) ->
  forall k v, In (k, v) (JsMap.set n st stats) -> stats_ok v.
Proof.
  intros Hst H k v Hin. apply MapFacts.In_set in Hin as [[_ ->]|Hin]; eauto.
Qed.

Lemma pool_ok_update m event now (stats : JsMap.t Stats.t) :
  (forall k v, In (k, v) stats -> stats_ok v) ->
  forall k v, In (k, v) (updateInstanceStats m event now stats) -> stats_ok v.
Proof.
  intros H. unfold updateInstanceStats.
  destruct (JsMap.get m stats) as [st|] eqn:E; [|exact H].
  apply pool_ok_set; [|exact H].
  apply stats_ok_event. apply (H m). now apply JsMapFacts.get_In.
Qed.

Lemma pool_ok_fold_cleanup now l : forall s,
  pool_ok s -> pool_ok (fold_left (cleanup_entry now) l s).
Proof.
  induction l as [|e r IH]; intros s H; cbn [fold_left]; auto.
  apply IH. unfold pool_ok.
  destruct (EngineFacts.cleanup_entry_frame now s e) as (_ & _ & _ & _ & _ & ->).
  destruct (past_retention now (snd e)); [|exact H].
  now apply pool_ok_update.
Qed.

Lemma reachable_pool_ok s : reachable s -> pool_ok s.
Proof.
  apply (EngineFacts.reachable_keeps pool_ok).
  - intros phone nm source now s0 conversation s' _ _ E H.
    apply EngineFacts.createConversation_frame in E
      as (i & _ & _ & _ & _ & _ & _ & _ & E & _).
    unfold pool_ok. rewrite E.
    destruct (EngineFacts.getNextInstance_result now s0)
      as [[-> _]|[[_ ->]|(i' & _ & _ & _ & ->)]]; try exact H.
    destruct (JsMap.get (name i') (instanceStats s0)) as [st|] eqn:G; [|exact H].
    apply pool_ok_set; [|exact H].
    apply stats_ok_lead. apply (H (name i')). now apply JsMapFacts.get_In.
  - intros phone K tm now s0 _ _ H.
    destruct (EngineFacts.activateCheckpoint_frame phone K tm now s0)
      as (_ & ES & _).
    unfold pool_ok. now rewrite ES.
  - intros phone message now s0 _ H.
    destruct (EngineFacts.processCheckpointResponse_frame phone message now s0)
      as [->|(c & _ & _ & _ & _ & ES & _)]; [exact H|].
    unfold pool_ok. rewrite ES. now apply pool_ok_update.
  - intros timeoutId now s0 _ H.
    destruct (EngineFacts.fire_timer_frame timeoutId now s0)
      as [(_ & _ & ES & _)|(p & K & c & _ & _ & _ & _ & ES & _)];
      unfold pool_ok; rewrite ES; [exact H|now apply pool_ok_update].
  - intros m now s0 _ H.
    destruct (api_instance_block_grow m now s0) as [_ ES].
    unfold pool_ok. rewrite ES.
    destruct (fst (api_instance_block m now s0)); [|exact H].
    now apply pool_ok_update.
  - intros now s0 _ H. unfold cleanupOldData, pool_ok. cbn [instanceStats].
    now apply pool_ok_fold_cleanup.
  - intros instances t0. unfold pool_ok. cbn [initial instanceStats].
    unfold initializeInstanceStats.
    assert (G : forall l m,
                (forall k v, In (k, v) m -> stats_ok v) ->
                forall k v,
                  In (k, v)
                     (fold_left
                        (fun m instance =>
                           JsMap.set (name instance)
                             (Stats.mk 0 0 0 0 t0 100 100 false) m) l m) ->
                  stats_ok v).
    { induction l as [|i r IH]; intros m H; cbn [fold_left]; auto.
      apply IH. apply pool_ok_set; auto.
      split; [|split]; vm_compute; reflexivity. }
    apply G. intros k v [].
Qed.

(** X18 ([updateInstanceStats], [getNextInstance]): in every state a run
    from start-up reaches, an instance's response rate is a multiple of
    one half and its health score a whole number, both between 0 and 100,
    and its count of active conversations is not negative. *)
Theorem rates_and_load_stay_in_range instances t0 trace n st :
  JsMap.get n (instanceStats (snd (run trace [] (initial instances t0)))) = Some st ->
  StatsGrid.on_grid StatsGrid.halves (Stats.response_rate st) = true /\
  StatsGrid.on_grid StatsGrid.units (Stats.health_score st) = true /\
  ((0 <=? Stats.response_rate st)%float && (Stats.response_rate st <=? 100)%float
   && (0 <=? Stats.health_score st)%float && (Stats.health_score st <=? 100)%float)
  = true /\
  (0 <=? Stats.active_conversations st)%float = true.
Proof.
  intros Hget. apply JsMapFacts.get_In in Hget.
  assert (Hr : reachable (snd (run trace [] (initial instances t0))))
    by (exists instances, t0, trace; reflexivity).
  destruct (reachable_pool_ok _ Hr n st Hget) as (H1 & H2 & H3).
  split; [assumption|]. split; [assumption|]. split; [|assumption].
  pose proof (GridFacts.halves_in_range _ H1) as R1.
  pose proof (GridFacts.units_in_range _ H2) as R2.
  unfold StatsGrid.in_percent_range in R1, R2.
  apply andb_true_iff in R1 as [R1a R1b]. apply andb_true_iff in R2 as [R2a R2b].
  now rewrite R1a, R1b, R2a, R2b.
Qed.

(** The theorem at G08 after the example client answered its checkpoint. *)
Lemma rates_and_load_stay_in_range_witness :
  exists st,
    JsMap.get "G08" (instanceStats Examples.al_resolved) = Some st /\
    StatsGrid.on_grid StatsGrid.halves (Stats.response_rate st) = true /\
    StatsGrid.on_grid StatsGrid.units (Stats.health_score st) = true /\
    ((0 <=? Stats.response_rate st)%float && (Stats.response_rate st <=? 100)%float
     && (0 <=? Stats.health_score st)%float && (Stats.health_score st <=? 100)%float)
    = true /\
    (0 <=? Stats.active_conversations st)%float = true.
Proof.
  eexists. split; [reflexivity|].
  apply (rates_and_load_stay_in_range AutoLead.INSTANCES_configured 0
           Examples.al_resolved_trace "G08").
  reflexivity.
Defined.

(** ** The sweeper *)

Lemma cleanup_entry_kept now s entry :
  past_retention now (snd entry) = false -> cleanup_entry now s entry = s.
Proof.
  destruct entry as [phone conv]. cbn [snd]. intros Hp.
  unfold cleanup_entry. now rewrite Hp.
Qed.

Lemma fold_cleanup_entry_kept now l s :
  (forall phone conv, In (phone, conv) l -> past_retention now conv = false) ->
  fold_left (cleanup_entry now) l s = s.
Proof.
  induction l as [|[phone conv] r IH]; intros H; cbn [fold_left]; auto.
  rewrite cleanup_entry_kept by (apply (H phone conv); now left).
  apply IH. intros p c Hin. apply (H p c). now right.
Qed.

Lemma cleanup_leaves_nothing now s :
  JsMap.wf (conversationState s) ->
  swept_clean now (conversationState (cleanupOldData now s)).
Proof.
  intros Hwf phone conv Hin.
  apply JsMapFacts.In_get in Hin; [|now apply AutoLeadFacts.al_cleanup_wf].
  rewrite AutoLeadFacts.al_cleanup_store in Hin by assumption.
  destruct (JsMap.get phone (conversationState s)) as [c|]; [|discriminate].
  unfold swept in Hin. destruct (past_retention now c) eqn:Hp; [discriminate|].
  now injection Hin as <-.
Qed.

(** X19 ([cleanupOldData]): the sweeper is idempotent.  In every state a
    run from start-up reaches, a second pass at the same clock reading
    changes nothing: no conversation is left past the retention time, no
    history record older than the cut-off, and the daily statistics,
    reset or not by the first pass, are dated today. *)
Theorem cleanup_is_idempotent instances t0 trace now :
  let s := snd (run trace [] (initial instances t0)) in
  cleanupOldData now (cleanupOldData now s) = cleanupOldData now s.
Proof.
  intros s.
  assert (Hwf : JsMap.wf (conversationState s)).
  { apply EngineFacts.al_reachable_well_formed. exists instances, t0, trace. reflexivity. }
  pose proof (cleanup_leaves_nothing now s Hwf) as Hclean.
  unfold cleanupOldData at 1.
  rewrite (fold_cleanup_entry_kept now _ (cleanupOldData now s) Hclean).
  unfold cleanupOldData.
  set (s' := fold_left (cleanup_entry now) (conversationState s) s).
  cbn [INSTANCES conversationState checkpointTimeouts timers nextTimerId
       instanceStats checkpointHistory dailyStats instanceRotationCounter
       totalLeadsProcessed Daily.last_reset Daily.leads_today
       Daily.checkpoints_passed Daily.timeouts].
  rewrite SweeperFacts.filter_idempotent.
  destruct (toDateString (Daily.last_reset (dailyStats s')) =? toDateString now) eqn:E;
    cbn [Daily.last_reset Daily.leads_today Daily.checkpoints_passed Daily.timeouts];
    rewrite ?E, ?Z.eqb_refl; reflexivity.
Qed.

(** ** Timers that fire late *)

(** X20 ([handleCheckpointTimeout], [activateCheckpoint]): a timeout that
    was armed for checkpoint K and fires after the client was given a
    different checkpoint K' is ignored: it changes nothing and notifies
    nobody.  The same holds when the client has no conversation. *)
Theorem superseded_timeout_is_ignored phone K K' timeout_minutes now now' s :
  K <> K' ->
  handleCheckpointTimeout phone K now'
    (snd (activateCheckpoint phone K' timeout_minutes now s))
  = ([], snd (activateCheckpoint phone K' timeout_minutes now s)).
Proof.
  intros Hne. unfold handleCheckpointTimeout.
  destruct (EngineFacts.activateCheckpoint_frame phone K' timeout_minutes now s)
    as (_ & _ & _ & _ & _ & _ & ->).
  destruct (JsMap.get phone (conversationState s)) as [c|] eqn:E.
  - rewrite JsMapFacts.get_set_eq. cbn [activated_conversation Conv.current_checkpoint
                                         checkpoint_differs].
    destruct (String.eqb_spec K' K); [congruence|reflexivity].
  - now rewrite E.
Qed.

(** The theorem at the waiting example client, given a second checkpoint
    before the timer of the first fires. *)
Lemma superseded_timeout_is_ignored_witness :
  handleCheckpointTimeout Examples.phone "confirm_interest" 62000
    (snd (activateCheckpoint Examples.phone "send_offer" (Some 1) 3000
            Examples.al_activated))
  = ([], snd (activateCheckpoint Examples.phone "send_offer" (Some 1) 3000
                Examples.al_activated)).
Proof.
  apply (superseded_timeout_is_ignored Examples.phone "confirm_interest"
           "send_offer" (Some 1) 3000 62000 Examples.al_activated).
  discriminate.
Defined.

(** ** The conversations of the store *)

Lemma assigned_deactivate n instances c :
  assigned instances c -> assigned (deactivate n instances) c.
Proof.
  intros (i & Hi & Hn & Hid). revert Hi.
  induction instances as [|a r IH]; cbn [deactivate]; [intros []|].
  destruct (name a =? n)%string.
  - intros [->|Hi].
    + eexists. split; [now left|]. cbn. auto.
    + exists i. split; [now right|auto].
  - intros [->|Hi].
    + exists i. split; [now left|auto].
    + destruct (IH Hi) as (i' & Hi' & H'). exists i'. split; [now right|auto].
Qed.

Lemma store_ok_set phone c (m : JsMap.t Conv.t) instances :
  conv_ok phone c -> assigned instances c ->
  (forall p c0, JsMap.get p m = Some c0 -> conv_ok p c0 /\ assigned instances c0) ->
  forall p c0, JsMap.get p (JsMap.set phone c m) = Some c0 ->
               conv_ok p c0 /\ assigned instances c0.
Proof.
  intros Hc Ha H p c0. destruct (String.eqb_spec phone p) as [<-|Hne].
  - rewrite JsMapFacts.get_set_eq. intros [= <-]. auto.
  - rewrite JsMapFacts.get_set_neq by assumption. apply H.
Qed.

Lemma reachable_store_ok s : reachable s -> store_ok s.
Proof.
  apply (EngineFacts.reachable_keeps store_ok).
  - intros phone nm source now s0 conversation s' _ _ E H.
    apply EngineFacts.createConversation_frame in E
      as (i & Hi & -> & EI & EC & _).
    unfold store_ok. rewrite EI, EC.
    apply (store_ok_set phone); [| |exact H].
    + split; [reflexivity|]. split; [discriminate|]. split; [constructor|].
      now left.
    + exists i. split; [|split; reflexivity].
      now apply (EngineFacts.getNextInstance_configured now s0).
  - intros phone K tm now s0 _ HK H.
    destruct (EngineFacts.activateCheckpoint_frame phone K tm now s0)
      as (EI & _ & _ & _ & _ & _ & EC).
    unfold store_ok. rewrite EI, EC.
    destruct (JsMap.get phone (conversationState s0)) as [c|] eqn:G; [|exact H].
    destruct (H phone c G) as [(Hp & _ & Hrec & Hst) Ha].
    apply (store_ok_set phone); [| |exact H].
    + split; [exact Hp|]. split; [|split; [exact Hrec|exact Hst]].
      intros _. exists K, now. repeat split; auto.
    + exact Ha.
  - intros phone message now s0 _ H.
    destruct (EngineFacts.processCheckpointResponse_frame phone message now s0)
      as [->|(c & G & Hw & EI & EC & _)]; [exact H|].
    unfold store_ok. rewrite EI, EC.
    destruct (H phone c G) as [(Hp & Hwait & Hrec & Hst) Ha].
    destruct (Hwait Hw) as (K & activated & Hc & HK & Hat).
    apply (store_ok_set phone); [| |exact H].
    + split; [exact Hp|]. split; [discriminate|]. split; [|exact Hst].
      cbn [resolved_conversation Conv.checkpoints].
      apply Forall_app. split; [exact Hrec|]. constructor; [|constructor].
      split; cbn [Checkpoint.name Checkpoint.response_time].
      * exists K. auto.
      * rewrite Hat. eauto.
    + exact Ha.
  - intros timeoutId now s0 _ H.
    destruct (EngineFacts.fire_timer_frame timeoutId now s0)
      as [(EI & EC & _)|(p & K & c & G & _ & EI & EC & _)];
      unfold store_ok; rewrite EI, EC; [exact H|].
    destruct (H p c G) as [(Hp & _ & Hrec & _) Ha].
    apply (store_ok_set p); [| |exact H].
    + split; [exact Hp|]. split; [discriminate|]. split; [exact Hrec|now right].
    + exact Ha.
  - intros m now s0 _ H.
    destruct (api_instance_block_grow m now s0) as [EI _].
    destruct (EngineFacts.api_instance_block_frame m now s0) as (EC & _).
    unfold store_ok. rewrite EI, EC.
    destruct (fst (api_instance_block m now s0)); [|exact H].
    intros p c G. destruct (H p c G) as [Hc Ha].
    split; [exact Hc|now apply assigned_deactivate].
  - intros now s0 Hwf H p c G.
    destruct (cleanupOldData_grow now s0) as [EI _]. rewrite EI.
    rewrite AutoLeadFacts.al_cleanup_store in G by exact Hwf.
    destruct (JsMap.get p (conversationState s0)) as [c0|] eqn:G0; [|discriminate].
    unfold swept in G. destruct (past_retention now c0); [discriminate|].
    injection G as <-. now apply H.
  - intros instances t0 p c. discriminate.
Qed.

(** X21 ([createConversation], [activateCheckpoint],
    [processCheckpointResponse], [handleCheckpointTimeout]): in every
    state a run from start-up reaches, a conversation is stored under its
    own phone; its instance and instance id are those of one configured
    instance; while it waits it has a checkpoint with a non-empty name and
    an activation time; every record of its passed checkpoints names its
    checkpoint and has a response time that is a number; and its status
    is active or timeout. *)
Theorem conversation_records_are_complete instances t0 trace phone c :
  let s := snd (run trace [] (initial instances t0)) in
  JsMap.get phone (conversationState s) = Some c ->
  Conv.phone c = phone /\
  (exists i, In i (INSTANCES s) /\ name i = Conv.instance c /\
             id i = Conv.instance_id c) /\
  (Conv.waiting_response c = true ->
   exists checkpointName activated,
     Conv.current_checkpoint c = Some checkpointName /\
     checkpointName <> EmptyString /\
     Conv.checkpoint_activated_at c = Some activated) /\
  Forall (fun r =>
            (exists checkpointName,
               Checkpoint.name r = Some checkpointName /\
               checkpointName <> EmptyString) /\
            exists response_time, Checkpoint.response_time r = Some response_time)
         (Conv.checkpoints c) /\
  (Conv.status c = "active" \/ Conv.status c = "timeout").
Proof.
  intros s Hget.
  assert (Hr : reachable s) by (exists instances, t0, trace; reflexivity).
  destruct (reachable_store_ok s Hr phone c Hget) as [(H1 & H2 & H3 & H5) H4].
  repeat split; assumption.
Qed.

(** The theorem at the example client after its answer: one record,
    named confirm_interest, answered after 3000 ms. *)
Lemma conversation_records_are_complete_witness :
  let s := snd (run Examples.al_resolved_trace []
                  (initial AutoLead.INSTANCES_configured 0)) in
  let c :=
    resolved_conversation
      (activated_conversation Examples.al_conversation "confirm_interest" 2000)
      "yes" 5000 in
  Conv.checkpoints c
  = [ Checkpoint.mk (Some "confirm_interest") "yes" 5000 (Some 3000) ] /\
  (Conv.phone c = Examples.phone /\
   (exists i, In i (INSTANCES s) /\ name i = Conv.instance c /\
              id i = Conv.instance_id c) /\
   (Conv.waiting_response c = true ->
    exists checkpointName activated,
      Conv.current_checkpoint c = Some checkpointName /\
      checkpointName <> EmptyString /\
      Conv.checkpoint_activated_at c = Some activated) /\
   Forall (fun r =>
             (exists checkpointName,
                Checkpoint.name r = Some checkpointName /\
                checkpointName <> EmptyString) /\
             exists response_time, Checkpoint.response_time r = Some response_time)
          (Conv.checkpoints c) /\
   (Conv.status c = "active" \/ Conv.status c = "timeout")).
Proof.
  split; [reflexivity|].
  apply (conversation_records_are_complete AutoLead.INSTANCES_configured 0
           Examples.al_resolved_trace Examples.phone
           (resolved_conversation
              (activated_conversation Examples.al_conversation
                 "confirm_interest" 2000)
              "yes" 5000)).
  reflexivity.
Defined.

(** ** Registration *)

(** X22 ([createConversation], [POST /api/lead/new],
    [POST /webhook/evolution]): a client is registered once.  After
    [createConversation] registered a client whose number is not empty
    and has no at sign, the lead route answers existing for it, with the
    instance, instance id and creation time of that registration, sends
    nothing and changes nothing; and a message of that client to the
    webhook is answered with a plain success, not with a new lead, and
    leaves [totalLeadsProcessed] as it is. *)
Theorem client_is_registered_once phone nm source now s conversation s1 :
  createConversation phone nm source now s = Some (conversation, s1) ->
  phone <> EmptyString ->
  Jid.contains "@" phone = false ->
  (forall body now',
     lb_phone body = Some phone ->
     api_lead_new body now' s1
     = (LeadExisting (Conv.instance conversation) (Conv.instance_id conversation) now,
        [], s1)) /\
  (forall echo conversation_text extended_text now',
     let r :=
       webhook_evolution
         {| data :=
              Some {| key := Some {| remoteJid := phone ++ Jid.whatsapp_suffix;
                                     fromMe := echo |};
                      message_conversation := conversation_text;
                      message_extendedText := extended_text |} |}
         now' s1 in
     fst (fst r) = WebhookOk /\
     totalLeadsProcessed (snd r) = totalLeadsProcessed s1).
Proof.
  intros E Hne Hat.
  apply EngineFacts.createConversation_frame in E
    as (i & _ & -> & _ & EC & _).
  assert (Hget : JsMap.get phone (conversationState s1)
                 = Some (Conv.mk phone nm (name i) (id i) source None [] false
                           now now "active" None))
    by (rewrite EC; apply JsMapFacts.get_set_eq).
  split.
  - intros body now' Hp. unfold api_lead_new. rewrite Hp.
    cbn [JS.truthy_opt JS.template]. rewrite (JSFacts.truthy_nonempty _ Hne).
    cbn [negb]. now rewrite Hget.
  - intros echo ct et now'. unfold webhook_evolution.
    cbn [data key remoteJid fromMe].
    change "@s.whatsapp.net" with Jid.whatsapp_suffix.
    rewrite SuffixFacts.replace_suffix by assumption.
    destruct echo; [split; reflexivity|].
    destruct (negb (JS.trim_truthy _)); [split; reflexivity|].
    unfold JsMap.has. rewrite Hget. cbn [negb].
    match goal with
    | |- context [processCheckpointResponse ?p ?m now' s1] =>
        destruct (EngineFacts.processCheckpointResponse_frame p m now' s1)
          as [F|(c & _ & _ & F)];
        destruct (processCheckpointResponse p m now' s1) as [[e|c1 c2 c3] s2]
    end; cbn [fst snd] in *; split; try reflexivity.
    + now rewrite F.
    + now rewrite F.
    + apply F.
    + apply F.
Qed.

(** The theorem at the example client, registered by its first message. *)
Lemma client_is_registered_once_witness :
  (forall body now',
     lb_phone body = Some Examples.phone ->
     api_lead_new body now' Examples.al_started
     = (LeadExisting "G08" "A63C380B277D-4A5E-9ECD-48710291E5A6" 1000,
        [], Examples.al_started)) /\
  (forall echo conversation_text extended_text now',
     let r :=
       webhook_evolution
         {| data :=
              Some {| key := Some {| remoteJid := Examples.phone ++ Jid.whatsapp_suffix;
                                     fromMe := echo |};
                      message_conversation := conversation_text;
                      message_extendedText := extended_text |} |}
         now' Examples.al_started in
     fst (fst r) = WebhookOk /\
     totalLeadsProcessed (snd r) = totalLeadsProcessed Examples.al_started).
Proof.
  apply (client_is_registered_once Examples.phone "Cliente" "whatsapp_direto" 1000
           Examples.al_initial Examples.al_conversation Examples.al_started).
  - reflexivity.
  - discriminate.
  - reflexivity.
Defined.

(** X23 ([POST /webhook/evolution]): how the webhook routes a message.
    For a client number without an at sign, a message from the JID made of
    that number and the suffix [@s.whatsapp.net], with its text taken from
    [conversation] or else from [extendedTextMessage.text], is dropped
    when it is an echo or its text is blank; registers the client when the
    number is unknown; and is otherwise handed to
    [processCheckpointResponse] under the bare number. *)
Theorem webhook_routes_by_jid p echo conversation_text extended_text now s :
  Jid.contains "@" p = false ->
  let messageData :=
    {| key := Some {| remoteJid := p ++ Jid.whatsapp_suffix; fromMe := echo |};
       message_conversation := conversation_text;
       message_extendedText := extended_text |} in
  let text := messageContent messageData in
  snd (webhook_evolution {| data := Some messageData |} now s)
  = if echo then s
    else if negb (JS.trim_truthy text) then s
    else if JsMap.has p (conversationState s)
    then snd (processCheckpointResponse p text now s)
    else match createConversation p "Cliente" "whatsapp_direto" now s with
         | Some (_, s') => s'
         | None => s
         end.
Proof.
  intros Hp messageData text. subst text messageData. unfold webhook_evolution.
  cbn [data key remoteJid fromMe].
  change "@s.whatsapp.net" with Jid.whatsapp_suffix.
  rewrite SuffixFacts.replace_suffix by assumption.
  set (text := messageContent _).
  destruct echo; [reflexivity|].
  destruct (negb (JS.trim_truthy text)); [reflexivity|].
  destruct (JsMap.has p (conversationState s)); cbn [negb].
  - destruct (processCheckpointResponse p text now s) as [[e|c1 c2 c3] s']; reflexivity.
  - destruct (createConversation p "Cliente" "whatsapp_direto" now s) as [[c s']|];
      reflexivity.
Qed.

(** The theorem for the first message of the example client, carried as
    extended text, and for a first message that is one no-break space,
    which is blank and registers nobody. *)
Lemma webhook_routes_by_jid_witness :
  snd (webhook_evolution
         {| data :=
              Some {| key := Some {| remoteJid := "5511999999999@s.whatsapp.net";
                                     fromMe := false |};
                      message_conversation := None;
                      message_extendedText := Some "oi" |} |}
         1000 Examples.al_initial)
  = Examples.al_started
  /\
  snd (webhook_evolution
         {| data :=
              Some {| key := Some {| remoteJid := "5511999999999@s.whatsapp.net";
                                     fromMe := false |};
                      message_conversation := Some Examples.nbsp;
                      message_extendedText := None |} |}
         1000 Examples.al_initial)
  = Examples.al_initial.
Proof.
  split.
  - apply (webhook_routes_by_jid Examples.phone false None (Some "oi") 1000
             Examples.al_initial).
    reflexivity.
  - apply (webhook_routes_by_jid Examples.phone false (Some Examples.nbsp) None 1000
             Examples.al_initial).
    reflexivity.
Defined.

(** X24 ([GET /api/conversation/:phone], [processCheckpointResponse]):
    for an unknown client the conversation route answers 404; for a
    waiting client, right after its response was processed at [now] the
    route shows the conversation no longer waiting, its last activity at
    [now], with one more checkpoint record than before, and its current
    checkpoint and status as they were. *)
Theorem conversation_route_after_response phone message now s :
  (JsMap.get phone (conversationState s) = None ->
   api_conversation phone s = Conversation404) /\
  (forall c,
     JsMap.get phone (conversationState s) = Some c ->
     Conv.waiting_response c = true ->
     exists c',
       api_conversation phone (snd (processCheckpointResponse phone message now s))
       = ConversationJson c' (Z.of_nat (List.length (Conv.checkpoints c)) + 1) /\
       Conv.waiting_response c' = false /\
       Conv.last_activity c' = now /\
       Conv.current_checkpoint c' = Conv.current_checkpoint c /\
       Conv.status c' = Conv.status c).
Proof.
  unfold api_conversation. split.
  - intros E. now rewrite E.
  - intros c G Hw.
    destruct (AutoLeadFacts.al_resolve_waiting s phone message now c G Hw)
      as (_ & EC & _).
    rewrite EC, JsMapFacts.get_set_eq.
    exists (resolved_conversation c message now). split; [|repeat split].
    f_equal. cbn [resolved_conversation Conv.checkpoints].
    rewrite length_app. cbn [List.length]. lia.
Qed.

(** The theorem at the example client, answering confirm_interest. *)
Lemma conversation_route_after_response_witness :
  exists c',
    api_conversation Examples.phone Examples.al_resolved = ConversationJson c' 1 /\
    Conv.waiting_response c' = false /\
    Conv.last_activity c' = 5000 /\
    Conv.current_checkpoint c' = Some "confirm_interest" /\
    Conv.status c' = "active".
Proof.
  apply (proj2 (conversation_route_after_response Examples.phone "yes" 5000
                  Examples.al_activated)
           (activated_conversation Examples.al_conversation "confirm_interest" 2000)).
  - reflexivity.
  - reflexivity.
Defined.

(** ** The system log *)

Lemma firstn_app_firstn {A : Type} (a b : list A) : forall n m,
  (n <= m)%nat -> firstn n (a ++ firstn m b) = firstn n (a ++ b).
Proof.
  induction a as [|x a IH]; intros n m H; cbn [app].
  - rewrite firstn_firstn. f_equal. lia.
  - destruct n as [|n]; [reflexivity|]. cbn [firstn]. f_equal. apply IH. lia.
Qed.

Lemma fold_addLog entries : forall systemLogs,
  fold_left (fun logs logEntry => SystemLog.addLog logEntry logs) entries
            (firstn 1000 systemLogs)
  = firstn 1000 (rev entries ++ systemLogs).
Proof.
  induction entries as [|e r IH]; intros l; cbn [fold_left rev app]; [reflexivity|].
  unfold SystemLog.addLog at 2. rewrite JSFacts.firstn_cap.
  rewrite IH, <- app_assoc. cbn [app].
  change (e :: firstn 1000 l) with ([e] ++ firstn 1000 l)%list.
  rewrite app_assoc, firstn_app_firstn by lia.
  now rewrite <- app_assoc.
Qed.

(** X25 ([addLog]): after any sequence of [addLog] calls on the empty
    log, [systemLogs] holds the last 1000 entries, newest first, and the
    status route's [recent_logs] the last 100. *)
Theorem system_log_keeps_the_latest entries :
  let systemLogs :=
    fold_left (fun logs logEntry => SystemLog.addLog logEntry logs) entries [] in
  systemLogs = firstn 1000 (rev entries) /\
  (List.length systemLogs <= 1000)%nat /\
  SystemLog.recent_logs systemLogs = firstn 100 (rev entries).
Proof.
  cbv zeta.
  pose proof (fold_addLog entries []) as H.
  rewrite firstn_nil, app_nil_r in H. rewrite H.
  split; [reflexivity|]. split; [apply firstn_le_length|].
  unfold SystemLog.recent_logs. rewrite firstn_firstn. reflexivity.
Qed.

(** ** Counting the leads *)

Lemma registrations_app h1 h2 :
  registrations (h1 ++ h2) = registrations h1 + registrations h2.
Proof. unfold registrations. rewrite filter_app, length_app. lia. Qed.

Lemma step_counts_registrations r now s :
  totalLeadsProcessed (snd (step r now s))
  = totalLeadsProcessed s + registrations (fst (step r now s)).
Proof.
  destruct r as [body|body|body|instance_name|timeoutId|]; cbn [step].
  - unfold api_lead_new.
    destruct (negb _); [cbn; lia|].
    destruct (JsMap.get _ (conversationState s)); [cbn; lia|].
    destruct (createConversation _ _ _ now s) as [[conversation s']|] eqn:E;
      [|cbn; lia].
    apply EngineFacts.createConversation_frame in E
      as (i & _ & _ & _ & _ & _ & _ & _ & _ & _ & _ & _ & E).
    cbn [fst snd map seen_in]. rewrite E. reflexivity.
  - unfold api_checkpoint_activate.
    destruct (_ || _); [cbn; lia|].
    match goal with
    | |- context [activateCheckpoint ?p ?c ?t now s] =>
        destruct (EngineFacts.activateCheckpoint_frame p c t now s)
          as (_ & _ & _ & _ & _ & E & _);
        destruct (activateCheckpoint p c t now s) as [[e|c1 c2 c3] s']
    end; cbn [fst snd] in *; rewrite E; cbn; lia.
  - unfold webhook_evolution.
    destruct (data body) as [messageData|]; [|cbn; lia].
    destruct (key messageData) as [k|]; [|cbn; lia].
    destruct (fromMe k); [cbn; lia|].
    destruct (negb (JS.trim_truthy _)); [cbn; lia|].
    destruct (negb (JsMap.has _ _)).
    + destruct (createConversation _ _ _ now s) as [[conversation s']|] eqn:E;
        [|cbn; lia].
      apply EngineFacts.createConversation_frame in E
        as (i & _ & _ & _ & _ & _ & _ & _ & _ & _ & _ & _ & E).
      cbn [fst snd map seen_in]. rewrite E. reflexivity.
    + match goal with
      | |- context [processCheckpointResponse ?p ?m now s] =>
          destruct (EngineFacts.processCheckpointResponse_frame p m now s)
            as [F|(c & _ & _ & _ & _ & _ & _ & _ & _ & F)];
          destruct (processCheckpointResponse p m now s) as [[e|c1 c2 c3] s']
      end; cbn [fst snd] in *; rewrite F; cbn; lia.
  - destruct (EngineFacts.api_instance_block_frame instance_name now s)
      as (_ & _ & _ & _ & E).
    cbn [fst snd]. rewrite E. cbn. lia.
  - destruct (EngineFacts.fire_timer_frame timeoutId now s)
      as [(_ & _ & _ & _ & _ & _ & E)|(p & K & c & _ & _ & _ & _ & _ & _ & _ & _ & E)];
      assert (Hsent : forall sent, In sent (fst (fire_timer timeoutId now s)) ->
                                   is_created (seen_in sent) = false)
        by (unfold fire_timer, handleCheckpointTimeout;
            destruct (find _ _) as [[? ?]|]; [|intros ? []];
            destruct (JsMap.get _ _); [|intros ? []];
            destruct (checkpoint_differs _ _); [intros ? []|];
            intros ? [<-|[]]; reflexivity);
      destruct (fire_timer timeoutId now s) as [sent s']; cbn [fst snd] in *;
      rewrite E; unfold registrations;
      (replace (filter is_created (map seen_in sent)) with (@nil Lifecycle.Event);
       [cbn; lia|]);
      clear - Hsent; induction sent as [|n r IH]; cbn [map filter];
      try reflexivity;
      rewrite (Hsent n) by (now left); apply IH; intros x Hx; apply Hsent;
      now right.
  - cbn [fst snd]. unfold cleanupOldData. cbn [totalLeadsProcessed].
    destruct (EngineFacts.fold_cleanup_entry_frame now (conversationState s) s)
      as (_ & _ & _ & _ & E).
    rewrite E. cbn. lia.
Qed.

Lemma run_counts_registrations trace : forall history s,
  totalLeadsProcessed (snd (run trace history s)) - registrations (fst (run trace history s))
  = totalLeadsProcessed s - registrations history.
Proof.
  induction trace as [|[r now] rest IH]; intros history s; cbn [run]; [reflexivity|].
  pose proof (step_counts_registrations r now s) as H.
  destruct (step r now s) as [seen s']. cbn [fst snd] in H.
  rewrite IH, registrations_app. lia.
Qed.

(** X26 ([createConversation], the lead route, the webhook,
    [GET /api/status]): [totalLeadsProcessed], which the status route
    reports as [total_leads_processed], counts the registrations: after
    any run from start-up it is the number of new-lead notifications the
    server has sent. *)
Theorem total_leads_counts_registrations instances t0 trace :
  let r := run trace [] (initial instances t0) in
  total_leads_processed (stats (api_status (snd r)))
  = Z.of_nat (List.length
                (filter (fun e => match e with
                                  | Lifecycle.Created _ => true
                                  | _ => false
                                  end)
                        (fst r))).
Proof.
  cbv zeta. cbn [api_status stats total_leads_processed].
  pose proof (run_counts_registrations trace [] (initial instances t0)) as H.
  cbn in H. unfold registrations, is_created in H. lia.
Qed.

End Part001.
